(** * codeflex-ai web scraper: crawl orchestration core

    A shallow embedding of the Python sources
    - [utils/data_processor.py]      (fingerprints and duplicate detection)
    - [utils/proxy_manager.py]       (proxy rotation and health)
    - [utils/rate_limiter.py]        (request spacing)
    - [core/base_scraper.py]         (robots cache and the request function)
    - [core/html_scraper.py]         (single page scrape)
    - [utils/pagination_handler.py]  (next link and page URL generation)
    - [scrapers/web_scraper.py]      (batch scraping and the pagination walk)

    Python [int] is [Z], [float] (times and delays) is the rational [Q],
    [str] is [string], a [dict] with string keys that is only looked up is a
    [gmap string _], a [dict] whose insertion order is observable is an
    association list, a [set] is a [gset].  Mutable objects are passed
    explicitly: every method takes the state of [self] and returns the new
    one, together with the state of the outside world. *)

From Stdlib Require Import ZArith QArith Lqa Ascii String List Lia.
From stdpp Require Import base gmap strings list sorting pretty.

Set Warnings "-register-all,-clear-no-such-hyp".
Local Open Scope string_scope.
Local Open Scope list_scope.
Local Open Scope Z_scope.

(* ================================================================== *)
(** * Part I: the model *)
(* ================================================================== *)

(** ** Python values, exceptions, truthiness *)

Inductive exn : Type :=
| KeyError (key : string)
| ValueError (msg : string)
| BaseExc (msg : string).

(** The outcome of a call that may raise. *)
Inductive Res (A : Type) : Type :=
| Ok (a : A)
| Raise (e : exn).
Arguments Ok {A} a.
Arguments Raise {A} e.

(** JSON-serialisable Python values: the records the scrapers build.
    A [dict] is kept in insertion order; keys are strings. *)
Inductive json : Type :=
| JNull
| JBool (b : bool)
| JInt (n : Z)
| JStr (s : string)
| JList (items : list json)
| JDict (items : list (string * json)).

(** A record ("result") is a Python [dict]. *)
Abbreviation record := (list (string * json)).

(** [bool(s)] for a string, [bool(d)] for a dict. *)
Definition str_truthy (s : string) : bool :=
  match s with EmptyString => false | _ => true end.

Definition dict_truthy {A} (d : list (string * A)) : bool :=
  match d with [] => false | _ => true end.

(** [key in d] *)
Definition dict_has {A} (key : string) (d : list (string * A)) : bool :=
  bool_decide (key ∈ d.*1).

(** [d[key]] for a key that is present. *)
Fixpoint dict_get {A} (key : string) (d : list (string * A)) : option A :=
  match d with
  | [] => None
  | (k, v) :: d' => if decide (k = key) then Some v else dict_get key d'
  end.

(** [d[key] = v]: overwrite in place, or append a new key at the end. *)
Fixpoint dict_set {A} (key : string) (v : A) (d : list (string * A))
  : list (string * A) :=
  match d with
  | [] => [(key, v)]
  | (k, v') :: d' =>
      if decide (k = key) then (k, v) :: d' else (k, v') :: dict_set key v d'
  end.

(** Comparison of two floats, [a < b]. *)
Definition Qltb (a b : Q) : bool := negb (Qle_bool b a).

(** Python's [max(a, b)]: the first argument unless the second is larger. *)
Definition py_max (a b : Q) : Q := if Qltb a b then b else a.

(** ** The outside world

    The clock read by [time.time()], and a log of every interaction with
    the outside (sleeping, network calls).  What the outside answers is
    given by an environment of oracles, each of which may depend on the
    whole history. *)

Inductive Event : Type :=
| EvSleep (seconds : Q)
| EvRobotsRead (robots_url : string)
| EvRequest (url : string) (proxy : option string)
| EvBrowser (url : string)
| EvRandom
| EvLogScraping (url : string).

Record World : Type := {
  clock : Q;
  trace : list Event
}.

Definition log (e : Event) (w : World) : World :=
  {| clock := clock w; trace := trace w ++ [e] |}.

(** [time.sleep(d)]: the clock moves on by [d]. *)
Definition sleep (d : Q) (w : World) : World :=
  {| clock := (clock w + d)%Q; trace := trace w ++ [EvSleep d] |}.

Definition advance (d : Q) (w : World) : World :=
  {| clock := (clock w + d)%Q; trace := trace w |}.

(** [urllib.robotparser.RobotFileParser] after [read()]. *)
Record RobotFileParser : Type := {
  can_fetch : string -> string -> bool;
  rp_crawl_delay : string -> option Q
}.

(** An HTTP response: [status_code] and [text]. *)
Record Response : Type := {
  status_code : Z;
  text : string
}.

(** What the transport does with a request. *)
Inductive Reply : Type :=
| Responded (r : Response)
| Failed (msg : string).

(** Parsed markup, as BeautifulSoup gives it: for a CSS selector, the
    [href] attribute of each matching element ([None] when absent). *)
Definition Soup : Type := string -> list (option string).

Record Env : Type := {
  (** [urlparse(url)]: [scheme://netloc] of a URL *)
  url_domain : string -> string;
  (** [urljoin(base, ref)] *)
  urljoin : string -> string -> string;
  (** [rp.read()] on a robots URL; [None] when it raises *)
  robots_read : World -> string -> option RobotFileParser;
  (** [session.request(...)] *)
  session_request : World -> string -> option string -> Reply;
  (** time a network call takes *)
  net_latency : World -> Q;
  (** [random.choice]: an index into a sequence of the given length *)
  random_index : World -> nat -> nat;
  (** [BeautifulSoup(markup, 'lxml')]; [None] when parsing raises *)
  parse_html : string -> option Soup;
  (** [soup.title.string if soup.title else '']; [None] when the title
      element has no single string *)
  soup_title : Soup -> option string;
  (** [datetime.now().isoformat()] *)
  timestamp : World -> string;
  (** [hashlib.md5(s.encode()).hexdigest()] *)
  md5_hexdigest : string -> string;
  (** JSON string literal of a Python string (quoting and escapes) *)
  json_quote : string -> string;
  (** [HTMLScraper.extract_data(soup, selectors, base_url)] *)
  extract_data : Soup -> list (string * string) -> string -> record;
  (** [HTMLScraper.extract_links(soup, base_url)], [extract_images] and
      [extract_forms] *)
  extract_links : Soup -> string -> json;
  extract_images : Soup -> string -> json;
  extract_forms : Soup -> string -> json;
  (** [UserAgent().random] of fake_useragent *)
  user_agent_random : World -> string;
  (** [repr(s)] of a Python string, which is what [str(KeyError(s))] is *)
  py_repr : string -> string;
  (** [await response.text()] of the async client; [None] when it raises *)
  async_text : World -> Response -> option string;
  (** [BrowserScraper.scrape_sync(url)] and [scrape_async(url)] *)
  browser_scrape : World -> string -> Res (option record);
  (** [self.browser_scraper._driver.page_source if ... else None] *)
  browser_page_source : World -> option string;
  (** [parse_qs(urlparse(base_url).query)] *)
  parse_qs : string -> list (string * list string);
  (** [urlunparse] of the parts of [base_url] with the query replaced by
      [urlencode(query_params, doseq=True)] *)
  build_url : string -> list (string * list string) -> string
}.

(** A network call: logged, and the clock moves on by its latency. *)
Definition net_call (E : Env) (e : Event) (w : World) : World :=
  advance (net_latency E w) (log e w).

(** ** utils/data_processor.py *)

Module DataProcessor.

(** The order of the items of a dict under [sort_keys]: by key, in the
    order of Python strings (code points, which is the order of their
    UTF-8 bytes). *)
Definition key_le (a b : string * string) : Prop := String.le a.1 b.1.

Definition join (sep : string) (l : list string) : string :=
  match l with
  | [] => ""
  | x :: l' => foldl (fun acc y => acc +:+ sep +:+ y) x l'
  end.

Definition dumps_item (E : Env) (kv : string * string) : string :=
  json_quote E kv.1 +:+ ": " +:+ kv.2.

(** [json.dumps(data, sort_keys=True)].  Items of a list are joined by
    [", "], a key and its value by [": "]; with [sort_keys] the items of
    every dict are emitted in the order of their keys.  Each value is
    rendered first and the rendered items are then ordered by key, which
    gives the same text as ordering first. *)
Fixpoint dumps (E : Env) (v : json) : string :=
  match v with
  | JNull => "null"
  | JBool true => "true"
  | JBool false => "false"
  | JInt n => pretty n
  | JStr s => json_quote E s
  | JList l => "[" +:+ join ", " (dumps E <$> l) +:+ "]"
  | JDict d =>
      "{" +:+
      join ", "
        (dumps_item E <$>
           merge_sort key_le ((fun kv => (kv.1, dumps E kv.2)) <$> d))
      +:+ "}"
  end.

(** [str(data)] for data that is neither a dict nor a list. *)
Definition py_str (v : json) : string :=
  match v with
  | JNull => "None"
  | JBool true => "True"
  | JBool false => "False"
  | JInt n => pretty n
  | JStr s => s
  | _ => ""
  end.

Record t : Type := {
  seen_hashes : gset string;
  duplicate_count : Z
}.

(** [__init__] *)
Definition init : t := {| seen_hashes := ∅; duplicate_count := 0 |}.

Definition calculate_hash (E : Env) (data : json) : string :=
  let data_str :=
    match data with
    | JDict _ | JList _ => dumps E data
    | _ => py_str data
    end in
  md5_hexdigest E data_str.

Definition is_duplicate (E : Env) (self : t) (data : json) : bool * t :=
  let data_hash := calculate_hash E data in
  if decide (data_hash ∈ seen_hashes self) then
    (true, {| seen_hashes := seen_hashes self;
              duplicate_count := duplicate_count self + 1 |})
  else
    (false, {| seen_hashes := seen_hashes self ∪ {[ data_hash ]};
               duplicate_count := duplicate_count self |}).

(** The result of [get_duplicate_stats]. *)
Record DuplicateStats : Type := {
  total_processed : Z;
  unique_items : Z;
  duplicates_found : Z;
  duplicate_rate : Q
}.

Definition get_duplicate_stats (self : t) : DuplicateStats :=
  let seen := Z.of_nat (size (seen_hashes self)) in
  let total := seen + duplicate_count self in
  {| total_processed := total;
     unique_items := seen;
     duplicates_found := duplicate_count self;
     duplicate_rate :=
       if (0 <? total)%Z
       then (inject_Z (duplicate_count self) / inject_Z total)%Q
       else 0%Q |}.

(** [url.split('#')[0]]: the text before the first ['#']. *)
Fixpoint before_hash (url : string) : string :=
  match url with
  | EmptyString => EmptyString
  | String c rest =>
      if Ascii.eqb c "#" then EmptyString else String c (before_hash rest)
  end.

Definition clean_url (url : string) : string :=
  if negb (str_truthy url) then ""
  else
    (* Remove fragments and unnecessary parameters *)
    let url1 := before_hash url in
    (* Normalize protocol *)
    if String.prefix "//" url1 then "https:" +:+ url1
    else if negb (String.prefix "http://" url1 || String.prefix "https://" url1)
    then "https://" +:+ url1
    else url1.

End DataProcessor.

(** ** config/settings.py *)

Record ScrapingConfig : Type := {
  base_delay : Q;
  max_retries : Z;
  concurrent_requests : Z;
  use_proxies : bool;
  proxy_list : list string;
  proxy_rotation : bool;
  respect_robots_txt : bool;
  crawl_delay : option Q;
  user_agents : list string;
  default_headers : list (string * string)
}.

(** The defaults of [user_agents] and of [default_headers]. *)
Definition DEFAULT_USER_AGENTS : list string :=
  [ "Mozilla/5.0 (Windows NT 10.0; Win64; x64) AppleWebKit/537.36 (KHTML, like Gecko) Chrome/120.0.0.0 Safari/537.36";
    "Mozilla/5.0 (Macintosh; Intel Mac OS X 10_15_7) AppleWebKit/537.36 (KHTML, like Gecko) Chrome/120.0.0.0 Safari/537.36";
    "Mozilla/5.0 (X11; Linux x86_64) AppleWebKit/537.36 (KHTML, like Gecko) Chrome/120.0.0.0 Safari/537.36";
    "Mozilla/5.0 (Windows NT 10.0; Win64; x64; rv:109.0) Gecko/20100101 Firefox/121.0";
    "Mozilla/5.0 (Macintosh; Intel Mac OS X 10.15; rv:109.0) Gecko/20100101 Firefox/121.0" ].

Definition DEFAULT_HEADERS : list (string * string) :=
  [ ("Accept", "text/html,application/xhtml+xml,application/xml;q=0.9,image/webp,*/*;q=0.8");
    ("Accept-Language", "en-US,en;q=0.5");
    ("Accept-Encoding", "gzip, deflate, br");
    ("DNT", "1");
    ("Connection", "keep-alive");
    ("Upgrade-Insecure-Requests", "1");
    ("Sec-Fetch-Dest", "document");
    ("Sec-Fetch-Mode", "navigate");
    ("Sec-Fetch-Site", "none");
    ("Cache-Control", "max-age=0") ].

(** The defaults of the dataclass. *)
Definition DEFAULT_CONFIG : ScrapingConfig := {|
  base_delay := 1;
  max_retries := 3;
  concurrent_requests := 10;
  use_proxies := false;
  proxy_list := [];
  proxy_rotation := true;
  respect_robots_txt := true;
  crawl_delay := None;
  user_agents := DEFAULT_USER_AGENTS;
  default_headers := DEFAULT_HEADERS
|}.

(** ** utils/proxy_manager.py *)

Module ProxyManager.

(** One entry of [proxy_stats]. *)
Record ProxyStats : Type := {
  requests : Z;
  failures : Z;
  last_used : Q;
  response_time : Q;
  active : bool
}.

Definition fresh_stats : ProxyStats :=
  {| requests := 0; failures := 0; last_used := 0; response_time := 0;
     active := true |}.

Record t : Type := {
  proxies : list string;
  current_proxy_index : nat;
  proxy_stats : gmap string ProxyStats
}.

(** [__init__] *)
Definition init (config : ScrapingConfig) : t :=
  let proxies0 := proxy_list config in
  {| proxies := proxies0;
     current_proxy_index := 0;
     proxy_stats :=
       foldl (fun stats proxy => <[proxy := fresh_stats]> stats) ∅ proxies0 |}.

Definition add_proxy (self : t) (proxy : string) : t :=
  if decide (proxy ∈ proxies self) then self
  else {| proxies := proxies self ++ [proxy];
          current_proxy_index := current_proxy_index self;
          proxy_stats := <[proxy := fresh_stats]> (proxy_stats self) |}.

(** [list.remove]: drops the first occurrence. *)
Fixpoint list_remove (x : string) (l : list string) : list string :=
  match l with
  | [] => []
  | y :: l' => if decide (y = x) then l' else y :: list_remove x l'
  end.

Definition remove_proxy (self : t) (proxy : string) : t :=
  if decide (proxy ∈ proxies self) then
    {| proxies := list_remove proxy (proxies self);
       current_proxy_index := current_proxy_index self;
       proxy_stats := delete proxy (proxy_stats self) |}
  else self.

(** [[p for p in self.proxies if self.proxy_stats[p]['active']]] *)
Fixpoint active_proxies (stats : gmap string ProxyStats) (l : list string)
  : Res (list string) :=
  match l with
  | [] => Ok []
  | p :: l' =>
      match stats !! p with
      | None => Raise (KeyError p)
      | Some s =>
          match active_proxies stats l' with
          | Raise e => Raise e
          | Ok rest => Ok (if active s then p :: rest else rest)
          end
      end
  end.

Definition get_proxy (E : Env) (config : ScrapingConfig) (self : t) (w : World)
  : Res (option string) * t * World :=
  match proxies self with
  | [] => (Ok None, self, w)
  | _ =>
      match active_proxies (proxy_stats self) (proxies self) with
      | Raise e => (Raise e, self, w)
      | Ok [] => (Ok None, self, w)
      | Ok (p0 :: rest) =>
          let act := p0 :: rest in
          let '(proxy, index', w1) :=
            if proxy_rotation config then
              (nth (current_proxy_index self mod length act) act p0,
               S (current_proxy_index self), w)
            else
              (nth (random_index E w (length act) mod length act) act p0,
               current_proxy_index self, log EvRandom w) in
          match proxy_stats self !! proxy with
          | None => (Raise (KeyError proxy), self, w1)
          | Some s =>
              let s' := {| requests := requests s + 1;
                           failures := failures s;
                           last_used := clock w1;
                           response_time := response_time s;
                           active := active s |} in
              (Ok (Some proxy),
               {| proxies := proxies self;
                  current_proxy_index := index';
                  proxy_stats := <[proxy := s']> (proxy_stats self) |},
               w1)
          end
      end
  end.

(** [failures / max(1, requests)], true division. *)
Definition failure_rate (s : ProxyStats) : Q :=
  (inject_Z (failures s) / inject_Z (Z.max 1 (requests s)))%Q.

(** What [mark_proxy_failed] does to the entry of the proxy: count the
    failure, then disable the entry if the failure rate is too high. *)
Definition record_failure (s : ProxyStats) : ProxyStats :=
  let s1 := {| requests := requests s;
               failures := failures s + 1;
               last_used := last_used s;
               response_time := response_time s;
               active := active s |} in
  if Qltb (1 # 2) (failure_rate s1) && (5 <? requests s1)%Z then
    {| requests := requests s1;
       failures := failures s1;
       last_used := last_used s1;
       response_time := response_time s1;
       active := false |}
  else s1.

Definition mark_proxy_failed (self : t) (proxy : string) : t :=
  match proxy_stats self !! proxy with
  | None => self
  | Some s =>
      {| proxies := proxies self;
         current_proxy_index := current_proxy_index self;
         proxy_stats := <[proxy := record_failure s]> (proxy_stats self) |}
  end.

Definition mark_proxy_success (self : t) (proxy : string) (rt : Q) : t :=
  match proxy_stats self !! proxy with
  | None => self
  | Some s =>
      {| proxies := proxies self;
         current_proxy_index := current_proxy_index self;
         proxy_stats :=
           <[proxy := {| requests := requests s;
                         failures := failures s;
                         last_used := last_used s;
                         response_time := rt;
                         active := active s |}]> (proxy_stats self) |}
  end.

Definition reset_proxy_stats (self : t) : t :=
  {| proxies := proxies self;
     current_proxy_index := current_proxy_index self;
     proxy_stats := (fun _ => fresh_stats) <$> proxy_stats self |}.

(** [n] failure reports in a row for the same proxy. *)
Definition report_failures (n : nat) (self : t) (proxy : string) : t :=
  Nat.iter n (fun pm => mark_proxy_failed pm proxy) self.

(** A pool of one proxy that has served [n] requests without failure. *)
Definition pool_after_requests (proxy : string) (n : Z) : t :=
  {| proxies := [proxy];
     current_proxy_index := Z.to_nat n;
     proxy_stats :=
       {[ proxy := {| requests := n; failures := 0; last_used := 0;
                      response_time := 0; active := true |} ]} |}.

End ProxyManager.

(** ** utils/rate_limiter.py *)

Module RateLimiter.

Record t : Type := {
  last_request_time : Q;
  request_count : Z
}.

(** [__init__] *)
Definition init : t := {| last_request_time := 0; request_count := 0 |}.

(** [min_delay]: the base delay, raised to the configured [crawl_delay]
    when that is set and not zero. *)
Definition min_delay (config : ScrapingConfig) : Q :=
  match crawl_delay config with
  | Some d => if Qeq_bool d 0 then base_delay config
              else py_max (base_delay config) d
  | None => base_delay config
  end.

(** The time slept by a call made at time [now] ([None]: no sleep). *)
Definition sleep_time (config : ScrapingConfig) (self : t) (now : Q)
  : option Q :=
  let time_since_last := (now - last_request_time self)%Q in
  if Qltb time_since_last (min_delay config)
  then Some (min_delay config - time_since_last)%Q
  else None.

Definition wait_sync (config : ScrapingConfig) (self : t) (w : World)
  : t * World :=
  let current_time := clock w in
  let w1 :=
    match sleep_time config self current_time with
    | Some d => sleep d w
    | None => w
    end in
  ({| last_request_time := clock w1;
      request_count := request_count self + 1 |}, w1).

(** [wait_async]: the same computation, sleeping with [asyncio.sleep]. *)
Definition wait_async (config : ScrapingConfig) (self : t) (w : World)
  : t * World :=
  let current_time := clock w in
  let w1 :=
    match sleep_time config self current_time with
    | Some d => sleep d w
    | None => w
    end in
  ({| last_request_time := clock w1;
      request_count := request_count self + 1 |}, w1).

End RateLimiter.

(** ** core/base_scraper.py *)

Module BaseScraper.

Record Stats : Type := {
  requests_made : Z;
  successful_requests : Z;
  failed_requests : Z;
  data_extracted : Z
}.

Record t : Type := {
  config : ScrapingConfig;
  rate_limiter : RateLimiter.t;
  proxy_manager : option ProxyManager.t;
  robots_cache : gmap string (option RobotFileParser);
  stats : Stats
}.

(** [__init__] *)
Definition init (cfg : ScrapingConfig) : t :=
  {| config := cfg;
     rate_limiter := RateLimiter.init;
     proxy_manager :=
       if use_proxies cfg then Some (ProxyManager.init cfg) else None;
     robots_cache := ∅;
     stats := {| requests_made := 0; successful_requests := 0;
                 failed_requests := 0; data_extracted := 0 |} |}.

Definition set_rate_limiter (rl : RateLimiter.t) (self : t) : t :=
  {| config := config self; rate_limiter := rl;
     proxy_manager := proxy_manager self;
     robots_cache := robots_cache self; stats := stats self |}.

Definition set_proxy_manager (pm : option ProxyManager.t) (self : t) : t :=
  {| config := config self; rate_limiter := rate_limiter self;
     proxy_manager := pm;
     robots_cache := robots_cache self; stats := stats self |}.

Definition set_robots_cache (c : gmap string (option RobotFileParser))
    (self : t) : t :=
  {| config := config self; rate_limiter := rate_limiter self;
     proxy_manager := proxy_manager self;
     robots_cache := c; stats := stats self |}.

Definition set_stats (st : Stats) (self : t) : t :=
  {| config := config self; rate_limiter := rate_limiter self;
     proxy_manager := proxy_manager self;
     robots_cache := robots_cache self; stats := st |}.

(** [self.stats['requests_made'] += 1] and its siblings *)
Definition incr_requests_made (st : Stats) : Stats :=
  {| requests_made := requests_made st + 1;
     successful_requests := successful_requests st;
     failed_requests := failed_requests st;
     data_extracted := data_extracted st |}.

Definition incr_successful (st : Stats) : Stats :=
  {| requests_made := requests_made st;
     successful_requests := successful_requests st + 1;
     failed_requests := failed_requests st;
     data_extracted := data_extracted st |}.

Definition incr_failed (st : Stats) : Stats :=
  {| requests_made := requests_made st;
     successful_requests := successful_requests st;
     failed_requests := failed_requests st + 1;
     data_extracted := data_extracted st |}.

Definition add_data_extracted (n : Z) (st : Stats) : Stats :=
  {| requests_made := requests_made st;
     successful_requests := successful_requests st;
     failed_requests := failed_requests st;
     data_extracted := data_extracted st + n |}.

Definition _get_robots_parser (E : Env) (self : t) (w : World) (url : string)
  : option RobotFileParser * t * World :=
  if negb (respect_robots_txt (config self)) then (None, self, w)
  else
    let domain := url_domain E url in
    match robots_cache self !! domain with
    | Some cached => (cached, self, w)
    | None =>
        let robots_url := urljoin E domain "/robots.txt" in
        (* try: rp.read(); cache[domain] = rp / except: cache[domain] = None *)
        let entry := robots_read E w robots_url in
        (entry,
         set_robots_cache (<[domain := entry]> (robots_cache self)) self,
         net_call E (EvRobotsRead robots_url) w)
    end.

(** [user_agent] has its default, ['*']. *)
Definition _can_fetch (E : Env) (self : t) (w : World) (url : string)
  : bool * t * World :=
  let '(robots_parser, self1, w1) := _get_robots_parser E self w url in
  match robots_parser with
  | None => (true, self1, w1)
  | Some rp => (can_fetch rp "*" url, self1, w1)
  end.

Definition _get_crawl_delay (E : Env) (self : t) (w : World) (url : string)
  : option Q * t * World :=
  let '(robots_parser, self1, w1) := _get_robots_parser E self w url in
  match robots_parser with
  | None => (None, self1, w1)
  | Some rp => (rp_crawl_delay rp "*", self1, w1)
  end.

(** [_prepare_headers(custom_headers)]: the default headers, with a
    user agent drawn at random when they name none (from the configured
    [user_agents], or by fake_useragent when that list is empty), then
    the custom headers on top. *)
Definition _prepare_headers (E : Env) (self : t)
    (custom_headers : option (list (string * string))) (w : World)
  : list (string * string) * World :=
  let headers := default_headers (config self) in
  (* Add random user agent *)
  let '(headers1, w1) :=
    if negb (dict_has "User-Agent" headers) then
      match user_agents (config self) with
      | ua0 :: rest =>
          let uas := ua0 :: rest in
          (dict_set "User-Agent"
             (nth (random_index E w (length uas) mod length uas) uas ua0)
             headers,
           log EvRandom w)
      | [] =>
          (dict_set "User-Agent" (user_agent_random E w) headers,
           log EvRandom w)
      end
    else (headers, w) in
  (* Add custom headers *)
  (match custom_headers with
   | Some custom => foldl (fun h kv => dict_set kv.1 kv.2 h) headers1 custom
   | None => headers1
   end, w1).

Arguments _prepare_headers : simpl never.

(** The body of [_make_request_sync] from the [try] on: the request
    itself, with the proxy already chosen.  The prepared headers go to
    the transport, whose reply may depend on the whole history. *)
Definition send_request (E : Env) (self : t) (w : World) (url : string)
    (proxies : option string) : option Response * t * World :=
  let self1 := set_stats (incr_requests_made (stats self)) self in
  let w1 := net_call E (EvRequest url proxies) w in
  match session_request E w url proxies with
  | Responded response =>
      if (status_code response =? 200)%Z then
        (Some response, set_stats (incr_successful (stats self1)) self1, w1)
      else
        (None, set_stats (incr_failed (stats self1)) self1, w1)
  | Failed _ =>
      (* except Exception *)
      (None, set_stats (incr_failed (stats self1)) self1, w1)
  end.

(** [_make_request_sync(url)], with the default method and no custom
    headers. *)
Definition _make_request_sync (E : Env) (self : t) (w : World) (url : string)
  : Res (option Response) * t * World :=
  (* Check robots.txt *)
  let '(allowed, self1, w1) := _can_fetch E self w url in
  if negb allowed then (Ok None, self1, w1)
  else
    (* Apply rate limiting *)
    let '(rl, w2') :=
      RateLimiter.wait_sync (config self1) (rate_limiter self1) w1 in
    let self2 := set_rate_limiter rl self1 in
    (* Prepare headers *)
    let '(request_headers, w2) := _prepare_headers E self2 None w2' in
    (* Get proxy if enabled *)
    match proxy_manager self2 with
    | None =>
        let '(r, self3, w3) := send_request E self2 w2 url None in
        (Ok r, self3, w3)
    | Some pm =>
        let '(got, pm', w3) := ProxyManager.get_proxy E (config self2) pm w2 in
        let self3 := set_proxy_manager (Some pm') self2 in
        match got with
        | Raise e => (Raise e, self3, w3)
        | Ok proxy =>
            let proxies :=
              match proxy with
              | Some p => if str_truthy p then Some p else None
              | None => None
              end in
            let '(r, self4, w4) := send_request E self3 w3 url proxies in
            (Ok r, self4, w4)
        end
    end.

(** [_make_request_async(url)]: the same steps with [wait_async]; the
    proxy is handed to the client as it is. *)
Definition _make_request_async (E : Env) (self : t) (w : World) (url : string)
  : Res (option Response) * t * World :=
  let '(allowed, self1, w1) := _can_fetch E self w url in
  if negb allowed then (Ok None, self1, w1)
  else
    let '(rl, w2') :=
      RateLimiter.wait_async (config self1) (rate_limiter self1) w1 in
    let self2 := set_rate_limiter rl self1 in
    let '(request_headers, w2) := _prepare_headers E self2 None w2' in
    match proxy_manager self2 with
    | None =>
        let '(r, self3, w3) := send_request E self2 w2 url None in
        (Ok r, self3, w3)
    | Some pm =>
        let '(got, pm', w3) := ProxyManager.get_proxy E (config self2) pm w2 in
        let self3 := set_proxy_manager (Some pm') self2 in
        match got with
        | Raise e => (Raise e, self3, w3)
        | Ok proxy =>
            let '(r, self4, w4) := send_request E self3 w3 url proxy in
            (Ok r, self4, w4)
        end
    end.

(** What [get_stats] adds to the counters. *)
Record StatsReport : Type := {
  runtime_seconds : Q;
  requests_per_second : Q;
  success_rate : Q
}.

(** [get_stats].  [self.stats['start_time']], which [__init__] sets to the
    time of construction and nothing changes, is passed in. *)
Definition get_stats (self : t) (start_time : Q) (w : World) : StatsReport :=
  let current_time := clock w in
  let runtime := (current_time - start_time)%Q in
  {| runtime_seconds := runtime;
     requests_per_second :=
       if Qltb 0 runtime
       then (inject_Z (requests_made (stats self)) / runtime)%Q else 0%Q;
     success_rate :=
       if (0 <? requests_made (stats self))%Z
       then (inject_Z (successful_requests (stats self))
             / inject_Z (requests_made (stats self)))%Q
       else 0%Q |}.

End BaseScraper.

(** ** core/html_scraper.py *)

Module HTMLScraper.

(** [bool(selectors)] for an optional dict of selectors. *)
Definition selectors_truthy (selectors : option (list (string * string)))
  : bool :=
  match selectors with
  | Some sel => dict_truthy sel
  | None => false
  end.

(** The keyword flags [extract_links], [extract_images] and
    [extract_forms] of [scrape_sync] and [scrape_async]. *)
Record Flags : Type := {
  links : bool;
  images : bool;
  forms : bool
}.

(** Their defaults. *)
Definition no_flags : Flags :=
  {| links := false; images := false; forms := false |}.

(** The record built from a response whose markup is [markup]:
    [url], [status_code], [title], [timestamp], then [data] when
    selectors are given, and [links], [images], [forms] when asked for.
    [None] when the [try] block raises. *)
Definition build_result (E : Env) (self : BaseScraper.t) (w : World)
    (url : string) (status : Z) (markup : string)
    (selectors : option (list (string * string))) (flags : Flags)
  : option record * BaseScraper.t :=
  match parse_html E markup with
  | None => (None, self)
  | Some soup =>
      let result :=
        [("url", JStr url); ("status_code", JInt status);
         ("title", match soup_title E soup with
                   | Some title => JStr title
                   | None => JNull
                   end);
         ("timestamp", JStr (timestamp E w))] in
      (* Extract data using selectors *)
      let '(result1, self1) :=
        match selectors with
        | Some sel =>
            if dict_truthy sel then
              let extracted_data := extract_data E soup sel url in
              (dict_set "data" (JDict extracted_data) result,
               BaseScraper.set_stats
                 (BaseScraper.add_data_extracted
                    (Z.of_nat (length extracted_data))
                    (BaseScraper.stats self)) self)
            else (result, self)
        | None => (result, self)
        end in
      (* Extract links, images and forms if requested *)
      let result2 :=
        if links flags
        then dict_set "links" (extract_links E soup url) result1
        else result1 in
      let result3 :=
        if images flags
        then dict_set "images" (extract_images E soup url) result2
        else result2 in
      let result4 :=
        if forms flags
        then dict_set "forms" (extract_forms E soup url) result3
        else result3 in
      (Some result4, self1)
  end.

(** [scrape_sync(url, selectors, extract_links, extract_images,
    extract_forms)] *)
Definition scrape_sync (E : Env) (self : BaseScraper.t) (w : World)
    (url : string) (selectors : option (list (string * string)))
    (flags : Flags)
  : Res (option record) * BaseScraper.t * World :=
  let '(got, self1, w1) := BaseScraper._make_request_sync E self w url in
  match got with
  | Raise e => (Raise e, self1, w1)
  | Ok None => (Ok None, self1, w1)
  | Ok (Some response) =>
      let '(result, self2) :=
        build_result E self1 w1 url (status_code response) (text response)
          selectors flags in
      (Ok result, self2, w1)
  end.

Definition scrape_async (E : Env) (self : BaseScraper.t) (w : World)
    (url : string) (selectors : option (list (string * string)))
    (flags : Flags)
  : Res (option record) * BaseScraper.t * World :=
  let '(got, self1, w1) := BaseScraper._make_request_async E self w url in
  match got with
  | Raise e => (Raise e, self1, w1)
  | Ok None => (Ok None, self1, w1)
  | Ok (Some response) =>
      match async_text E w1 response with
      | None => (Ok None, self1, w1)
      | Some html_content =>
          let '(result, self2) :=
            build_result E self1 w1 url (status_code response) html_content
              selectors flags in
          (Ok result, self2, w1)
      end
  end.

End HTMLScraper.

(** ** utils/pagination_handler.py *)

Module PaginationHandler.

(** The double quote, for the selectors below. *)
Definition dq : string := String "034"%char "".

(** [self.pagination_patterns['next_link']] *)
Definition next_link : list string :=
  [ "a[rel=" +:+ dq +:+ "next" +:+ dq +:+ "]";
    "a.next";
    "a.pagination-next";
    "a[aria-label*=" +:+ dq +:+ "next" +:+ dq +:+ " i]";
    "a[title*=" +:+ dq +:+ "next" +:+ dq +:+ " i]";
    "a:contains(" +:+ dq +:+ "Next" +:+ dq +:+ ")";
    "a:contains(" +:+ dq +:+ ">" +:+ dq +:+ ")";
    "a:contains(" +:+ dq +:+ "→" +:+ dq +:+ ")" ].

(** The loop of [get_next_page_url] over the remaining selectors. *)
Fixpoint first_next (E : Env) (soup : Soup) (current_url : string)
    (selectors : list string) : option string :=
  match selectors with
  | [] => None
  | selector :: rest =>
      match soup selector with
      | Some href :: _ =>
          if str_truthy href then Some (urljoin E current_url href)
          else first_next E soup current_url rest
      | _ => first_next E soup current_url rest
      end
  end.

Definition get_next_page_url (E : Env) (soup : Soup) (current_url : string)
  : option string :=
  first_next E soup current_url next_link.

(** [bool(max_pages)] for an optional int. *)
Definition max_pages_truthy (max_pages : option Z) : bool :=
  match max_pages with
  | Some n => negb (n =? 0)%Z
  | None => false
  end.

(** [max_pages and page > start_page + max_pages - 1] *)
Definition past_last_page (start_page : Z) (max_pages : option Z) (page : Z)
  : bool :=
  match max_pages with
  | Some n => negb (n =? 0)%Z && (start_page + n - 1 <? page)%Z
  | None => false
  end.

(** The [while True] loop of [generate_page_urls]; [None] when [fuel]
    iterations do not reach the [break]. *)
Fixpoint generate_loop (E : Env) (base_url page_param : string)
    (start_page : Z) (max_pages : option Z) (fuel : nat)
    (page : Z) (query_params : list (string * list string))
    (urls : list string) : option (list string) :=
  match fuel with
  | O => None
  | S fuel' =>
      if past_last_page start_page max_pages page then Some urls
      else
        let query_params' := dict_set page_param [pretty page] query_params in
        let new_url := build_url E base_url query_params' in
        generate_loop E base_url page_param start_page max_pages fuel'
          (page + 1) query_params' (urls ++ [new_url])
  end.

Definition generate_page_urls (E : Env) (base_url page_param : string)
    (start_page : Z) (max_pages : option Z) (fuel : nat)
  : option (list string) :=
  generate_loop E base_url page_param start_page max_pages fuel
    start_page (parse_qs E base_url) [].

Definition should_continue_pagination (current_page : Z)
    (max_pages : option Z) (has_next : bool) : bool :=
  if negb has_next then false
  else
    match max_pages with
    | Some n => if negb (n =? 0)%Z && (n <=? current_page)%Z then false
                else true
    | None => true
    end.

(** [self.pagination_patterns['page_numbers']] and [['load_more']], and
    the indicators of infinite scroll. *)
Definition page_numbers : list string :=
  [ ".pagination a";
    ".pager a";
    ".page-numbers a";
    "nav[aria-label*=" +:+ dq +:+ "pagination" +:+ dq +:+ " i] a" ].

Definition load_more : list string :=
  [ "button[data-load-more]";
    "a[data-load-more]";
    ".load-more";
    "button:contains(" +:+ dq +:+ "Load More" +:+ dq +:+ ")";
    "button:contains(" +:+ dq +:+ "Show More" +:+ dq +:+ ")" ].

Definition infinite_scroll_indicators : list string :=
  [ "[data-infinite-scroll]"; ".infinite-scroll"; "[data-scroll-loading]" ].

(** [bool(elements)] for the result of [soup.select]. *)
Definition has_elements (elements : list (option string)) : bool :=
  match elements with [] => false | _ => true end.

Definition detect_pagination_type (soup : Soup) : string :=
  (* Check for next link pagination *)
  if existsb (fun selector => has_elements (soup selector)) next_link
  then "next_link"
  (* Check for numbered pagination *)
  else if existsb (fun selector => (1 <? length (soup selector))%nat)
            page_numbers
  then "page_numbers"
  (* Check for load more button *)
  else if existsb (fun selector => has_elements (soup selector)) load_more
  then "load_more"
  (* Check for infinite scroll indicators *)
  else if existsb (fun selector => has_elements (soup selector))
            infinite_scroll_indicators
  then "infinite_scroll"
  else "none".

(** The inner loop of [get_all_page_urls]: the URLs of the elements
    that have an [href], each kept once, in order of first appearance. *)
Fixpoint collect_page_urls (E : Env) (current_url : string)
    (elements : list (option string)) (page_urls : list string)
  : list string :=
  match elements with
  | [] => page_urls
  | Some href :: rest =>
      if str_truthy href then
        let full_url := urljoin E current_url href in
        if decide (full_url ∈ page_urls)
        then collect_page_urls E current_url rest page_urls
        else collect_page_urls E current_url rest (page_urls ++ [full_url])
      else collect_page_urls E current_url rest page_urls
  | None :: rest => collect_page_urls E current_url rest page_urls
  end.

(** The slice [l[:n]]: the first [n] items, or all but the last [-n]
    items when [n] is negative. *)
Definition py_take {A} (n : Z) (l : list A) : list A :=
  if (0 <=? n)%Z then take (Z.to_nat n) l
  else take (length l - Z.to_nat (- n)) l.

(** [if max_pages and len(page_urls) >= max_pages: page_urls = page_urls[:max_pages]] *)
Definition limit_pages (max_pages : option Z) (page_urls : list string)
  : list string :=
  match max_pages with
  | Some n =>
      if negb (n =? 0)%Z && (n <=? Z.of_nat (length page_urls))%Z
      then py_take n page_urls else page_urls
  | None => page_urls
  end.

(** The outer loop of [get_all_page_urls]: the first selector that
    matches anything decides. *)
Fixpoint all_page_urls_loop (E : Env) (soup : Soup) (current_url : string)
    (max_pages : option Z) (selectors : list string) : list string :=
  match selectors with
  | [] => []
  | selector :: rest =>
      if has_elements (soup selector) then
        limit_pages max_pages
          (collect_page_urls E current_url (soup selector) [])
      else all_page_urls_loop E soup current_url max_pages rest
  end.

Definition get_all_page_urls (E : Env) (soup : Soup) (current_url : string)
    (max_pages : option Z) : list string :=
  all_page_urls_loop E soup current_url max_pages page_numbers.

End PaginationHandler.

(** ** scrapers/web_scraper.py *)

Module WebScraper.

Record t : Type := {
  config : ScrapingConfig;
  html_scraper : BaseScraper.t;
  data_processor : DataProcessor.t;
  results : list record;
  errors : list (string * string)
}.

(** [__init__] *)
Definition init (cfg : ScrapingConfig) : t :=
  {| config := cfg;
     html_scraper := BaseScraper.init cfg;
     data_processor := DataProcessor.init;
     results := [];
     errors := [] |}.

Definition set_html_scraper (h : BaseScraper.t) (self : t) : t :=
  {| config := config self; html_scraper := h;
     data_processor := data_processor self;
     results := results self; errors := errors self |}.

(** [self.errors.append({'url': url, 'error': msg})] *)
Definition add_error (url msg : string) (self : t) : t :=
  {| config := config self; html_scraper := html_scraper self;
     data_processor := data_processor self;
     results := results self; errors := errors self ++ [(url, msg)] |}.

(** [str(e)]; for a [KeyError] it is the [repr] of the key. *)
Definition exn_message (E : Env) (e : exn) : string :=
  match e with
  | KeyError k => py_repr E k
  | ValueError m => m
  | BaseExc m => m
  end.

(** [except Exception] catches everything but the exceptions that
    derive from [BaseException] only (cancellation, interrupts). *)
Definition is_Exception (e : exn) : bool :=
  match e with
  | BaseExc _ => false
  | _ => true
  end.

(** The scraper call at the head of the [try] block, with the
    extraction step of the browser path.  No further keyword arguments
    are passed on, so the HTML scraper runs with its default flags. *)
Definition run_scraper (E : Env) (self : t) (w : World) (url : string)
    (selectors : option (list (string * string))) (use_browser : bool)
    (is_async : bool) : Res (option record) * t * World :=
  if use_browser then
    let w1 := net_call E (EvBrowser url) w in
    match browser_scrape E w url with
    | Raise e => (Raise e, self, w1)
    | Ok None => (Ok None, self, w1)
    | Ok (Some result) =>
        if dict_truthy result && dict_has "page_source" result
           && HTMLScraper.selectors_truthy selectors then
          match dict_get "page_source" result, selectors with
          | Some (JStr src), Some sel =>
              match parse_html E src with
              | Some soup =>
                  (Ok (Some (dict_set "data"
                               (JDict (extract_data E soup sel url)) result)),
                   self, w1)
              | None => (Raise (ValueError "parse"), self, w1)
              end
          | _, _ => (Raise (ValueError "page_source"), self, w1)
          end
        else (Ok (Some result), self, w1)
    end
  else
    let '(r, h, w1) :=
      if is_async
      then HTMLScraper.scrape_async E (html_scraper self) w url selectors
             HTMLScraper.no_flags
      else HTMLScraper.scrape_sync E (html_scraper self) w url selectors
             HTMLScraper.no_flags in
    (r, set_html_scraper h self, w1).

(** What follows the scraper call in [scrape_single_url] and in
    [scrape_single_url_async]. *)
Definition record_outcome (E : Env) (self : t) (w : World) (url : string)
    (got : Res (option record)) : Res (option record) * t * World :=
  match got with
  | Ok (Some result) =>
      if dict_truthy result then
        (* Check for duplicates *)
        let '(dup, dp) :=
          DataProcessor.is_duplicate E (data_processor self) (JDict result) in
        let self1 :=
          {| config := config self; html_scraper := html_scraper self;
             data_processor := dp;
             results := if dup then results self
                        else results self ++ [result];
             errors := errors self |} in
        (Ok (Some result), self1, w)
      else (Ok None, add_error url "No result returned" self, w)
  | Ok None => (Ok None, add_error url "No result returned" self, w)
  | Raise e =>
      if is_Exception e
      then (Ok None, add_error url (exn_message E e) self, w)
      else (Raise e, self, w)
  end.

Definition scrape_single_url (E : Env) (self : t) (w : World) (url : string)
    (selectors : option (list (string * string))) (use_browser : bool)
  : Res (option record) * t * World :=
  let w0 := log (EvLogScraping url) w in
  let '(got, self1, w1) :=
    run_scraper E self w0 url selectors use_browser false in
  record_outcome E self1 w1 url got.

Definition scrape_single_url_async (E : Env) (self : t) (w : World)
    (url : string) (selectors : option (list (string * string)))
    (use_browser : bool) : Res (option record) * t * World :=
  let w0 := log (EvLogScraping url) w in
  let '(got, self1, w1) :=
    run_scraper E self w0 url selectors use_browser true in
  record_outcome E self1 w1 url got.

(** [asyncio.gather] with [return_exceptions=True]: one entry per
    task, in the order of the tasks; a task that raises contributes its
    exception.  The tasks are run here one after the other in the order
    of [urls]; the interleaving of concurrent tasks is not modelled. *)
Fixpoint gather (E : Env) (self : t) (w : World) (urls : list string)
    (selectors : option (list (string * string))) (use_browser : bool)
  : list (Res (option record)) * t * World :=
  match urls with
  | [] => ([], self, w)
  | url :: rest =>
      let '(r, self1, w1) :=
        scrape_single_url_async E self w url selectors use_browser in
      let '(rs, self2, w2) :=
        gather E self1 w1 rest selectors use_browser in
      (r :: rs, self2, w2)
  end.

(** The loop that filters the gathered results: a dict is kept, an
    exception is logged, anything else ([None]) is skipped. *)
Fixpoint valid_results (gathered : list (Res (option record)))
  : list record :=
  match gathered with
  | [] => []
  | Ok (Some result) :: rest => result :: valid_results rest
  | Ok None :: rest => valid_results rest
  | Raise _ :: rest => valid_results rest
  end.

(** [max_concurrent or self.config.concurrent_requests] *)
Definition effective_concurrency (self : t) (max_concurrent : option Z) : Z :=
  match max_concurrent with
  | Some n => if (n =? 0)%Z then concurrent_requests (config self) else n
  | None => concurrent_requests (config self)
  end.

(** [scrape_multiple_urls_async].  [asyncio.Semaphore] rejects a
    negative value, and a semaphore of value zero is never acquired:
    with at least one URL the call then never returns ([None]). *)
Definition scrape_multiple_urls_async (E : Env) (self : t) (w : World)
    (urls : list string) (selectors : option (list (string * string)))
    (use_browser : bool) (max_concurrent : option Z)
  : option (Res (list record) * t * World) :=
  let limit := effective_concurrency self max_concurrent in
  if (limit <? 0)%Z then Some (Raise (ValueError "Semaphore"), self, w)
  else if (limit =? 0)%Z && negb (bool_decide (urls = [])) then None
  else
    let '(gathered, self1, w1) :=
      gather E self w urls selectors use_browser in
    Some (Ok (valid_results gathered), self1, w1).

(** How the walk gets the markup of the page it has just scraped. *)
Inductive SoupStep : Type :=
| GotSoup (soup : Soup)
| Break
| Raised (e : exn).

Definition make_soup (E : Env) (markup : string) : SoupStep :=
  match parse_html E markup with
  | Some soup => GotSoup soup
  | None => Raised (ValueError "parse")
  end.

Definition page_soup (E : Env) (self : t) (w : World) (current_url : string)
    (result : record) (use_browser : bool) : SoupStep * t * World :=
  if dict_has "page_source" result then
    match dict_get "page_source" result with
    | Some (JStr src) => (make_soup E src, self, w)
    | _ => (Raised (ValueError "page_source"), self, w)
    end
  else if use_browser then
    (* Get page source from browser *)
    match browser_page_source E w with
    | Some src =>
        if str_truthy src then (make_soup E src, self, w)
        else (Break, self, w)
    | None => (Break, self, w)
    end
  else
    (* Make another request to get the page for pagination analysis *)
    let '(got, h, w1) :=
      BaseScraper._make_request_sync E (html_scraper self) w current_url in
    let self1 := set_html_scraper h self in
    match got with
    | Raise e => (Raised e, self1, w1)
    | Ok (Some response) => (make_soup E (text response), self1, w1)
    | Ok None => (Break, self1, w1)
    end.

(** [current_url and (not max_pages or page_count < max_pages)] *)
Definition keep_walking (current_url : string) (max_pages : option Z)
    (page_count : Z) : bool :=
  str_truthy current_url &&
  (negb (PaginationHandler.max_pages_truthy max_pages) ||
   match max_pages with
   | Some n => (page_count <? n)%Z
   | None => false
   end).

(** The [while] loop of [scrape_with_pagination]; [None] when [fuel]
    iterations do not leave the loop. *)
Fixpoint pagination_loop (E : Env)
    (selectors : option (list (string * string))) (max_pages : option Z)
    (use_browser : bool) (fuel : nat) (self : t) (w : World)
    (current_url : string) (page_count : Z) (all_results : list record)
  : option (Res (list record) * t * World) :=
  match fuel with
  | O => None
  | S fuel' =>
      if keep_walking current_url max_pages page_count then
        let page_count' := page_count + 1 in
        (* Scrape current page *)
        let '(got, self1, w1) :=
          scrape_single_url E self w current_url selectors use_browser in
        match got with
        | Raise e => Some (Raise e, self1, w1)
        | Ok None => Some (Ok all_results, self1, w1)
        | Ok (Some result) =>
            if dict_truthy result then
              let all_results' := all_results ++ [result] in
              (* Get next page URL *)
              let '(step, self2, w2) :=
                page_soup E self1 w1 current_url result use_browser in
              match step with
              | Raised e => Some (Raise e, self2, w2)
              | Break => Some (Ok all_results', self2, w2)
              | GotSoup soup =>
                  (* Find next page *)
                  match PaginationHandler.get_next_page_url E soup current_url with
                  | Some next_url =>
                      if str_truthy next_url
                         && negb (bool_decide (next_url = current_url)) then
                        (* Add delay between pages *)
                        if Qltb (base_delay (config self2)) 0 then
                          Some (Raise (ValueError "sleep"), self2, w2)
                        else
                          pagination_loop E selectors max_pages use_browser
                            fuel' self2 (sleep (base_delay (config self2)) w2)
                            next_url page_count' all_results'
                      else Some (Ok all_results', self2, w2)
                  | None => Some (Ok all_results', self2, w2)
                  end
              end
            else Some (Ok all_results, self1, w1)
        end
      else Some (Ok all_results, self, w)
  end.

Definition scrape_with_pagination (E : Env) (self : t) (w : World)
    (start_url : string) (selectors : option (list (string * string)))
    (max_pages : option Z) (use_browser : bool) (fuel : nat)
  : option (Res (list record) * t * World) :=
  pagination_loop E selectors max_pages use_browser fuel self w
    start_url 0 [].

End WebScraper.

(** ** Vocabulary of the properties *)

(** Counting the events of a kind in a trace. *)
Definition is_request (e : Event) : bool :=
  match e with EvRequest _ _ => true | _ => false end.

Definition is_sleep (e : Event) : bool :=
  match e with EvSleep _ => true | _ => false end.

Definition is_robots_read (e : Event) : bool :=
  match e with EvRobotsRead _ => true | _ => false end.

Fixpoint count_events (f : Event -> bool) (tr : list Event) : nat :=
  match tr with
  | [] => O
  | e :: tr' => (if f e then 1 else 0) + count_events f tr'
  end.



(** The health fields of every pool entry are those of [pm]: only the
    request count and the time of last use may have moved. *)
Definition same_health (pm pm' : ProxyManager.t) : Prop :=
  forall p st,
    ProxyManager.proxy_stats pm !! p = Some st ->
    exists st',
      ProxyManager.proxy_stats pm' !! p = Some st' /\
      ProxyManager.failures st' = ProxyManager.failures st /\
      ProxyManager.response_time st' = ProxyManager.response_time st /\
      ProxyManager.active st' = ProxyManager.active st /\
      ProxyManager.requests st <= ProxyManager.requests st'
        <= ProxyManager.requests st + 1.

(** Two values are the same up to the order of the keys of their dicts,
    at every depth.  The keys of a dict are distinct. *)
Inductive json_equiv : json -> json -> Prop :=
| je_null : json_equiv JNull JNull
| je_bool b : json_equiv (JBool b) (JBool b)
| je_int n : json_equiv (JInt n) (JInt n)
| je_str s : json_equiv (JStr s) (JStr s)
| je_list l1 l2 :
    Forall2 json_equiv l1 l2 -> json_equiv (JList l1) (JList l2)
| je_dict d1 d1' d2 :
    NoDup d1.*1 ->
    d1 ≡ₚ d1' ->
    Forall2 (fun a b => a.1 = b.1 /\ json_equiv a.2 b.2) d1' d2 ->
    json_equiv (JDict d1) (JDict d2).

(** The keys of every dict inside a value are distinct, as those of a
    Python dict are. *)
Inductive canonical : json -> Prop :=
| can_null : canonical JNull
| can_bool b : canonical (JBool b)
| can_int n : canonical (JInt n)
| can_str s : canonical (JStr s)
| can_list l : Forall canonical l -> canonical (JList l)
| can_dict d :
    NoDup d.*1 -> Forall (fun kv => canonical kv.2) d ->
    canonical (JDict d).

(** The values that [calculate_hash] serialises with [json.dumps]: dicts
    and lists. *)
Definition is_container (v : json) : bool :=
  match v with
  | JDict _ | JList _ => true
  | _ => false
  end.

(** What is assumed of JSON string literals: a literal starts with a
    double quote, and the literal at the head of a text determines the
    string (a literal ends at its first double quote that is not escaped,
    so no literal is a proper prefix of another). *)
Definition quote_ok (E : Env) : Prop :=
  (forall s, exists body, json_quote E s = String "034"%char body) /\
  (forall s1 s2 r1 r2,
      json_quote E s1 +:+ r1 = json_quote E s2 +:+ r2 -> s1 = s2).

(** Two different texts with the same MD5 digest. *)
Definition md5_collision (E : Env) (t1 t2 : string) : Prop :=
  t1 <> t2 /\ md5_hexdigest E t1 = md5_hexdigest E t2.

(** The characters of a number, and those that may follow a value. *)
Definition num_char (c : ascii) : bool :=
  match Ascii.is_nat c with
  | Some _ => true
  | None => Ascii.eqb c "-"
  end.

Definition stop_char (c : ascii) : bool :=
  Ascii.eqb c "," || Ascii.eqb c "]" || Ascii.eqb c "}".

Definition stops (r : string) : Prop :=
  match r with
  | EmptyString => True
  | String c _ => stop_char c = true
  end.

Fixpoint all_num (s : string) : Prop :=
  match s with
  | EmptyString => True
  | String c s' => num_char c = true /\ all_num s'
  end.

(** The first character of the text of a value tells its kind. *)
Definition kind (v : json) : nat :=
  match v with
  | JNull => 0
  | JBool true => 1
  | JBool false => 2
  | JInt _ => 3
  | JStr _ => 4
  | JList _ => 5
  | JDict _ => 6
  end%nat.

Definition head_ok (v : json) (c : ascii) : Prop :=
  match v with
  | JNull => c = "n"
  | JBool true => c = "t"
  | JBool false => c = "f"
  | JInt _ => num_char c = true
  | JStr _ => c = "034"
  | JList _ => c = "["
  | JDict _ => c = "{"
  end%char.

(** What follows the first item of a joined list. *)
Definition tail_text (texts : list string) : string :=
  match texts with
  | [] => ""
  | _ => ", " +:+ DataProcessor.join ", " texts
  end.

(** What decoding a value means: the text of the value, followed by a
    closing bracket, a comma or nothing, determines the value up to the
    order of keys, and the rest of the text. *)
Definition decodes (E : Env) (a : json) : Prop :=
  forall b r1 r2,
    canonical b -> stops r1 -> stops r2 ->
    DataProcessor.dumps E a +:+ r1 = DataProcessor.dumps E b +:+ r2 ->
    json_equiv a b /\ r1 = r2.



Fixpoint count_raised (gathered : list (Res (option record))) : nat :=
  match gathered with
  | [] => 0
  | Raise _ :: rest => S (count_raised rest)
  | _ :: rest => count_raised rest
  end.

(** A run of admissions, one after the other. *)
Definition admit_all (E : Env) (dp : DataProcessor.t) (l : list json)
  : DataProcessor.t :=
  foldl (fun dp data => (DataProcessor.is_duplicate E dp data).2) dp l.

(** The URL that [generate_page_urls] builds for page number [p]: the
    query of [base_url] with [page_param] set to the decimal text of [p]. *)
Definition page_url (E : Env) (base_url page_param : string) (p : Z) : string :=
  build_url E base_url (dict_set page_param [pretty p] (parse_qs E base_url)).

(** The pool entry of a proxy in a scraper, if there is one. *)
Definition proxy_entry (s : BaseScraper.t) (p : string)
  : option ProxyManager.ProxyStats :=
  match BaseScraper.proxy_manager s with
  | Some pm => ProxyManager.proxy_stats pm !! p
  | None => None
  end.

(** A run of requests, one after the other. *)
Fixpoint run_requests (E : Env) (self : BaseScraper.t) (w : World)
    (urls : list string) : BaseScraper.t * World :=
  match urls with
  | [] => (self, w)
  | url :: rest =>
      let '(_, self1, w1) := BaseScraper._make_request_sync E self w url in
      run_requests E self1 w1 rest
  end.

(** What a robots lookup may change: the cache grows by at most one entry
    and the trace by at most one read of robots.txt; nothing else moves. *)
Definition robots_only (s : BaseScraper.t) (w : World)
    (s1 : BaseScraper.t) (w1 : World) : Prop :=
  BaseScraper.config s1 = BaseScraper.config s /\
  BaseScraper.rate_limiter s1 = BaseScraper.rate_limiter s /\
  BaseScraper.proxy_manager s1 = BaseScraper.proxy_manager s /\
  BaseScraper.stats s1 = BaseScraper.stats s /\
  (trace w1 = trace w \/ exists u, trace w1 = trace w ++ [EvRobotsRead u]) /\
  (forall d x, BaseScraper.robots_cache s !! d = Some x ->
               BaseScraper.robots_cache s1 !! d = Some x).

(** A pool is well formed when no proxy is listed twice and the listed
    proxies are exactly those that have statistics. *)
Definition pool_wf (pm : ProxyManager.t) : Prop :=
  NoDup (ProxyManager.proxies pm) /\
  forall p, p ∈ ProxyManager.proxies pm
            <-> is_Some (ProxyManager.proxy_stats pm !! p).

(** [k] calls of [get_proxy] in a row: what each returned, and the pool
    and the world after the last. *)
Fixpoint draw_many (E : Env) (cfg : ScrapingConfig) (k : nat)
    (pm : ProxyManager.t) (w : World)
  : list (Res (option string)) * ProxyManager.t * World :=
  match k with
  | O => ([], pm, w)
  | S k' =>
      let '(r, pm1, w1) := ProxyManager.get_proxy E cfg pm w in
      let '(rs, pm2, w2) := draw_many E cfg k' pm1 w1 in
      (r :: rs, pm2, w2)
  end.

(** The entry of a drawn proxy after the draw at time [now]. *)
Definition drawn_entry (st : ProxyManager.ProxyStats) (now : Q)
  : ProxyManager.ProxyStats :=
  {| ProxyManager.requests := ProxyManager.requests st + 1;
     ProxyManager.failures := ProxyManager.failures st;
     ProxyManager.last_used := now;
     ProxyManager.response_time := ProxyManager.response_time st;
     ProxyManager.active := ProxyManager.active st |}.

(** The request counters add up: every request made was counted as a
    success or as a failure, and no counter is negative. *)
Definition stats_ok (st : BaseScraper.Stats) : Prop :=
  0 <= BaseScraper.successful_requests st /\
  0 <= BaseScraper.failed_requests st /\
  BaseScraper.requests_made st
  = BaseScraper.successful_requests st + BaseScraper.failed_requests st.

(** The link a selector offers: the [href] of its first element, when
    that is not empty. *)
Definition first_href (soup : Soup) (selector : string) : option string :=
  match soup selector with
  | Some href :: _ => if str_truthy href then Some href else None
  | _ => None
  end.

(** The keys of a record of the HTML scraper, in the order in which
    they are set. *)
Definition html_record_keys (selectors : option (list (string * string)))
    (flags : HTMLScraper.Flags) : list string :=
  ["url"; "status_code"; "title"; "timestamp"]
  ++ (if HTMLScraper.selectors_truthy selectors then ["data"] else [])
  ++ (if HTMLScraper.links flags then ["links"] else [])
  ++ (if HTMLScraper.images flags then ["images"] else [])
  ++ (if HTMLScraper.forms flags then ["forms"] else []).

(** The fingerprints of a list of records. *)
Definition fingerprints (E : Env) (l : list record) : list string :=
  (fun r => DataProcessor.calculate_hash E (JDict r)) <$> l.

(** The stored results have pairwise different fingerprints, all of
    them known to the duplicate detector. *)
Definition results_distinct (E : Env) (s : WebScraper.t) : Prop :=
  NoDup (fingerprints E (WebScraper.results s)) /\
  forall h, h ∈ fingerprints E (WebScraper.results s) ->
            h ∈ DataProcessor.seen_hashes (WebScraper.data_processor s).

(** What the web scraper has accounted for: stored results, duplicates
    and errors. *)
Definition accounted (s : WebScraper.t) : Z :=
  Z.of_nat (length (WebScraper.results s))
  + DataProcessor.duplicate_count (WebScraper.data_processor s)
  + Z.of_nat (length (WebScraper.errors s)).

(** One more unless the scrape ended in an exception that is passed on. *)
Definition accounted_for (r : Res (option record)) : Z :=
  match r with
  | Raise _ => 0
  | Ok _ => 1
  end.

(** ** Concrete environments

    Small sites used to run the model: every URL is on the one host
    [https://example.com], a reference is joined to a base by keeping an
    absolute reference and appending a relative one, the markup of a page
    is the [href] of its [a.next] link (no link when empty), network calls
    take no time, the hash is the identity, and the JSON string literal
    escapes the double quote and the backslash. *)

Module Fixture.

Fixpoint json_escape (s : string) : string :=
  match s with
  | EmptyString => EmptyString
  | String c rest =>
      if Ascii.eqb c "034" then
        String "092" (String "034" (json_escape rest))
      else if Ascii.eqb c "092" then
        String "092" (String "092" (json_escape rest))
      else String c (json_escape rest)
  end.

Definition quote (s : string) : string :=
  String "034" (json_escape s +:+ PaginationHandler.dq).

Definition host : string := "https://example.com".

Definition soup_of (markup : string) : Soup :=
  fun selector =>
    if decide (selector = "a.next") then
      (if str_truthy markup then [Some markup] else [])
    else [].

Definition page (status : Z) (next : string) : Reply :=
  Responded {| status_code := status; text := next |}.

Definition env (robots : option RobotFileParser) (site : string -> Reply)
  : Env := {|
  url_domain := fun _ => host;
  urljoin := fun base ref =>
    if String.prefix "http" ref then ref else base +:+ ref;
  robots_read := fun _ _ => robots;
  session_request := fun _ url _ => site url;
  net_latency := fun _ => 0%Q;
  random_index := fun _ _ => O;
  parse_html := fun markup => Some (soup_of markup);
  soup_title := fun _ => Some "";
  timestamp := fun _ => "2024-01-01T00:00:00";
  md5_hexdigest := fun s => s;
  json_quote := quote;
  extract_data := fun _ _ _ => [];
  extract_links := fun _ _ => JList [];
  extract_images := fun _ _ => JList [];
  extract_forms := fun _ _ => JList [];
  user_agent_random := fun _ => "Mozilla/5.0";
  py_repr := fun s => "'" +:+ s +:+ "'";
  async_text := fun _ r => Some (text r);
  browser_scrape := fun _ _ => Ok None;
  browser_page_source := fun _ => None;
  parse_qs := fun _ => [];
  build_url := fun base qp =>
    base +:+ "?" +:+
    DataProcessor.join "&"
      (map (fun kv => kv.1 +:+ "=" +:+ DataProcessor.join "," kv.2) qp)
|}.

(** A robots.txt that allows everything and asks for the given delay. *)
Definition robots_allow (delay : option Q) : RobotFileParser :=
  {| can_fetch := fun _ _ => true; rp_crawl_delay := fun _ => delay |}.

(** A robots.txt that disallows everything. *)
Definition robots_deny : RobotFileParser :=
  {| can_fetch := fun _ _ => false; rp_crawl_delay := fun _ => None |}.

(** What [rp.read()] leaves when the server answers the request for
    robots.txt with HTTP 401 or 403: the call does not raise, and the
    parser disallows everything. *)
Definition robots_forbidden : option RobotFileParser := Some robots_deny.

Definition world0 : World := {| clock := 100; trace := [] |}.

(** Every page answers 200 and has no next link. *)
Definition site_ok : string -> Reply := fun _ => page 200 "".

(** Every request fails in the transport. *)
Definition site_down : string -> Reply := fun _ => Failed "timeout".

(** A configuration with one proxy, and a scraper built from it. *)
Definition config_with_proxy : ScrapingConfig := {|
  base_delay := 1;
  max_retries := 3;
  concurrent_requests := 10;
  use_proxies := true;
  proxy_list := ["http://proxy1:8080"];
  proxy_rotation := true;
  respect_robots_txt := true;
  crawl_delay := None;
  user_agents := DEFAULT_USER_AGENTS;
  default_headers := DEFAULT_HEADERS
|}.

Definition scraper_with_proxy : BaseScraper.t :=
  BaseScraper.init config_with_proxy.

(** The same environment with network calls that take [l] seconds. *)
Definition with_latency (l : Q) (E : Env) : Env := {|
  url_domain := url_domain E;
  urljoin := urljoin E;
  robots_read := robots_read E;
  session_request := session_request E;
  net_latency := fun _ => l;
  random_index := random_index E;
  parse_html := parse_html E;
  soup_title := soup_title E;
  timestamp := timestamp E;
  md5_hexdigest := md5_hexdigest E;
  json_quote := json_quote E;
  extract_data := extract_data E;
  extract_links := extract_links E;
  extract_images := extract_images E;
  extract_forms := extract_forms E;
  user_agent_random := user_agent_random E;
  py_repr := py_repr E;
  async_text := async_text E;
  browser_scrape := browser_scrape E;
  browser_page_source := browser_page_source E;
  parse_qs := parse_qs E;
  build_url := build_url E
|}.

(** Page [/b] answers 500, every other page 200. *)
Definition site_b_broken : string -> Reply :=
  fun url =>
    if decide (url = "https://example.com/b") then page 500 ""
    else page 200 "".



(** A configuration with three proxies, and one that lists the same
    proxy twice. *)
Definition config_three_proxies : ScrapingConfig := {|
  base_delay := 1;
  max_retries := 3;
  concurrent_requests := 10;
  use_proxies := true;
  proxy_list := ["http://p1"; "http://p2"; "http://p3"];
  proxy_rotation := true;
  respect_robots_txt := true;
  crawl_delay := None;
  user_agents := DEFAULT_USER_AGENTS;
  default_headers := DEFAULT_HEADERS
|}.

Definition config_repeated_proxy : ScrapingConfig := {|
  base_delay := 1;
  max_retries := 3;
  concurrent_requests := 10;
  use_proxies := true;
  proxy_list := ["http://p1"; "http://p1"];
  proxy_rotation := true;
  respect_robots_txt := true;
  crawl_delay := None;
  user_agents := DEFAULT_USER_AGENTS;
  default_headers := DEFAULT_HEADERS
|}.

(** Markup with numbered page links, one of them twice and one element
    without [href]. *)
Definition soup_numbered : Soup :=
  fun selector =>
    if decide (selector = ".pagination a")
    then [Some "https://example.com/p1"; Some "https://example.com/p2"; None;
          Some "https://example.com/p1"; Some "https://example.com/p3"]
    else [].

(** A host that asks for ten seconds between requests. *)
Definition env_slow_host : Env := env (Some (robots_allow (Some 10%Q))) site_ok.

End Fixture.

(* ================================================================== *)
(** * Part II: properties *)
(* ================================================================== *)

(** ** Comparison of rationals *)

Lemma Qltb_lt (a b : Q) : Qltb a b = true <-> (a < b)%Q.
Proof.
  unfold Qltb. rewrite negb_true_iff. split.
  - intros H. apply Qnot_le_lt. intros Hle.
    apply Qle_bool_iff in Hle. congruence.
  - intros H. destruct (Qle_bool b a) eqn:Hb; [|reflexivity].
    apply Qle_bool_iff in Hb. exfalso. exact (Qlt_not_le _ _ H Hb).
Qed.

Lemma Qltb_ge (a b : Q) : Qltb a b = false <-> (b <= a)%Q.
Proof.
  unfold Qltb. rewrite negb_false_iff. apply Qle_bool_iff.
Qed.

(** ** Proxy health (utils/proxy_manager.py) *)

Section ProxyHealth.
Import ProxyManager.

Lemma record_failure_counts (s : ProxyStats) :
  failures (record_failure s) = failures s + 1 /\
  requests (record_failure s) = requests s.
Proof.
  unfold record_failure.
  destruct (Qltb _ _ && _); simpl; auto.
Qed.

(** Above five requests the guard [max(1, requests)] is the request
    count itself. *)
Lemma failure_rate_above_five (s : ProxyStats) :
  5 < requests s ->
  failure_rate s = (inject_Z (failures s) / inject_Z (requests s))%Q.
Proof.
  intros H. unfold failure_rate. rewrite Z.max_r by lia. reflexivity.
Qed.

Lemma record_failure_active (s : ProxyStats) :
  active (record_failure s) =
  active s &&
  negb (Qltb (1 # 2)
          (inject_Z (failures s + 1) / inject_Z (Z.max 1 (requests s)))
        && (5 <? requests s)).
Proof.
  unfold record_failure, failure_rate. simpl.
  destruct (Qltb _ _ && _); simpl.
  - symmetry. apply andb_false_r.
  - symmetry. apply andb_true_r.
Qed.

Lemma mark_proxy_failed_lookup (pm : t) (proxy : string) (s : ProxyStats) :
  proxy_stats pm !! proxy = Some s ->
  proxy_stats (mark_proxy_failed pm proxy) !! proxy = Some (record_failure s).
Proof.
  intros H. unfold mark_proxy_failed. rewrite H. simpl.
  apply lookup_insert_eq.
Qed.

Lemma report_failures_lookup (n : nat) (pm : t) (proxy : string)
    (s : ProxyStats) :
  proxy_stats pm !! proxy = Some s ->
  proxy_stats (report_failures n pm proxy) !! proxy
  = Some (Nat.iter n record_failure s).
Proof.
  intros H. induction n as [|n IH]; simpl; [exact H|].
  apply mark_proxy_failed_lookup. exact IH.
Qed.

(** C3. A failure report disables an active entry exactly when, with the
    failure counted, failures / requests > 0.5 and requests > 5; both
    are needed.  The division is the exact quotient.  A proxy that served
    10 requests is still active after five failure reports and inactive
    after the sixth; one that served 4 requests is active after four
    failure reports. *)
Theorem C3_disabled_iff_rate_and_sample
    (pm : t) (proxy : string) (s : ProxyStats)
    (Hin : proxy_stats pm !! proxy = Some s)
    (Hact : active s = true) :
  (exists s',
      proxy_stats (mark_proxy_failed pm proxy) !! proxy = Some s' /\
      failures s' = failures s + 1 /\
      requests s' = requests s /\
      (active s' = false <->
       (1 # 2 < inject_Z (failures s') / inject_Z (requests s'))%Q /\
       5 < requests s')) /\
  (active <$> proxy_stats
     (report_failures 5 (pool_after_requests "p" 10) "p") !! "p"
   = Some true) /\
  (active <$> proxy_stats
     (report_failures 6 (pool_after_requests "p" 10) "p") !! "p"
   = Some false) /\
  (active <$> proxy_stats
     (report_failures 4 (pool_after_requests "p" 4) "p") !! "p"
   = Some true).
Proof.
  split; [|repeat split; vm_compute; reflexivity].
  exists (record_failure s).
  destruct (record_failure_counts s) as [Hf Hr].
  split; [by apply mark_proxy_failed_lookup|].
  split; [exact Hf|]. split; [exact Hr|].
  rewrite record_failure_active, Hact, Hf, Hr. simpl.
  rewrite negb_false_iff, andb_true_iff, Qltb_lt, Z.ltb_lt.
  split.
  - intros [Hq Hn]. split; [|exact Hn].
    rewrite Z.max_r in Hq by lia. exact Hq.
  - intros [Hq Hn]. split; [|exact Hn].
    rewrite Z.max_r by lia. exact Hq.
Qed.

Lemma C3_disabled_iff_rate_and_sample_witness :
  exists s',
    proxy_stats (mark_proxy_failed
                   (report_failures 5 (pool_after_requests "p" 10) "p") "p")
      !! "p" = Some s' /\
    failures s' = 6 /\ requests s' = 10 /\ active s' = false.
Proof.
  destruct (C3_disabled_iff_rate_and_sample
              (report_failures 5 (pool_after_requests "p" 10) "p") "p"
              {| requests := 10; failures := 5; last_used := 0;
                 response_time := 0; active := true |}
              ltac:(vm_compute; reflexivity) ltac:(reflexivity))
    as [[s' (Hl & Hf & Hr & Hiff)] _].
  exists s'. repeat split; try assumption.
  apply Hiff. rewrite Hf, Hr. split; reflexivity.
Defined.

End ProxyHealth.

(** ** Request spacing (utils/rate_limiter.py) *)

Section RateGate.
Import RateLimiter.

Lemma py_max_spec (a b : Q) :
  (a <= py_max a b)%Q /\ (b <= py_max a b)%Q /\
  (py_max a b = a \/ py_max a b = b).
Proof.
  unfold py_max. destruct (Qltb a b) eqn:H.
  - apply Qltb_lt in H. repeat split; [lra | lra | by right].
  - apply Qltb_ge in H. repeat split; [lra | lra | by left].
Qed.

Lemma sleep_time_Some (cfg : ScrapingConfig) (rl : t) (now : Q) :
  (now - last_request_time rl < min_delay cfg)%Q ->
  sleep_time cfg rl now
  = Some (min_delay cfg - (now - last_request_time rl))%Q.
Proof.
  intros H. unfold sleep_time.
  apply Qltb_lt in H. by rewrite H.
Qed.

Lemma sleep_time_None (cfg : ScrapingConfig) (rl : t) (now : Q) :
  (min_delay cfg <= now - last_request_time rl)%Q ->
  sleep_time cfg rl now = None.
Proof.
  intros H. unfold sleep_time.
  apply Qltb_ge in H. by rewrite H.
Qed.

(** The time of the dispatch that a call made at time [now] records. *)
Lemma wait_sync_dispatch (cfg : ScrapingConfig) (rl : t) (w : World) :
  (min_delay cfg
   <= last_request_time (wait_sync cfg rl w).1 - last_request_time rl)%Q /\
  (clock w <= last_request_time (wait_sync cfg rl w).1)%Q.
Proof.
  unfold wait_sync. simpl.
  destruct (Qlt_le_dec (clock w - last_request_time rl) (min_delay cfg))
    as [Hlt|Hge].
  - rewrite (sleep_time_Some _ _ _ Hlt). simpl. split; lra.
  - rewrite (sleep_time_None _ _ _ Hge). split; lra.
Qed.

(** C4 (as the code has it). The delay that [wait_sync] enforces is the
    configured [base_delay], raised to the configured [crawl_delay] when
    that is set and not zero; it is not clamped at zero and the robots
    crawl-delay of the host is not an input.  A call sleeps for that delay
    minus the time since the last dispatch when this is positive and
    returns at once otherwise; it records the time after the sleep as the
    new dispatch time.  Two consecutive dispatches are therefore at least
    that delay apart. *)
Theorem C4_wait_is_configured_delay
    (cfg : ScrapingConfig) (rl : t) (w : World) :
  let elapsed := (clock w - last_request_time rl)%Q in
  let rl' := (wait_sync cfg rl w).1 in
  let w' := (wait_sync cfg rl w).2 in
  min_delay cfg =
    match crawl_delay cfg with
    | Some d => if Qeq_bool d 0 then base_delay cfg
                else py_max (base_delay cfg) d
    | None => base_delay cfg
    end /\
  (((elapsed < min_delay cfg)%Q /\ w' = sleep (min_delay cfg - elapsed) w) \/
   ((min_delay cfg <= elapsed)%Q /\ w' = w)) /\
  last_request_time rl' = clock w' /\
  request_count rl' = request_count rl + 1 /\
  (min_delay cfg <= last_request_time rl' - last_request_time rl)%Q /\
  (forall w2 : World,
      (min_delay cfg
       <= last_request_time (wait_sync cfg rl' w2).1 - last_request_time rl')%Q).
Proof.
  cbv zeta. split; [reflexivity|].
  split.
  { unfold wait_sync. simpl.
    destruct (Qlt_le_dec (clock w - last_request_time rl) (min_delay cfg))
      as [Hlt|Hge].
    - left. split; [exact Hlt|]. by rewrite (sleep_time_Some _ _ _ Hlt).
    - right. split; [exact Hge|]. by rewrite (sleep_time_None _ _ _ Hge). }
  split; [reflexivity|]. split; [reflexivity|].
  split; [apply wait_sync_dispatch|].
  intros w2. apply wait_sync_dispatch.
Qed.

(** C4 at a concrete call: base delay 1, last dispatch at 100, called at
    time 100.25: the call sleeps 0.75. *)
Lemma C4_wait_is_configured_delay_witness :
  (wait_sync DEFAULT_CONFIG
     {| last_request_time := 100; request_count := 1 |}
     {| clock := 100 + (1 # 4); trace := [] |}).2
  = sleep (1 - (100 + (1 # 4) - 100))
      {| clock := 100 + (1 # 4); trace := [] |}.
Proof.
  destruct (C4_wait_is_configured_delay DEFAULT_CONFIG
              {| last_request_time := 100; request_count := 1 |}
              {| clock := 100 + (1 # 4); trace := [] |})
    as (_ & [[_ H] | [H _]] & _).
  - exact H.
  - exfalso. revert H. vm_compute. intros H. apply H. reflexivity.
Defined.

(** C4 fails as stated.  The host's robots.txt asks for 10 seconds
    between requests and the base delay is 1.  Two requests to the same
    URL in a row (each draws its user agent before it is sent): the
    second one sleeps 1 second, not 10, and the two dispatches are
    1 second apart. *)
Lemma C4_robots_delay_not_enforced :
  let E := Fixture.env_slow_host in
  let url := "https://example.com/a" in
  let s0 := BaseScraper.init DEFAULT_CONFIG in
  let '(_, s1, w1) :=
    BaseScraper._make_request_sync E s0 Fixture.world0 url in
  let '(_, s2, w2) := BaseScraper._make_request_sync E s1 w1 url in
  (BaseScraper._get_crawl_delay E s2 w2 url).1.1 = Some 10%Q /\
  trace w2 = [ EvRobotsRead "https://example.com/robots.txt";
               EvRandom; EvRequest url None;
               EvSleep 1; EvRandom; EvRequest url None ] /\
  (last_request_time (BaseScraper.rate_limiter s2)
   - last_request_time (BaseScraper.rate_limiter s1) == 1)%Q /\
  ~ (py_max 1 10
     <= last_request_time (BaseScraper.rate_limiter s2)
        - last_request_time (BaseScraper.rate_limiter s1))%Q.
Proof.
  vm_compute. repeat split; try reflexivity.
  intros H. apply H. reflexivity.
Qed.

End RateGate.

(** ** The robots gate and the request function (core/base_scraper.py) *)

Section RequestFunction.
Import BaseScraper.
Variable E : Env.

Lemma count_events_app (f : Event -> bool) (l1 l2 : list Event) :
  count_events f (l1 ++ l2) = (count_events f l1 + count_events f l2)%nat.
Proof. induction l1 as [|e l1 IH]; simpl; [reflexivity|]. rewrite IH. lia. Qed.

(** Preparing the headers adds at most the draw of a user agent to the
    trace and leaves the clock alone. *)
Lemma prepare_headers_world (s : t)
    (custom : option (list (string * string))) (w : World) :
  (_prepare_headers E s custom w).2 = w \/
  (_prepare_headers E s custom w).2 = log EvRandom w.
Proof.
  unfold _prepare_headers.
  destruct (negb (dict_has "User-Agent" (default_headers (config s))));
    [|by left].
  destruct (user_agents (config s)); by right.
Qed.

Lemma prepare_headers_count (f : Event -> bool) (s : t)
    (custom : option (list (string * string))) (w : World) :
  f EvRandom = false ->
  count_events f (trace (_prepare_headers E s custom w).2)
  = count_events f (trace w).
Proof.
  intros Hf.
  destruct (prepare_headers_world s custom w) as [-> | ->]; [reflexivity|].
  simpl. rewrite count_events_app. simpl. rewrite Hf. lia.
Qed.

Lemma robots_only_refl (s : t) (w : World) : robots_only s w s w.
Proof. unfold robots_only. repeat split; auto. Qed.

Lemma get_robots_parser_robots_only (s : t) (w : World) (url : string) :
  robots_only s w (_get_robots_parser E s w url).1.2
    (_get_robots_parser E s w url).2.
Proof.
  unfold _get_robots_parser.
  destruct (negb (respect_robots_txt (config s))); [apply robots_only_refl|].
  destruct (robots_cache s !! url_domain E url) eqn:Hc;
    [apply robots_only_refl|].
  unfold robots_only. simpl. repeat split; auto.
  - right. eauto.
  - intros d x Hd. rewrite lookup_insert_ne; [exact Hd|].
    intros Heq. rewrite Heq in Hc. congruence.
Qed.

Lemma can_fetch_robots_only (s : t) (w : World) (url : string) :
  robots_only s w (_can_fetch E s w url).1.2 (_can_fetch E s w url).2.
Proof.
  unfold _can_fetch.
  pose proof (get_robots_parser_robots_only s w url) as H.
  destruct (_get_robots_parser E s w url) as [[rp s1] w1].
  destruct rp; exact H.
Qed.

(** C8. When the robots check denies the URL, the request function
    returns [None]; the rate limiter (last dispatch time and request
    count), the proxy pool and the request statistics are unchanged,
    and the only thing that may have been added to the trace is the
    read of robots.txt: no page request and no sleep. *)
Theorem C8_denied_request_touches_nothing
    (s : t) (w : World) (url : string)
    (Hdeny : (_can_fetch E s w url).1.1 = false) :
  let '(r, s', w') := _make_request_sync E s w url in
  r = Ok None /\
  rate_limiter s' = rate_limiter s /\
  proxy_manager s' = proxy_manager s /\
  stats s' = stats s /\
  count_events is_request (trace w') = count_events is_request (trace w) /\
  count_events is_sleep (trace w') = count_events is_sleep (trace w) /\
  clock w' = (_can_fetch E s w url).2.(clock).
Proof.
  unfold _make_request_sync.
  pose proof (can_fetch_robots_only s w url) as H.
  destruct (_can_fetch E s w url) as [[allowed s1] w1].
  simpl in Hdeny, H. subst allowed. simpl.
  destruct H as (_ & Hrl & Hpm & Hst & Htr & _).
  repeat split; auto.
  - destruct Htr as [-> | [u ->]]; [reflexivity|].
    rewrite count_events_app. simpl. lia.
  - destruct Htr as [-> | [u ->]]; [reflexivity|].
    rewrite count_events_app. simpl. lia.
Qed.

Lemma send_request_frame (s : t) (w : World) (url : string)
    (proxies : option string) :
  let '(r, s', w') := send_request E s w url proxies in
  config s' = config s /\ rate_limiter s' = rate_limiter s /\
  proxy_manager s' = proxy_manager s /\ robots_cache s' = robots_cache s /\
  requests_made (stats s') = requests_made (stats s) + 1 /\
  trace w' = trace w ++ [EvRequest url proxies].
Proof.
  unfold send_request.
  destruct (session_request E w url proxies) as [resp|msg];
    [destruct (status_code resp =? 200)|]; simpl; repeat split; reflexivity.
Qed.

Lemma make_request_sync_cache (s : t) (w : World) (url : string) :
  robots_cache (_make_request_sync E s w url).1.2
  = robots_cache (_can_fetch E s w url).1.2.
Proof.
  unfold _make_request_sync.
  destruct (_can_fetch E s w url) as [[allowed s1] w1]. simpl.
  destruct allowed; simpl; [|reflexivity].
  destruct (_prepare_headers E _ None _) as [hd w2].
  destruct (proxy_manager s1) as [pm|]; simpl.
  - destruct (ProxyManager.get_proxy E (config s1) pm _) as [[got pm'] w3].
    destruct got as [proxy|e]; simpl; [|reflexivity].
    match goal with
    | |- context [send_request E ?a ?b ?c ?d] =>
        pose proof (send_request_frame a b c d) as H;
        destruct (send_request E a b c d) as [[r s4] w4]
    end.
    simpl. destruct H as (_ & _ & _ & -> & _). reflexivity.
  - match goal with
    | |- context [send_request E ?a ?b ?c ?d] =>
        pose proof (send_request_frame a b c d) as H;
        destruct (send_request E a b c d) as [[r s4] w4]
    end.
    simpl. destruct H as (_ & _ & _ & -> & _). reflexivity.
Qed.

Lemma make_request_sync_keeps_cached (s : t) (w : World) (url d : string)
    (x : option RobotFileParser) :
  robots_cache s !! d = Some x ->
  robots_cache (_make_request_sync E s w url).1.2 !! d = Some x /\
  config (_make_request_sync E s w url).1.2 = config s.
Proof.
  intros H. rewrite make_request_sync_cache.
  destruct (can_fetch_robots_only s w url) as (Hcfg & _ & _ & _ & _ & Hmono).
  split; [by apply Hmono|].
  unfold _make_request_sync.
  destruct (_can_fetch E s w url) as [[allowed s1] w1]. simpl in *.
  destruct allowed; simpl; [|exact Hcfg].
  destruct (_prepare_headers E _ None _) as [hd w2].
  destruct (proxy_manager s1) as [pm|]; simpl.
  - destruct (ProxyManager.get_proxy E (config s1) pm _) as [[got pm'] w3].
    destruct got as [proxy|e]; simpl; [|exact Hcfg].
    match goal with
    | |- context [send_request E ?a ?b ?c ?d] =>
        pose proof (send_request_frame a b c d) as H';
        destruct (send_request E a b c d) as [[r s4] w4]
    end.
    simpl. destruct H' as (-> & _). exact Hcfg.
  - match goal with
    | |- context [send_request E ?a ?b ?c ?d] =>
        pose proof (send_request_frame a b c d) as H';
        destruct (send_request E a b c d) as [[r s4] w4]
    end.
    simpl. destruct H' as (-> & _). exact Hcfg.
Qed.

Lemma run_requests_keeps_cached (urls : list string) (s : t) (w : World)
    (d : string) (x : option RobotFileParser) :
  robots_cache s !! d = Some x ->
  robots_cache (run_requests E s w urls).1 !! d = Some x /\
  config (run_requests E s w urls).1 = config s.
Proof.
  revert s w. induction urls as [|u urls IH]; intros s w H; simpl; [auto|].
  destruct (make_request_sync_keeps_cached s w u d x H) as [H1 H2].
  destruct (_make_request_sync E s w u) as [[r s1] w1]. simpl in *.
  destruct (IH s1 w1 H1) as [H3 H4]. split; [exact H3|]. congruence.
Qed.

Lemma get_proxy_same_health (cfg : ScrapingConfig) (pm : ProxyManager.t)
    (w : World) :
  same_health pm (ProxyManager.get_proxy E cfg pm w).1.2.
Proof.
  assert (Hrefl : same_health pm pm).
  { intros p st Hp. exists st. repeat split; auto; lia. }
  unfold ProxyManager.get_proxy.
  destruct (ProxyManager.proxies pm) as [|p0 ps]; [exact Hrefl|].
  destruct (ProxyManager.active_proxies _ _) as [[|a act]|e];
    [exact Hrefl| |exact Hrefl].
  assert (Hupd : forall (l : list string) (q : string) (idx : nat)
                        (w1 : World),
    same_health pm
      (match ProxyManager.proxy_stats pm !! q with
       | None => (Raise (KeyError q), pm, w1)
       | Some s0 =>
           (Ok (Some q),
            {| ProxyManager.proxies := l;
               ProxyManager.current_proxy_index := idx;
               ProxyManager.proxy_stats :=
                 <[q := {| ProxyManager.requests := ProxyManager.requests s0 + 1;
                           ProxyManager.failures := ProxyManager.failures s0;
                           ProxyManager.last_used := clock w1;
                           ProxyManager.response_time :=
                             ProxyManager.response_time s0;
                           ProxyManager.active := ProxyManager.active s0 |}]>
                   (ProxyManager.proxy_stats pm) |}, w1)
       end).1.2).
  { intros l q idx w1.
    destruct (ProxyManager.proxy_stats pm !! q) as [sq|] eqn:Hq;
      [|exact Hrefl].
    unfold same_health. simpl. intros p st Hp.
    destruct (decide (q = p)) as [<-|Hne].
    - rewrite lookup_insert_eq. eexists. split; [reflexivity|].
      simpl. assert (sq = st) by congruence. subst. repeat split; lia.
    - rewrite lookup_insert_ne by exact Hne. exists st.
      repeat split; auto; lia. }
  destruct (proxy_rotation cfg); apply Hupd.
Qed.

Lemma send_request_ok (s : t) (w : World) (url : string)
    (proxies : option string) :
  forall resp, (send_request E s w url proxies).1.1 = Some resp ->
               status_code resp = 200.
Proof.
  intros resp. unfold send_request.
  destruct (session_request E w url proxies) as [r|msg]; simpl;
    [|discriminate].
  destruct (status_code r =? 200) eqn:Hs; simpl; [|discriminate].
  intros [= <-]. lia.
Qed.

Lemma wait_sync_requests (cfg : ScrapingConfig) (rl : RateLimiter.t)
    (w : World) :
  count_events is_request (trace (RateLimiter.wait_sync cfg rl w).2)
  = count_events is_request (trace w).
Proof.
  unfold RateLimiter.wait_sync. simpl.
  destruct (RateLimiter.sleep_time cfg rl (clock w)); simpl; [|reflexivity].
  rewrite count_events_app. simpl. lia.
Qed.

Lemma get_proxy_requests (cfg : ScrapingConfig) (pm : ProxyManager.t)
    (w : World) :
  count_events is_request (trace (ProxyManager.get_proxy E cfg pm w).2)
  = count_events is_request (trace w).
Proof.
  unfold ProxyManager.get_proxy.
  destruct (ProxyManager.proxies pm) as [|p0 ps]; [reflexivity|].
  destruct (ProxyManager.active_proxies _ _) as [[|a act]|e];
    [reflexivity| |reflexivity].
  destruct (proxy_rotation cfg);
    match goal with
    | |- context [ProxyManager.proxy_stats pm !! ?q] =>
        destruct (ProxyManager.proxy_stats pm !! q)
    end; simpl; try reflexivity;
    rewrite count_events_app; simpl; lia.
Qed.

(** C5 (as the code has it). The request function never reports to the
    proxy pool.  Whatever the attempt ends in (a transport error, a 200
    response, any other status), every pool entry keeps its failure
    count, its response time and its active flag; only the request
    count and the time of last use of the drawn proxy move, when the
    proxy is drawn. *)
Theorem C5_request_reports_nothing_to_pool
    (s : t) (w : World) (url : string) (pm : ProxyManager.t)
    (Hpm : proxy_manager s = Some pm) :
  let '(r, s', w') := _make_request_sync E s w url in
  exists pm', proxy_manager s' = Some pm' /\ same_health pm pm'.
Proof.
  assert (Hrefl : same_health pm pm).
  { intros p st Hp. exists st. repeat split; auto; lia. }
  unfold _make_request_sync.
  destruct (can_fetch_robots_only s w url) as (_ & _ & Hp1 & _).
  destruct (_can_fetch E s w url) as [[allowed s1] w1]. simpl in Hp1.
  rewrite Hpm in Hp1.
  destruct allowed; simpl; [|eauto].
  rewrite Hp1.
  destruct (_prepare_headers E _ None _) as [hd w2].
  pose proof (get_proxy_same_health (config s1) pm w2) as Hh.
  destruct (ProxyManager.get_proxy E (config s1) pm _) as [[got pm'] w3].
  simpl in Hh.
  destruct got as [proxy|e]; simpl; [|eauto].
  match goal with
  | |- context [send_request E ?a ?b ?c ?d] =>
      pose proof (send_request_frame a b c d) as H';
      destruct (send_request E a b c d) as [[r s4] w4]
  end.
  destruct H' as (_ & _ & -> & _). simpl. eauto.
Qed.




End RequestFunction.

(** C8 at a host whose robots.txt disallows everything, with a proxy
    pool configured. *)
Lemma C8_denied_request_touches_nothing_witness :
  let E := Fixture.env (Some Fixture.robots_deny) Fixture.site_ok in
  let s := Fixture.scraper_with_proxy in
  let '(r, s', w') :=
    BaseScraper._make_request_sync E s Fixture.world0 "https://example.com/a" in
  r = Ok None /\
  BaseScraper.rate_limiter s' = BaseScraper.rate_limiter s /\
  BaseScraper.proxy_manager s' = BaseScraper.proxy_manager s /\
  BaseScraper.stats s' = BaseScraper.stats s /\
  count_events is_request (trace w') = O /\
  count_events is_sleep (trace w') = O /\
  clock w' = (BaseScraper._can_fetch E s Fixture.world0
                "https://example.com/a").2.(clock).
Proof.
  exact (C8_denied_request_touches_nothing
           (Fixture.env (Some Fixture.robots_deny) Fixture.site_ok)
           Fixture.scraper_with_proxy Fixture.world0 "https://example.com/a"
           eq_refl).
Defined.


(** C6 fails as stated.  The host answers the request for robots.txt
    with HTTP 403: the fetch has failed, but [rp.read()] does not raise,
    it leaves a parser that disallows everything.  That parser is cached,
    not the permissive [None]: the URL is denied, a later request for
    another URL of the host returns [None] without being sent, and a
    third URL is denied from the cache. *)
Lemma C6_http_error_is_cached_restrictive :
  let E := Fixture.env Fixture.robots_forbidden Fixture.site_ok in
  let '(allowed, s1, w1) :=
    BaseScraper._can_fetch E (BaseScraper.init DEFAULT_CONFIG) Fixture.world0
      "https://example.com/a" in
  let '(r, s2, w2) :=
    BaseScraper._make_request_sync E s1 w1 "https://example.com/b" in
  allowed = false /\
  BaseScraper.robots_cache s1 !! url_domain E "https://example.com/a"
    = Some (Some Fixture.robots_deny) /\
  r = Ok None /\
  count_events is_request (trace w2) = O /\
  BaseScraper._can_fetch E s2 w2 "https://example.com/c" = (false, s2, w2).
Proof.
  vm_compute. repeat split; reflexivity.
Qed.

(** C5 at a pool of one proxy whose transport fails. *)
Lemma C5_request_reports_nothing_to_pool_witness :
  let E := Fixture.env (Some (Fixture.robots_allow None)) Fixture.site_down in
  let '(r, s', w') :=
    BaseScraper._make_request_sync E Fixture.scraper_with_proxy Fixture.world0
      "https://example.com/a" in
  exists pm',
    BaseScraper.proxy_manager s' = Some pm' /\
    same_health (ProxyManager.init Fixture.config_with_proxy) pm'.
Proof.
  exact (C5_request_reports_nothing_to_pool
           (Fixture.env (Some (Fixture.robots_allow None)) Fixture.site_down)
           Fixture.scraper_with_proxy Fixture.world0 "https://example.com/a"
           (ProxyManager.init Fixture.config_with_proxy) eq_refl).
Defined.

(** C5 fails as stated.  A request goes out through the one proxy of the
    pool and the transport fails: the entry of the proxy has counted the
    request but no failure, so it is not what [mark_proxy_failed] would
    have left.  On a host that answers 200 after half a second, the
    response time of the entry stays 0. *)
Lemma C5_transport_error_not_reported :
  let url := "https://example.com/a" in
  let proxy := "http://proxy1:8080" in
  let robots := Some (Fixture.robots_allow None) in
  let E_down := Fixture.with_latency (1 # 2) (Fixture.env robots Fixture.site_down) in
  let E_up := Fixture.with_latency (1 # 2) (Fixture.env robots Fixture.site_ok) in
  let '(r1, s1, w1) :=
    BaseScraper._make_request_sync E_down Fixture.scraper_with_proxy
      Fixture.world0 url in
  let '(r2, s2, w2) :=
    BaseScraper._make_request_sync E_up Fixture.scraper_with_proxy
      Fixture.world0 url in
  r1 = Ok None /\
  count_events is_request (trace w1) = 1%nat /\
  In (EvRequest url (Some proxy)) (trace w1) /\
  ProxyManager.failures <$> proxy_entry s1 proxy = Some 0 /\
  ProxyManager.requests <$> proxy_entry s1 proxy = Some 1 /\
  BaseScraper.proxy_manager s1
    <> (fun pm => ProxyManager.mark_proxy_failed pm proxy)
         <$> BaseScraper.proxy_manager s1 /\
  (exists resp, r2 = Ok (Some resp)) /\
  In (EvRequest url (Some proxy)) (trace w2) /\
  (clock w2 == 101)%Q /\
  ProxyManager.response_time <$> proxy_entry s2 proxy = Some 0%Q.
Proof.
  vm_compute. repeat split; try reflexivity; eauto 10.
  intros H. discriminate H.
Qed.


(** ** Fingerprints and duplicate detection (utils/data_processor.py) *)

Section JsonInduction.
Variable P : json -> Prop.
Hypothesis Hnull : P JNull.
Hypothesis Hbool : forall b, P (JBool b).
Hypothesis Hint : forall n, P (JInt n).
Hypothesis Hstr : forall s, P (JStr s).
Hypothesis Hlist : forall l, Forall P l -> P (JList l).
Hypothesis Hdict : forall d, Forall (fun kv => P kv.2) d -> P (JDict d).

(** Induction on a value, with the hypothesis for every item of a list
    and every value of a dict. *)
Fixpoint json_nested_ind (v : json) : P v :=
  match v with
  | JNull => Hnull
  | JBool b => Hbool b
  | JInt n => Hint n
  | JStr s => Hstr s
  | JList l =>
      Hlist l
        ((fix go (l : list json) : Forall P l :=
            match l with
            | [] => @List.Forall_nil _ P
            | x :: l' => @List.Forall_cons _ P x l' (json_nested_ind x) (go l')
            end) l)
  | JDict d =>
      Hdict d
        ((fix go (d : list (string * json))
            : Forall (fun kv => P kv.2) d :=
            match d with
            | [] => List.Forall_nil _
            | kv :: d' =>
                @List.Forall_cons _ (fun kv => P kv.2) kv d'
                  (json_nested_ind kv.2) (go d')
            end) d)
  end.
End JsonInduction.

(** ** Reading a serialisation back *)

Section Text.

Lemma sapp_cons (x : ascii) (a b : string) :
  String x a +:+ b = String x (a +:+ b).
Proof. reflexivity. Qed.

Lemma sapp_assoc (a b c : string) : (a +:+ b) +:+ c = a +:+ (b +:+ c).
Proof.
  induction a as [|x a IH]; [reflexivity|]. rewrite !sapp_cons. by rewrite IH.
Qed.

Lemma sapp_nil_l (a : string) : "" +:+ a = a.
Proof. reflexivity. Qed.

Lemma num_not_stop (c : ascii) :
  num_char c = true -> stop_char c = true -> False.
Proof. destruct c as [[] [] [] [] [] [] [] []]; vm_compute; congruence. Qed.

Lemma num_prefix_unique (s1 : string) :
  forall s2 r1 r2,
    all_num s1 -> all_num s2 -> stops r1 -> stops r2 ->
    s1 +:+ r1 = s2 +:+ r2 -> s1 = s2 /\ r1 = r2.
Proof.
  induction s1 as [|c1 s1 IH]; intros [|c2 s2] r1 r2 H1 H2 Hr1 Hr2;
    rewrite ?sapp_cons, ?sapp_nil_l; intros Heq.
  - auto.
  - subst r1. destruct H2 as [Hn _]. destruct (num_not_stop c2 Hn Hr1).
  - subst r2. destruct H1 as [Hn _]. destruct (num_not_stop c1 Hn Hr2).
  - injection Heq as -> Heq. destruct H1 as [_ H1], H2 as [_ H2].
    destruct (IH s2 r1 r2 H1 H2 Hr1 Hr2 Heq) as [-> ->]. auto.
Qed.

Lemma pretty_N_char_num (x : N) : num_char (pretty_N_char x) = true.
Proof. unfold pretty_N_char. by repeat case_match. Qed.

Lemma pretty_N_go_spec (x : N) :
  forall s, all_num s ->
            all_num (pretty_N_go x s) /\ (s <> "" -> pretty_N_go x s <> "").
Proof.
  induction (N.lt_wf_0 x) as [x _ IH]. intros s Hs.
  assert (x = 0 \/ 0 < x)%N as [->|Hx] by lia.
  - rewrite pretty_N_go_0. auto.
  - rewrite pretty_N_go_step by done.
    destruct (IH (x `div` 10)%N (N.div_lt x 10 Hx eq_refl)
                (String (pretty_N_char (x `mod` 10)) s)) as [H1 H2].
    { split; [apply pretty_N_char_num|exact Hs]. }
    split; [exact H1|]. intros _. by apply H2.
Qed.

Lemma pretty_N_spec (x : N) :
  all_num (pretty x) /\ pretty x <> "".
Proof.
  unfold pretty, pretty_N. case_decide as Hx.
  - split; [by split|discriminate].
  - assert (0 < x)%N as Hpos by lia.
    rewrite pretty_N_go_step by done.
    destruct (pretty_N_go_spec (x `div` 10)%N
                (String (pretty_N_char (x `mod` 10)) ""))
      as [H1 H2].
    { split; [apply pretty_N_char_num|exact I]. }
    split; [exact H1|]. by apply H2.
Qed.

Lemma pretty_Z_spec (n : Z) :
  all_num (pretty n) /\ pretty n <> "".
Proof.
  destruct n as [|p|p]; unfold pretty, pretty_Z.
  - split; [by split|discriminate].
  - apply (pretty_N_spec (N.pos p)).
  - rewrite sapp_cons, sapp_nil_l. split; [|discriminate].
    split; [reflexivity|]. apply (pretty_N_spec (N.pos p)).
Qed.

End Text.

Section Heads.
Import DataProcessor.
Variable E : Env.
Hypothesis Hquote : quote_ok E.

Lemma dumps_list_eq (l : list json) :
  dumps E (JList l) = String "[" (join ", " (dumps E <$> l) +:+ "]").
Proof. reflexivity. Qed.

Lemma dumps_dict_eq (d : list (string * json)) :
  dumps E (JDict d)
  = String "{"
      (join ", "
         (dumps_item E <$>
            merge_sort key_le ((fun kv => (kv.1, dumps E kv.2)) <$> d))
       +:+ "}").
Proof. reflexivity. Qed.

Lemma dumps_head (v : json) :
  exists c rest, dumps E v = String c rest /\ head_ok v c.
Proof.
  destruct v as [|[]|n|s|l|d].
  - by eexists _, _.
  - by eexists _, _.
  - by eexists _, _.
  - destruct (pretty_Z_spec n) as [Hn Hne]. simpl.
    destruct (pretty n) as [|c rest]; [done|].
    exists c, rest. split; [reflexivity|]. apply Hn.
  - destruct (proj1 Hquote s) as [body Hb]. simpl. rewrite Hb.
    by eexists _, _.
  - rewrite dumps_list_eq. by eexists _, _.
  - rewrite dumps_dict_eq. by eexists _, _.
Qed.

Lemma head_ok_kind (a b : json) (c : ascii) :
  head_ok a c -> head_ok b c -> kind a = kind b.
Proof.
  destruct a as [|[]|?|?|?|?], b as [|[]|?|?|?|?]; simpl;
    intros Ha Hb; subst; try reflexivity; try discriminate;
    try (revert Ha; vm_compute; congruence);
    try (revert Hb; vm_compute; congruence).
Qed.

Lemma head_ok_not_stop (v : json) (c : ascii) :
  head_ok v c -> stop_char c = false.
Proof.
  destruct v as [|[]|?|?|?|?]; simpl; intros H; subst; try reflexivity.
  destruct (stop_char c) eqn:Hs; [|reflexivity].
  destruct (num_not_stop c H Hs).
Qed.

Lemma decode_kind (a b : json) (r1 r2 : string) :
  dumps E a +:+ r1 = dumps E b +:+ r2 -> kind a = kind b.
Proof.
  destruct (dumps_head a) as (c1 & t1 & -> & H1).
  destruct (dumps_head b) as (c2 & t2 & -> & H2).
  rewrite !sapp_cons. intros [= -> _]. by eapply head_ok_kind.
Qed.

(** A value at the head of a text is not a closing bracket. *)
Lemma decode_not_stop (a : json) (r1 r2 : string) (c : ascii) :
  stop_char c = true ->
  dumps E a +:+ r1 = String c r2 -> False.
Proof.
  intros Hc. destruct (dumps_head a) as (c1 & t1 & -> & H1).
  rewrite sapp_cons. intros [= -> _].
  apply head_ok_not_stop in H1. congruence.
Qed.

Lemma join_prefix (sep p x : string) (l : list string) :
  foldl (fun acc y => acc +:+ sep +:+ y) (p +:+ x) l
  = p +:+ foldl (fun acc y => acc +:+ sep +:+ y) x l.
Proof.
  revert x. induction l as [|y l IH]; intros x; simpl; [reflexivity|].
  rewrite <- IH. by rewrite sapp_assoc.
Qed.

Lemma join_cons (sep x y : string) (l : list string) :
  join sep (x :: y :: l) = x +:+ sep +:+ join sep (y :: l).
Proof.
  unfold join. simpl. by rewrite !join_prefix.
Qed.

Lemma sapp_nil_r (a : string) : a +:+ "" = a.
Proof. induction a as [|x a IH]; [reflexivity|]. by rewrite sapp_cons, IH. Qed.

Lemma join_nil : join ", " [] = "".
Proof. reflexivity. Qed.

Lemma join_cons_tail (x : string) (l : list string) :
  join ", " (x :: l) = x +:+ tail_text l.
Proof.
  destruct l as [|y l]; [by rewrite sapp_nil_r|]. apply join_cons.
Qed.

Lemma tail_text_stops (l : list string) (c : ascii) (r : string) :
  stop_char c = true -> stops (tail_text l +:+ String c r).
Proof.
  intros Hc. destruct l as [|y l]; unfold tail_text.
  - rewrite sapp_nil_l. exact Hc.
  - rewrite !sapp_cons. reflexivity.
Qed.

Lemma decode_items (l : list json) :
  Forall (decodes E) l ->
  forall l' r1 r2,
    Forall canonical l' ->
    join ", " (dumps E <$> l) +:+ String "]" r1
    = join ", " (dumps E <$> l') +:+ String "]" r2 ->
    Forall2 json_equiv l l' /\ r1 = r2.
Proof.
  induction l as [|x l IH]; intros Hdec [|x' l'] r1 r2 Hcan;
    rewrite ?fmap_nil, ?fmap_cons, ?join_nil, ?join_cons_tail,
      ?sapp_assoc, ?sapp_nil_l; intros Heq.
  - injection Heq as ->. auto.
  - exfalso. symmetry in Heq. by eapply (decode_not_stop x' _ _ "]").
  - exfalso. by eapply (decode_not_stop x _ _ "]").
  - apply Forall_cons_1 in Hdec as [Hx Hl].
    apply Forall_cons_1 in Hcan as [Hcx Hcl].
    destruct (Hx x' _ _ Hcx (tail_text_stops _ "]" r1 eq_refl)
                (tail_text_stops _ "]" r2 eq_refl) Heq) as [He Hr].
    assert (Forall2 json_equiv l l' /\ r1 = r2) as [H2 ->].
    { destruct l as [|y l], l' as [|y' l'].
      - unfold tail_text in Hr. simpl in Hr. rewrite !sapp_nil_l in Hr.
        injection Hr as ->. auto.
      - unfold tail_text in Hr. rewrite fmap_nil, fmap_cons in Hr.
        rewrite sapp_nil_l, !sapp_cons in Hr. discriminate Hr.
      - unfold tail_text in Hr. rewrite fmap_nil, fmap_cons in Hr.
        rewrite sapp_nil_l, !sapp_cons in Hr. discriminate Hr.
      - apply (IH Hl (y' :: l') r1 r2 Hcl).
        unfold tail_text in Hr. rewrite !fmap_cons in Hr.
        rewrite !sapp_cons, !sapp_nil_l in Hr. by injection Hr. }
    split; [|reflexivity]. by constructor.
Qed.

End Heads.

Section Decode.
Import DataProcessor.
Variable E : Env.
Hypothesis Hquote : quote_ok E.

#[local] Abbreviation render := (fun kv : string * json => (kv.1, dumps E kv.2)).

Lemma fmap_map {A B} (f : A -> B) (l : list A) : f <$> l = map f l.
Proof. induction l as [|x l IH]; [reflexivity|]. csimpl. by rewrite IH. Qed.

Lemma item_not_stop (kv : string * string) (r1 r2 : string) (c : ascii) :
  stop_char c = true ->
  dumps_item E kv +:+ r1 = String c r2 -> False.
Proof.
  intros Hc. unfold dumps_item.
  destruct (proj1 Hquote kv.1) as [body ->].
  rewrite !sapp_cons. intros [= <- _]. discriminate Hc.
Qed.

Lemma decode_dict_items (d : list (string * json)) :
  Forall (fun kv => decodes E kv.2) d ->
  forall d' r1 r2,
    Forall (fun kv => canonical kv.2) d' ->
    join ", " (dumps_item E <$> (render <$> d)) +:+ String "}" r1
    = join ", " (dumps_item E <$> (render <$> d')) +:+ String "}" r2 ->
    Forall2 (fun a b : string * json => a.1 = b.1 /\ json_equiv a.2 b.2) d d'
    /\ r1 = r2.
Proof.
  induction d as [|[k v] d IH]; intros Hdec [|[k' v'] d'] r1 r2 Hcan;
    rewrite ?fmap_nil, ?fmap_cons, ?join_nil, ?join_cons_tail,
      ?sapp_assoc, ?sapp_nil_l; intros Heq.
  - injection Heq as ->. auto.
  - exfalso. symmetry in Heq. by eapply (item_not_stop _ _ _ "}").
  - exfalso. by eapply (item_not_stop _ _ _ "}").
  - apply Forall_cons_1 in Hdec as [Hx Hl].
    apply Forall_cons_1 in Hcan as [Hcx Hcl].
    unfold dumps_item in Heq. cbn [fst snd] in Heq, Hx, Hcx.
    rewrite !sapp_assoc in Heq.
    pose proof (proj2 Hquote _ _ _ _ Heq) as Hk. subst k'.
    apply (inj (String.app _)) in Heq.
    rewrite !sapp_cons, !sapp_nil_l in Heq. injection Heq as Heq.
    destruct (Hx v' _ _ Hcx (tail_text_stops _ "}" r1 eq_refl)
                (tail_text_stops _ "}" r2 eq_refl) Heq) as [He Hr].
    assert (Forall2 (fun a b : string * json =>
                       a.1 = b.1 /\ json_equiv a.2 b.2) d d' /\ r1 = r2)
      as [H2 ->].
    { destruct d as [|y d], d' as [|y' d'].
      - unfold tail_text in Hr. simpl in Hr. rewrite !sapp_nil_l in Hr.
        injection Hr as ->. auto.
      - unfold tail_text in Hr. rewrite !fmap_nil, !fmap_cons in Hr.
        rewrite sapp_nil_l, !sapp_cons in Hr. discriminate Hr.
      - unfold tail_text in Hr. rewrite !fmap_nil, !fmap_cons in Hr.
        rewrite sapp_nil_l, !sapp_cons in Hr. discriminate Hr.
      - apply (IH Hl (y' :: d') r1 r2 Hcl).
        unfold tail_text in Hr. rewrite !fmap_cons in Hr.
        rewrite !sapp_cons, !sapp_nil_l in Hr.
        rewrite !fmap_cons. by injection Hr. }
    split; [|reflexivity]. constructor; [by split|exact H2].
Qed.

(** The items of a dict in the order in which they are written. *)
Lemma sorted_items (d : list (string * json)) :
  exists d', d ≡ₚ d' /\
             merge_sort key_le (render <$> d) = render <$> d'.
Proof.
  pose proof (merge_sort_Permutation key_le (render <$> d)) as Hp.
  rewrite fmap_map in Hp.
  destruct (Permutation_map_inv _ _ Hp) as (d' & Heq & Hperm).
  exists d'. split; [exact Hperm|]. by rewrite fmap_map.
Qed.

(** The text of a canonical value, followed by a closing bracket, a comma
    or nothing, can be read back in one way only. *)
Lemma dumps_decode (a : json) : canonical a -> decodes E a.
Proof.
  induction a as [|b0|n|s|l IH|d IH] using json_nested_ind;
    intros Hca b r1 r2 Hcb Hr1 Hr2 Heq;
    pose proof (decode_kind E Hquote _ _ _ _ Heq) as Hk;
    destruct b as [|b1|n'|s'|l'|d']; try (destruct b0); try (destruct b1);
    try discriminate Hk; clear Hk.
  - simpl in Heq. apply (inj (String.app _)) in Heq. split; [constructor|done].
  - simpl in Heq. apply (inj (String.app _)) in Heq. split; [constructor|done].
  - simpl in Heq. apply (inj (String.app _)) in Heq. split; [constructor|done].
  - simpl in Heq.
    destruct (num_prefix_unique _ _ _ _ (proj1 (pretty_Z_spec n))
                (proj1 (pretty_Z_spec n')) Hr1 Hr2 Heq) as [Hn ->].
    apply (inj pretty) in Hn. subst. split; [constructor|done].
  - simpl in Heq. pose proof (proj2 Hquote _ _ _ _ Heq) as Hs. subst s'.
    apply (inj (String.app _)) in Heq. split; [constructor|done].
  - rewrite !dumps_list_eq, !sapp_cons, !sapp_assoc in Heq.
    injection Heq as Heq. rewrite !sapp_cons, !sapp_nil_l in Heq.
    inversion Hca as [| | | |? Hl|]; subst.
    inversion Hcb as [| | | |? Hl'|]; subst.
    assert (Forall (decodes E) l) as Hdec.
    { rewrite Forall_forall in IH, Hl |- *. intros x Hx. apply IH; auto. }
    destruct (decode_items E Hquote l Hdec l' r1 r2 Hl' Heq) as [H2 ->].
    split; [by constructor|done].
  - rewrite !dumps_dict_eq, !sapp_cons, !sapp_assoc in Heq.
    injection Heq as Heq. rewrite !sapp_cons, !sapp_nil_l in Heq.
    inversion Hca as [| | | | |? Hnd Hd]; subst.
    inversion Hcb as [| | | | |? Hnd' Hd']; subst.
    destruct (sorted_items d) as (d1 & Hp1 & Hs1).
    destruct (sorted_items d') as (d2 & Hp2 & Hs2).
    rewrite Hs1, Hs2 in Heq.
    assert (Forall (fun kv => decodes E kv.2) d1) as Hdec.
    { rewrite <- Hp1. rewrite Forall_forall in IH, Hd |- *.
      intros x Hx. apply IH; auto. }
    assert (Forall (fun kv => canonical kv.2) d2) as Hcan2
      by (by rewrite <- Hp2).
    destruct (decode_dict_items d1 Hdec d2 r1 r2 Hcan2 Heq) as [H2 ->].
    split; [|done].
    apply Forall2_flip in H2.
    destruct (Permutation_Forall2 (symmetry Hp2) H2) as (d1' & Hp & H3).
    apply Forall2_flip in H3.
    apply (je_dict d d1' d'); [exact Hnd|by rewrite Hp1|exact H3].
Qed.

(** Two canonical dicts or lists with the same text differ only in the
    order of keys. *)
Lemma dumps_inj (a b : json) :
  canonical a -> canonical b -> dumps E a = dumps E b -> json_equiv a b.
Proof.
  intros Ha Hb Heq.
  apply (dumps_decode a Ha b "" "" Hb I I). by rewrite Heq.
Qed.

End Decode.

Section Fingerprint.
Import DataProcessor.
Variable E : Env.

#[local] Instance key_le_trans : Transitive key_le.
Proof. intros a b c. unfold key_le. apply transitivity. Qed.

#[local] Instance key_le_total : Total key_le.
Proof. intros a b. unfold key_le. apply total, _. Qed.

Lemma nodup_keys_functional {A} (l : list (string * A)) k v1 v2 :
  NoDup l.*1 -> (k, v1) ∈ l -> (k, v2) ∈ l -> v1 = v2.
Proof.
  intros Hnd H1 H2.
  apply (elem_of_list_to_map_1 (M := gmap string)) in H1; [|exact Hnd].
  apply (elem_of_list_to_map_1 (M := gmap string)) in H2; [|exact Hnd].
  congruence.
Qed.

(** Sorting by key forgets the order of the items, when the keys are
    distinct. *)
Lemma sort_by_key_canonical (l1 l2 : list (string * string)) :
  NoDup l1.*1 -> l1 ≡ₚ l2 ->
  merge_sort key_le l1 = merge_sort key_le l2.
Proof.
  intros Hnd Hperm.
  apply (StronglySorted_unique_strong key_le).
  - intros [k1 v1] [k2 v2] H1 H2 Hle1 Hle2. unfold key_le in *. simpl in *.
    assert (k1 = k2) as -> by (by apply (anti_symm String.le)).
    rewrite merge_sort_Permutation in H1, H2. rewrite <- Hperm in H2.
    f_equal. by eapply nodup_keys_functional.
  - apply StronglySorted_merge_sort; apply _.
  - apply StronglySorted_merge_sort; apply _.
  - by rewrite !merge_sort_Permutation.
Qed.

Lemma rendered_keys (d : list (string * json)) :
  ((fun kv : string * json => (kv.1, dumps E kv.2)) <$> d).*1 = d.*1.
Proof.
  rewrite <- list_fmap_compose. apply list_fmap_ext. by intros _ [k v] _.
Qed.

(** The text of a dict does not depend on the order of its items. *)
Lemma dumps_dict_permutation (d1 d2 : list (string * json)) :
  NoDup d1.*1 -> d1 ≡ₚ d2 -> dumps E (JDict d1) = dumps E (JDict d2).
Proof.
  intros Hnd Hperm. simpl.
  rewrite (sort_by_key_canonical
             ((fun kv : string * json => (kv.1, dumps E kv.2)) <$> d1)
             ((fun kv : string * json => (kv.1, dumps E kv.2)) <$> d2));
    [reflexivity | by rewrite rendered_keys | by rewrite Hperm].
Qed.

Lemma dumps_equiv (a : json) :
  forall b, json_equiv a b -> dumps E a = dumps E b.
Proof.
  induction a as [| | | |l IH|d IH] using json_nested_ind;
    intros v' Hab; inversion Hab; subst; try reflexivity.
  - assert (dumps E <$> l = dumps E <$> l2) as Heq.
    { match goal with H : Forall2 json_equiv _ _ |- _ => rename H into H2 end.
      clear Hab. induction H2 as [|x y l k Hxy _ IHl]; [reflexivity|].
      apply Forall_cons_1 in IH as [IHx IHrest].
      csimpl. f_equal; [by apply IHx|by apply IHl]. }
    simpl. by rewrite Heq.
  - match goal with
    | Hp : d ≡ₚ ?d', Hn : NoDup d.*1 |- _ =>
        rewrite (dumps_dict_permutation d d' Hn Hp);
        rewrite Hp in IH; clear Hab Hp Hn
    end.
    assert ((fun kv : string * json => (kv.1, dumps E kv.2)) <$> d1'
            = (fun kv : string * json => (kv.1, dumps E kv.2)) <$> d2)
      as Heq.
    { match goal with H : Forall2 _ d1' d2 |- _ => rename H into H2 end.
      induction H2 as [|[k1 v1] [k2 v2] l k [Hk Hv] _ IHl]; [reflexivity|].
      apply Forall_cons_1 in IH as [IHx IHrest]. simpl in *. subst k2.
      csimpl. f_equal; [by rewrite (IHx _ Hv)|by apply IHl]. }
    simpl. by rewrite Heq.
Qed.

(** Two values that differ only in the order of keys hash alike. *)
Lemma calculate_hash_equiv (a b : json) :
  json_equiv a b -> calculate_hash E a = calculate_hash E b.
Proof.
  intros H. unfold calculate_hash.
  pose proof (dumps_equiv a b H) as Hd.
  inversion H; subst; try reflexivity; by rewrite Hd.
Qed.

Lemma calculate_hash_same_map (d1 d2 : record) :
  NoDup d1.*1 -> NoDup d2.*1 ->
  (list_to_map d1 : gmap string json) = list_to_map d2 ->
  calculate_hash E (JDict d1) = calculate_hash E (JDict d2).
Proof.
  intros H1 H2 Hmap. unfold calculate_hash. f_equal.
  apply dumps_dict_permutation; [exact H1|].
  by apply (list_to_map_inj (M := gmap string)).
Qed.

Lemma is_duplicate_result (dp : t) (data : json) :
  (is_duplicate E dp data).1
  = bool_decide (calculate_hash E data ∈ seen_hashes dp).
Proof.
  unfold is_duplicate. case_decide; simpl.
  - by rewrite bool_decide_true.
  - by rewrite bool_decide_false.
Qed.

Lemma is_duplicate_seen (dp : t) (data : json) :
  seen_hashes (is_duplicate E dp data).2
  = seen_hashes dp ∪ {[ calculate_hash E data ]}.
Proof.
  unfold is_duplicate. case_decide; simpl; [|reflexivity]. set_solver.
Qed.

Lemma admit_all_grows (l : list json) (dp : t) :
  seen_hashes dp ⊆ seen_hashes (admit_all E dp l).
Proof.
  revert dp. induction l as [|x l IH]; intros dp; simpl; [done|].
  etrans; [|apply IH]. rewrite is_duplicate_seen. set_solver.
Qed.

(** Equal fingerprints of two dicts or lists come from equal texts or
    from a collision of MD5; equal texts from equality up to the order
    of keys. *)
Lemma calculate_hash_separates (a b : json) :
  quote_ok E ->
  canonical a -> canonical b ->
  is_container a = true -> is_container b = true ->
  calculate_hash E a = calculate_hash E b ->
  json_equiv a b \/ md5_collision E (dumps E a) (dumps E b).
Proof.
  intros Hq Ha Hb Hca Hcb Hh.
  assert (Hm : md5_hexdigest E (dumps E a) = md5_hexdigest E (dumps E b)).
  { destruct a, b; try discriminate; exact Hh. }
  destruct (decide (dumps E a = dumps E b)) as [Heq|Hne].
  - left. by apply (dumps_inj E Hq).
  - right. by split.
Qed.

Lemma admit_all_seen (l : list json) :
  forall (dp : t) (h : string),
    h ∈ seen_hashes (admit_all E dp l) <->
    h ∈ seen_hashes dp \/ exists x, x ∈ l /\ calculate_hash E x = h.
Proof.
  induction l as [|y l IH]; intros dp h; simpl.
  - split; [auto|]. intros [H|(x & Hx & _)]; [exact H|].
    by apply elem_of_nil in Hx.
  - unfold admit_all in IH |- *. simpl. rewrite IH, is_duplicate_seen.
    rewrite elem_of_union, elem_of_singleton. split.
    + intros [[H|H]|(x & Hx & Hh)]; [by left| |].
      * right. exists y. split; [left|done].
      * right. exists x. split; [by right|done].
    + intros [H|(x & Hx & Hh)]; [by left; left|].
      apply elem_of_cons in Hx as [->|Hx]; [by left; right|].
      right. by exists x.
Qed.

(** C9. The fingerprint is the hash of a serialisation in which the
    items of every dict are ordered by key: two records with distinct
    keys that are equal as maps have the same fingerprint, and so have
    two values that differ only in the order of the keys of the dicts
    inside them.  An admission reports a duplicate exactly when the
    fingerprint has been seen: a record not seen before is new at its
    first admission, and it is a duplicate at the second and at every
    later admission, whatever was admitted in between.

    The fingerprint tells records apart as far as MD5 does.  With JSON
    string literals that can be read back, two dicts or lists with the
    same fingerprint are equal up to the order of keys, or their texts
    differ and collide under MD5.  So a record is reported as a duplicate
    when a record equal to it up to the order of keys was admitted
    before, and, collisions of MD5 apart, only then: it is new at its
    first admission. *)
Theorem C9_fingerprint_and_admission :
  (forall d1 d2 : record,
      NoDup d1.*1 -> NoDup d2.*1 ->
      (list_to_map d1 : gmap string json) = list_to_map d2 ->
      calculate_hash E (JDict d1) = calculate_hash E (JDict d2)) /\
  (forall a b : json,
      json_equiv a b -> calculate_hash E a = calculate_hash E b) /\
  (forall (dp : t) (data : json),
      ((is_duplicate E dp data).1 = false <->
       calculate_hash E data ∉ seen_hashes dp) /\
      (is_duplicate E (is_duplicate E dp data).2 data).1 = true /\
      (forall between : list json,
          (is_duplicate E
             (admit_all E (is_duplicate E dp data).2 between) data).1
          = true)) /\
  (forall data : json, (is_duplicate E init data).1 = false) /\
  (forall (earlier : list json) (x data : json),
      x ∈ earlier -> json_equiv x data ->
      (is_duplicate E (admit_all E init earlier) data).1 = true) /\
  (quote_ok E ->
   (forall a b : json,
       canonical a -> canonical b ->
       is_container a = true -> is_container b = true ->
       calculate_hash E a = calculate_hash E b ->
       json_equiv a b \/ md5_collision E (dumps E a) (dumps E b)) /\
   (forall (earlier : list json) (data : json),
       Forall (fun x => canonical x /\ is_container x = true)
         (data :: earlier) ->
       (is_duplicate E (admit_all E init earlier) data).1 = true ->
       exists x, x ∈ earlier /\
                 (json_equiv x data \/
                  md5_collision E (dumps E x) (dumps E data)))).
Proof.
  split; [exact calculate_hash_same_map|].
  split; [exact calculate_hash_equiv|].
  split; [|split; [|split]].
  - intros dp data. split; [|split].
    + rewrite is_duplicate_result. apply bool_decide_eq_false.
    + rewrite is_duplicate_result, is_duplicate_seen.
      apply bool_decide_eq_true. set_solver.
    + intros between. rewrite is_duplicate_result.
      apply bool_decide_eq_true.
      apply (admit_all_grows between). rewrite is_duplicate_seen.
      set_solver.
  - intros data. rewrite is_duplicate_result.
    apply bool_decide_eq_false. set_solver.
  - intros earlier x data Hx Heq. rewrite is_duplicate_result.
    apply bool_decide_eq_true. apply admit_all_seen. right.
    exists x. split; [exact Hx|]. by apply calculate_hash_equiv.
  - intros Hq. split; [intros a b; by apply calculate_hash_separates|].
    intros earlier data Hall. rewrite is_duplicate_result.
    intros Hdup%bool_decide_eq_true. apply admit_all_seen in Hdup.
    destruct Hdup as [Hin|(x & Hx & Hh)]; [by apply elem_of_empty in Hin|].
    exists x. split; [exact Hx|].
    apply Forall_cons_1 in Hall as [[Hcd Hkd] Hall].
    rewrite Forall_forall in Hall. destruct (Hall x Hx) as [Hcx Hkx].
    by apply calculate_hash_separates.
Qed.

End Fingerprint.

(** The string literals of the fixtures can be read back. *)
Lemma json_escape_prefix (s1 : string) :
  forall s2 r1 r2,
    Fixture.json_escape s1 +:+ String "034" r1
    = Fixture.json_escape s2 +:+ String "034" r2 ->
    s1 = s2.
Proof.
  induction s1 as [|c1 s1 IH]; intros [|c2 s2] r1 r2; simpl;
    repeat match goal with
           | |- context [Ascii.eqb ?c ?d] => destruct (Ascii.eqb_spec c d)
           end;
    subst; rewrite ?sapp_cons, ?sapp_nil_l; intros Heq;
    try reflexivity; try discriminate Heq;
    try (injection Heq as Heq; f_equal; by eapply IH);
    try (injection Heq as Heq' Heq; congruence);
    try (injection Heq as Heq; congruence).
  - injection Heq as Heq1 Heq. subst. f_equal. by eapply IH.
Qed.

Lemma fixture_quote_ok (robots : option RobotFileParser)
    (site : string -> Reply) :
  quote_ok (Fixture.env robots site).
Proof.
  split.
  - intros s. by eexists.
  - intros s1 s2 r1 r2. simpl. unfold Fixture.quote, PaginationHandler.dq.
    rewrite !sapp_cons, !sapp_assoc, !sapp_cons, !sapp_nil_l.
    intros [= Heq]. by eapply json_escape_prefix.
Qed.

(** C9 on a record written with its keys in two orders: one
    fingerprint, and the two are equal up to the order of keys; new at
    the first admission, a duplicate afterwards; a record with another
    title is new after it. *)
Lemma C9_fingerprint_and_admission_witness :
  let E := Fixture.env None Fixture.site_ok in
  let r1 := [("url", JStr "https://example.com/a"); ("status_code", JInt 200);
             ("title", JStr "A")] in
  let r2 := [("title", JStr "A"); ("url", JStr "https://example.com/a");
             ("status_code", JInt 200)] in
  let r3 := [("url", JStr "https://example.com/a"); ("status_code", JInt 200);
             ("title", JStr "B")] in
  DataProcessor.calculate_hash E (JDict r1)
    = DataProcessor.calculate_hash E (JDict r2) /\
  json_equiv (JDict r1) (JDict r2) /\
  (DataProcessor.is_duplicate E DataProcessor.init (JDict r1)).1 = false /\
  (DataProcessor.is_duplicate E
     (DataProcessor.is_duplicate E DataProcessor.init (JDict r1)).2
     (JDict r1)).1 = true /\
  (DataProcessor.is_duplicate E
     (admit_all E DataProcessor.init [JDict r1]) (JDict r3)).1 = false.
Proof.
  cbv zeta.
  destruct (C9_fingerprint_and_admission (Fixture.env None Fixture.site_ok))
    as (Hmap & _ & Hadm & Hnew & _ & Hsep).
  destruct (Hsep (fixture_quote_ok None Fixture.site_ok)) as [Hsep1 Hsep2].
  assert (Hcan : forall title,
            canonical (JDict [("url", JStr "https://example.com/a");
                              ("status_code", JInt 200);
                              ("title", JStr title)])).
  { intros title. constructor.
    - apply (bool_decide_unpack _). vm_compute. exact I.
    - repeat constructor. }
  assert (Hcan2 : canonical (JDict [("title", JStr "A");
                                    ("url", JStr "https://example.com/a");
                                    ("status_code", JInt 200)])).
  { constructor.
    - apply (bool_decide_unpack _). vm_compute. exact I.
    - repeat constructor. }
  assert (Hno : forall t1 t2,
            ~ md5_collision (Fixture.env None Fixture.site_ok) t1 t2).
  { intros t1 t2 [Hne Heq]. exact (Hne Heq). }
  split; [|split; [|split; [|split]]].
  - apply Hmap.
    + apply (bool_decide_unpack _). vm_compute. exact I.
    + apply (bool_decide_unpack _). vm_compute. exact I.
    + vm_compute. reflexivity.
  - destruct (Hsep1 _ _ (Hcan "A") Hcan2 eq_refl eq_refl) as [H|H].
    + vm_compute. reflexivity.
    + exact H.
    + destruct (Hno _ _ H).
  - apply Hnew.
  - exact (proj1 (proj2 (Hadm DataProcessor.init _))).
  - match goal with |- ?b = false => destruct b eqn:Hdup end;
      [|reflexivity].
    exfalso.
    assert (Hall : Forall (fun x => canonical x /\ is_container x = true)
                     [JDict [("url", JStr "https://example.com/a");
                             ("status_code", JInt 200); ("title", JStr "B")];
                      JDict [("url", JStr "https://example.com/a");
                             ("status_code", JInt 200); ("title", JStr "A")]]).
    { constructor; [split; [apply Hcan|reflexivity]|].
      constructor; [split; [apply Hcan|reflexivity]|constructor]. }
    destruct (Hsep2 _ _ Hall Hdup) as (x & Hx & [Heq|Hcol]).
    + apply list_elem_of_singleton in Hx. subst x.
      apply (dumps_equiv (Fixture.env None Fixture.site_ok)) in Heq.
      revert Heq. vm_compute. discriminate.
    + destruct (Hno _ _ Hcol).
Defined.

(** ** Page URL generation (utils/pagination_handler.py) *)

Section GeneratePageUrls.
Import PaginationHandler.
Variable E : Env.
Variables base_url page_param : string.
Variable start_page : Z.

Lemma dict_set_set {A} (k : string) (v1 v2 : A) (d : list (string * A)) :
  dict_set k v2 (dict_set k v1 d) = dict_set k v2 d.
Proof.
  induction d as [|[k' v'] d IH]; simpl.
  - by rewrite decide_True.
  - destruct (decide (k' = k)) as [->|Hne]; simpl.
    + by rewrite decide_True.
    + rewrite decide_False by exact Hne. by rewrite IH.
Qed.

(** Without a bound the loop never reaches its [break]. *)
Lemma generate_loop_unbounded (max_pages : option Z) (fuel : nat) :
  max_pages_truthy max_pages = false ->
  forall page qp urls,
    generate_loop E base_url page_param start_page max_pages fuel
      page qp urls = None.
Proof.
  intros Hfalsy.
  assert (Hnever : forall page, past_last_page start_page max_pages page = false).
  { intros page. unfold past_last_page, max_pages_truthy in *.
    destruct max_pages as [n|]; [|reflexivity]. by rewrite Hfalsy. }
  induction fuel as [|fuel IH]; intros page qp urls; simpl; [reflexivity|].
  rewrite Hnever. apply IH.
Qed.

(** With [k] pages left to emit the loop emits them and stops. *)
Lemma generate_loop_bounded (n : Z) (k : nat) :
  0 < n ->
  forall fuel page qp urls,
    (k < fuel)%nat ->
    page = start_page + n - Z.of_nat k ->
    (forall v, dict_set page_param v qp
               = dict_set page_param v (parse_qs E base_url)) ->
    generate_loop E base_url page_param start_page (Some n) fuel
      page qp urls
    = Some (urls ++ (page_url E base_url page_param
                       <$> seqZ page (Z.of_nat k))).
Proof.
  intros Hn. induction k as [|k IH]; intros fuel page qp urls Hf Hp Hqp;
    (destruct fuel as [|fuel]; [lia|]); simpl.
  - unfold past_last_page.
    replace (n =? 0) with false by (symmetry; apply Z.eqb_neq; lia).
    replace (start_page + n - 1 <? page) with true
      by (symmetry; apply Z.ltb_lt; lia).
    simpl. by rewrite app_nil_r.
  - unfold past_last_page.
    replace (n =? 0) with false by (symmetry; apply Z.eqb_neq; lia).
    replace (start_page + n - 1 <? page) with false
      by (symmetry; apply Z.ltb_ge; lia).
    simpl.
    assert (Hf' : (k < fuel)%nat) by lia.
    assert (Hp' : page + 1 = start_page + n - Z.of_nat k) by lia.
    assert (Hqp' : forall v,
               dict_set page_param v
                 (dict_set page_param [pretty page] qp)
               = dict_set page_param v (parse_qs E base_url)).
    { intros v. rewrite dict_set_set. apply Hqp. }
    rewrite (IH fuel (page + 1) _ _ Hf' Hp' Hqp').
    rewrite (seqZ_cons page) by lia. csimpl.
    rewrite <- app_assoc. simpl. unfold page_url at 2. rewrite Hqp.
    repeat f_equal; lia.
Qed.

(** C10. [generate_page_urls] returns exactly when [max_pages] is truthy.
    When it is [None] or 0 no number of iterations reaches the [break].
    When it is a positive [n], every run of more than [n] iterations
    returns the [n] URLs of the pages [start_page], ..., [start_page + n - 1],
    in this order.  (A negative value stops at once with no URL.) *)
Theorem C10_generate_page_urls_termination :
  (forall max_pages : option Z,
      (max_pages = None \/ max_pages = Some 0) ->
      forall fuel : nat,
        generate_page_urls E base_url page_param start_page max_pages fuel
        = None) /\
  (forall n : Z,
      0 < n ->
      forall fuel : nat,
        (Z.to_nat n < fuel)%nat ->
        generate_page_urls E base_url page_param start_page (Some n) fuel
        = Some (page_url E base_url page_param <$> seqZ start_page n) /\
        length (page_url E base_url page_param <$> seqZ start_page n)
        = Z.to_nat n) /\
  (forall n : Z,
      n < 0 ->
      forall fuel : nat,
        generate_page_urls E base_url page_param start_page (Some n)
          (S fuel)
        = Some []).
Proof.
  split; [|split].
  - intros max_pages Hmp fuel. apply generate_loop_unbounded.
    destruct Hmp as [-> | ->]; reflexivity.
  - intros n Hn fuel Hfuel. split.
    + unfold generate_page_urls.
      rewrite (generate_loop_bounded n (Z.to_nat n) Hn); [|lia|lia|done].
      simpl. by rewrite Z2Nat.id by lia.
    + rewrite length_fmap, length_seqZ. reflexivity.
  - intros n Hn fuel. unfold generate_page_urls. simpl.
    unfold past_last_page.
    replace (n =? 0) with false by (symmetry; apply Z.eqb_neq; lia).
    replace (start_page + n - 1 <? start_page) with true
      by (symmetry; apply Z.ltb_lt; lia).
    reflexivity.
Qed.

End GeneratePageUrls.

(** C10 with [start_page = 3] and [max_pages = 4]: pages 3, 4, 5, 6. *)
Lemma C10_generate_page_urls_termination_witness :
  PaginationHandler.generate_page_urls (Fixture.env None Fixture.site_ok)
    "https://example.com/list" "page" 3 (Some 4) 10
  = Some ["https://example.com/list?page=3"; "https://example.com/list?page=4";
          "https://example.com/list?page=5"; "https://example.com/list?page=6"].
Proof.
  destruct (C10_generate_page_urls_termination
              (Fixture.env None Fixture.site_ok)
              "https://example.com/list" "page" 3) as (_ & H & _).
  destruct (H 4 ltac:(lia) 10%nat ltac:(vm_compute; lia)) as [-> _].
  vm_compute. reflexivity.
Defined.

(** ** Batch scraping and the pagination walk (scrapers/web_scraper.py) *)

Section Scraping.
Import WebScraper.
Variable E : Env.




(** The scraper call changes nothing of the web scraper but the state
    of its HTML scraper. *)
Lemma run_scraper_frame (s : t) (w : World) (url : string)
    (selectors : option (list (string * string)))
    (use_browser is_async : bool) :
  let '(got, s1, w1) :=
    run_scraper E s w url selectors use_browser is_async in
  config s1 = config s /\ errors s1 = errors s /\ results s1 = results s /\
  data_processor s1 = data_processor s.
Proof.
  unfold run_scraper. destruct use_browser.
  - destruct (browser_scrape E w url) as [[result|]|e]; auto.
    destruct (_ && _ && _); auto.
    destruct (dict_get "page_source" result) as [[| | |src| |]|];
      destruct selectors as [sel|]; auto.
    destruct (parse_html E src); auto.
  - destruct is_async.
    + destruct (HTMLScraper.scrape_async E _ w url selectors _)
        as [[r h] w1].
      simpl. auto.
    + destruct (HTMLScraper.scrape_sync E _ w url selectors _)
        as [[r h] w1].
      simpl. auto.
Qed.











Section Walk.
Variable selectors : option (list (string * string)).
Variable max_pages : option Z.
Variable use_browser : bool.




End Walk.

End Scraping.






(* ================================================================== *)
(** * Part III: further properties of the code *)
(* ================================================================== *)

(** ** The proxy pool (utils/proxy_manager.py) *)

Section ProxyPool.
Import ProxyManager.

Lemma init_stats_dom (l : list string) (m : gmap string ProxyStats)
    (p : string) :
  is_Some (foldl (fun stats q => <[q := fresh_stats]> stats) m l !! p)
  <-> p ∈ l \/ is_Some (m !! p).
Proof.
  revert m. induction l as [|q l IH]; intros m; simpl.
  - set_solver.
  - rewrite IH, elem_of_cons, lookup_insert_is_Some. 
    destruct (decide (q = p)) as [->|Hne]; naive_solver.
Qed.

(** What the list comprehension of [get_proxy] gives: the listed
    proxies that are active, or a [KeyError] for the first listed proxy
    without statistics. *)
Lemma active_proxies_Ok (stats : gmap string ProxyStats) (l act : list string) :
  active_proxies stats l = Ok act ->
  (forall p, p ∈ l -> is_Some (stats !! p)) /\
  (forall p, p ∈ act <->
             p ∈ l /\ exists st, stats !! p = Some st /\ active st = true).
Proof.
  revert act. induction l as [|q l IH]; intros act; simpl.
  - intros [= <-]. split; [set_solver|]. intros p. set_solver.
  - destruct (stats !! q) as [sq|] eqn:Hq; [|discriminate].
    destruct (active_proxies stats l) as [rest|e]; [|discriminate].
    intros [= <-]. destruct (IH rest eq_refl) as [Hall Hact].
    split.
    + intros p [->|Hp]%elem_of_cons; [by rewrite Hq|by apply Hall].
    + intros p. destruct (active sq) eqn:Ha.
      * rewrite !elem_of_cons, Hact. split.
        -- intros [->|[Hp Hst]]; [split; [by left|eauto]|split; [by right|done]].
        -- intros [[->|Hp] Hst]; [by left|right; done].
      * rewrite elem_of_cons, Hact. split.
        -- intros [Hp Hst]. split; [by right|done].
        -- intros [[->|Hp] (st & Hst & Hact')]; [|eauto].
           rewrite Hq in Hst. injection Hst as <-. congruence.
Qed.

Lemma active_proxies_total (stats : gmap string ProxyStats) (l : list string) :
  (forall p, p ∈ l -> is_Some (stats !! p)) ->
  exists act, active_proxies stats l = Ok act.
Proof.
  induction l as [|q l IH]; intros Hall; simpl; [eauto|].
  destruct (Hall q ltac:(by left)) as [sq ->].
  destruct IH as [rest ->]; [intros p Hp; apply Hall; by right|]. eauto.
Qed.

(** The three ways a call of [get_proxy] can end. *)
Lemma get_proxy_cases (E : Env) (cfg : ScrapingConfig) (pm : t) (w : World) :
  let '(r, pm', w') := get_proxy E cfg pm w in
  (r = Ok None /\ pm' = pm /\ w' = w /\
   (proxies pm = [] \/ active_proxies (proxy_stats pm) (proxies pm) = Ok []))
  \/
  (exists p, r = Raise (KeyError p) /\ pm' = pm /\ w' = w /\
             active_proxies (proxy_stats pm) (proxies pm) = Raise (KeyError p))
  \/
  (exists p st act i,
      r = Ok (Some p) /\
      active_proxies (proxy_stats pm) (proxies pm) = Ok act /\
      act !! i = Some p /\
      proxy_stats pm !! p = Some st /\ active st = true /\
      proxies pm' = proxies pm /\
      proxy_stats pm' = <[p := drawn_entry st (clock w')]> (proxy_stats pm) /\
      (if proxy_rotation cfg
       then i = (current_proxy_index pm mod length act)%nat /\
            current_proxy_index pm' = S (current_proxy_index pm) /\ w' = w
       else i = (random_index E w (length act) mod length act)%nat /\
            current_proxy_index pm' = current_proxy_index pm /\
            w' = log EvRandom w)).
Proof.
  unfold get_proxy.
  destruct (proxies pm) as [|q0 qs] eqn:Hps; [left; auto|].
  destruct (active_proxies (proxy_stats pm) (q0 :: qs)) as [[|p0 rest]|e]
    eqn:Hact.
  - left. auto.
  - set (act := p0 :: rest).
    assert (Hpick : forall i, (i < length act)%nat ->
              exists p st, act !! i = Some p /\ nth i act p0 = p /\
                           proxy_stats pm !! p = Some st /\ active st = true).
    { intros i Hi. destruct (lookup_lt_is_Some_2 act i Hi) as [p Hp].
      exists p. destruct (active_proxies_Ok _ _ _ Hact) as [_ Hin].
      destruct (proj1 (Hin p)) as (_ & st & Hst & Ha).
      { eapply list_elem_of_lookup_2. exact Hp. }
      exists st. repeat split; auto.
      rewrite nth_lookup, Hp. reflexivity. }
    assert (Hlen : (0 < length act)%nat) by (simpl; lia).
    destruct (proxy_rotation cfg); cbv beta iota zeta.
    + destruct (Hpick (current_proxy_index pm mod length act)%nat)
        as (p & st & Hp & Hn & Hst & Ha);
        [apply Nat.mod_upper_bound; lia|].
      rewrite Hn, Hst. right. right.
      exists p, st, act, (current_proxy_index pm mod length act)%nat.
      repeat split; auto.
    + destruct (Hpick (random_index E w (length act) mod length act)%nat)
        as (p & st & Hp & Hn & Hst & Ha);
        [apply Nat.mod_upper_bound; lia|].
      rewrite Hn, Hst. right. right.
      exists p, st, act, (random_index E w (length act) mod length act)%nat.
      repeat split; auto.
  - right. left.
    assert (exists p, e = KeyError p) as [p ->].
    { clear Hps. revert Hact. generalize (q0 :: qs). intros l.
      induction l as [|q l IH]; simpl; [discriminate|].
      destruct (proxy_stats pm !! q); [|intros [= <-]; eauto].
      destruct (active_proxies (proxy_stats pm) l); [discriminate|].
      intros [= <-]. by apply IH. }
    exists p. auto.
Qed.

Lemma pool_wf_all_stats (pm : t) :
  pool_wf pm -> forall p, p ∈ proxies pm -> is_Some (proxy_stats pm !! p).
Proof. intros [_ H] p Hp. by apply H. Qed.

Lemma pool_wf_insert_present (pm : t) (idx : nat) (p : string)
    (st st' : ProxyStats) :
  pool_wf pm -> proxy_stats pm !! p = Some st ->
  pool_wf {| proxies := proxies pm; current_proxy_index := idx;
             proxy_stats := <[p := st']> (proxy_stats pm) |}.
Proof.
  intros [Hnd Hdom] Hp. split; [exact Hnd|]. simpl. intros q.
  rewrite lookup_insert_is_Some, Hdom.
  destruct (decide (p = q)) as [<-|Hne]; [|naive_solver].
  split; [auto|]. intros _. by rewrite Hp.
Qed.

Lemma list_remove_spec (p : string) (l : list string) :
  NoDup l ->
  NoDup (list_remove p l) /\
  (forall q, q ∈ list_remove p l <-> q ∈ l /\ q <> p).
Proof.
  induction 1 as [|x l Hx Hnd IH]; simpl.
  - split; [constructor|]. set_solver.
  - destruct (decide (x = p)) as [->|Hne].
    + split; [exact Hnd|]. set_solver.
    + destruct IH as [IH1 IH2]. split.
      * constructor; [|exact IH1]. rewrite IH2. tauto.
      * intros q. rewrite !elem_of_cons, IH2. naive_solver.
Qed.

(** X1. A pool built from a list without repetitions is well formed (no
    proxy listed twice, the listed proxies are exactly those with
    statistics), and every operation keeps it so: [add_proxy],
    [remove_proxy], [get_proxy], [mark_proxy_failed],
    [mark_proxy_success], [reset_proxy_stats].  On a well formed pool
    [get_proxy] never raises. *)
Theorem X1_pool_stays_well_formed :
  (forall cfg, NoDup (proxy_list cfg) -> pool_wf (init cfg)) /\
  (forall pm p, pool_wf pm -> pool_wf (add_proxy pm p)) /\
  (forall pm p, pool_wf pm -> pool_wf (remove_proxy pm p)) /\
  (forall E cfg pm w,
      pool_wf pm ->
      pool_wf (get_proxy E cfg pm w).1.2 /\
      forall e, (get_proxy E cfg pm w).1.1 <> Raise e) /\
  (forall pm p, pool_wf pm -> pool_wf (mark_proxy_failed pm p)) /\
  (forall pm p rt, pool_wf pm -> pool_wf (mark_proxy_success pm p rt)) /\
  (forall pm, pool_wf pm -> pool_wf (reset_proxy_stats pm)).
Proof.
  repeat split.
  - exact H.
  - unfold init in *; simpl in *. rewrite init_stats_dom. set_solver.
  - unfold init; simpl. rewrite init_stats_dom.
    intros [Hp|Hp]; [exact Hp|]. by destruct Hp as [? Hp%lookup_empty_Some].
  - unfold add_proxy. destruct H as [Hnd _]. case_decide; [exact Hnd|].
    simpl. apply NoDup_app. split; [exact Hnd|]. split; [set_solver|].
    apply NoDup_singleton.
  - unfold add_proxy. destruct H as [Hnd Hdom]. case_decide as Hin.
    + apply Hdom.
    + simpl. rewrite elem_of_app, lookup_insert_is_Some, Hdom.
      intros [Hp|Hp%list_elem_of_singleton]; [|by left].
      destruct (decide (p = p0)); [by left|by right].
  - unfold add_proxy. destruct H as [Hnd Hdom]. case_decide as Hin.
    + apply Hdom.
    + simpl. rewrite elem_of_app, lookup_insert_is_Some, Hdom.
      intros [->|[_ Hp]]; [right; by apply list_elem_of_singleton|by left].
  - unfold remove_proxy. destruct H as [Hnd Hdom].
    case_decide; [|exact Hnd]. simpl. by apply list_remove_spec.
  - unfold remove_proxy. destruct H as [Hnd Hdom].
    case_decide; [|apply Hdom]. simpl.
    destruct (list_remove_spec p (proxies pm) Hnd) as [_ ->].
    rewrite lookup_delete_is_Some, Hdom. naive_solver.
  - unfold remove_proxy. destruct H as [Hnd Hdom].
    case_decide; [|apply Hdom]. simpl.
    destruct (list_remove_spec p (proxies pm) Hnd) as [_ ->].
    rewrite lookup_delete_is_Some, Hdom. naive_solver.
  - pose proof (get_proxy_cases E cfg pm w) as Hc.
    destruct (get_proxy E cfg pm w) as [[r pm'] w']. simpl.
    destruct Hc as [(_ & -> & _)|[(p & _ & -> & _)|
      (p & st & act & i & _ & _ & _ & Hst & _ & Hps & Hstats & _)]];
      [exact (proj1 H)|exact (proj1 H)|].
    rewrite Hps. exact (proj1 H).
  - pose proof (get_proxy_cases E cfg pm w) as Hc.
    destruct (get_proxy E cfg pm w) as [[r pm'] w']. simpl.
    destruct Hc as [(_ & -> & _)|[(p' & _ & -> & _)|
      (p' & st & act & i & _ & _ & _ & Hst & _ & Hps & Hstats & _)]];
      [apply H|apply H|].
    rewrite Hps, Hstats, lookup_insert_is_Some. intros Hp.
    destruct (decide (p' = p)); [by left|right].
    split; [done|]. by apply H.
  - pose proof (get_proxy_cases E cfg pm w) as Hc.
    destruct (get_proxy E cfg pm w) as [[r pm'] w']. simpl.
    destruct Hc as [(_ & -> & _)|[(p' & _ & -> & _)|
      (p' & st & act & i & _ & _ & _ & Hst & _ & Hps & Hstats & _)]];
      [apply H|apply H|].
    rewrite Hps, Hstats, lookup_insert_is_Some.
    intros [<-|[_ Hp]]; [|by apply H]. apply H. by rewrite Hst.
  - intros e He.
    pose proof (get_proxy_cases E cfg pm w) as Hc.
    destruct (get_proxy E cfg pm w) as [[r pm'] w']. simpl in He. subst r.
    destruct Hc as [(? & _)|[(p & _ & _ & _ & Hraise)|(p & ? & ? & ? & ? & _)]];
      try discriminate.
    destruct (active_proxies_total (proxy_stats pm) (proxies pm)
                (pool_wf_all_stats pm H)) as [act Hact].
    congruence.
  - unfold mark_proxy_failed. destruct (proxy_stats pm !! p) eqn:Hp;
      [|exact (proj1 H)]. exact (proj1 H).
  - unfold mark_proxy_failed. destruct (proxy_stats pm !! p) eqn:Hp;
      [|apply H]. simpl. rewrite lookup_insert_is_Some. intros Hq.
    destruct (decide (p = p0)); [by left|right]. split; [done|by apply H].
  - unfold mark_proxy_failed. destruct (proxy_stats pm !! p) eqn:Hp;
      [|apply H]. simpl. rewrite lookup_insert_is_Some.
    intros [<-|[_ Hq]]; [|by apply H]. apply H. by rewrite Hp.
  - unfold mark_proxy_success. destruct (proxy_stats pm !! p) eqn:Hp;
      [|exact (proj1 H)]. exact (proj1 H).
  - unfold mark_proxy_success. destruct (proxy_stats pm !! p) eqn:Hp;
      [|apply H]. simpl. rewrite lookup_insert_is_Some. intros Hq.
    destruct (decide (p = p0)); [by left|right]. split; [done|by apply H].
  - unfold mark_proxy_success. destruct (proxy_stats pm !! p) eqn:Hp;
      [|apply H]. simpl. rewrite lookup_insert_is_Some.
    intros [<-|[_ Hq]]; [|by apply H]. apply H. by rewrite Hp.
  - exact (proj1 H).
  - simpl. rewrite lookup_fmap, fmap_is_Some. apply H.
  - simpl. rewrite lookup_fmap, fmap_is_Some. apply H.
Qed.

Lemma active_proxies_insert_same_active (stats : gmap string ProxyStats)
    (p : string) (st st' : ProxyStats) (l : list string) :
  stats !! p = Some st -> active st' = active st ->
  active_proxies (<[p := st']> stats) l = active_proxies stats l.
Proof.
  intros Hp Ha. induction l as [|q l IH]; simpl; [reflexivity|].
  rewrite IH. destruct (decide (p = q)) as [<-|Hne].
  - rewrite lookup_insert_eq, Hp, Ha. reflexivity.
  - rewrite lookup_insert_ne by exact Hne. reflexivity.
Qed.

Lemma active_proxies_missing (stats : gmap string ProxyStats) (p : string)
    (l : list string) :
  (forall q, q ∈ l -> q <> p -> is_Some (stats !! q)) ->
  stats !! p = None -> p ∈ l ->
  active_proxies stats l = Raise (KeyError p).
Proof.
  intros Hall Hp. induction l as [|q l IH]; intros Hin; simpl.
  - by apply elem_of_nil in Hin.
  - destruct (decide (q = p)) as [->|Hne]; [by rewrite Hp|].
    destruct (Hall q ltac:(by left) Hne) as [sq ->].
    rewrite IH; [reflexivity| |].
    + intros q' Hq'. apply Hall. by right.
    + apply elem_of_cons in Hin as [->|Hin]; [done|exact Hin].
Qed.

Lemma list_remove_fresh (p : string) (l : list string) :
  p ∉ l -> list_remove p (l ++ [p]) = l.
Proof.
  induction l as [|q l IH]; intros Hp; simpl.
  - by rewrite decide_True.
  - rewrite decide_False by set_solver. rewrite IH by set_solver. reflexivity.
Qed.

Lemma list_remove_subseteq (p q : string) (l : list string) :
  q ∈ list_remove p l -> q ∈ l.
Proof.
  induction l as [|x l IH]; simpl; [done|].
  destruct (decide (x = p)); [by right|].
  intros [->|Hq]%elem_of_cons; [by left|right; by apply IH].
Qed.

(** X2. When [get_proxy] returns a proxy, the proxy is listed in the pool
    and its entry was active; the call adds one to the request count of
    that entry, sets its time of last use to the current time, and
    changes no other entry.  When it returns [None], the pool is unchanged
    and no listed proxy has an active entry. *)
Theorem X2_get_proxy_draws_an_active_proxy
    (E : Env) (cfg : ScrapingConfig) (pm : t) (w : World) :
  (forall p,
      (get_proxy E cfg pm w).1.1 = Ok (Some p) ->
      p ∈ proxies pm /\
      exists st,
        proxy_stats pm !! p = Some st /\ active st = true /\
        proxies (get_proxy E cfg pm w).1.2 = proxies pm /\
        proxy_stats (get_proxy E cfg pm w).1.2
        = <[p := drawn_entry st (clock w)]> (proxy_stats pm)) /\
  ((get_proxy E cfg pm w).1.1 = Ok None ->
   (get_proxy E cfg pm w).1.2 = pm /\
   forall p st, p ∈ proxies pm -> proxy_stats pm !! p = Some st ->
                active st = false).
Proof.
  pose proof (get_proxy_cases E cfg pm w) as Hc.
  destruct (get_proxy E cfg pm w) as [[r pm'] w']. simpl.
  destruct Hc as [(-> & -> & _ & Hnone)|[(p' & -> & _)|
    (p' & st & act & i & -> & Hact & Hi & Hst & Ha & Hps & Hstats & Hw)]].
  - split; [discriminate|]. intros _. split; [reflexivity|].
    intros p st Hp Hst. destruct Hnone as [Hnil|Hact].
    + rewrite Hnil in Hp. by apply elem_of_nil in Hp.
    + destruct (active_proxies_Ok _ _ _ Hact) as [_ Hin].
      destruct (active st) eqn:Ha; [|reflexivity].
      exfalso. eapply elem_of_nil. apply Hin. eauto.
  - split; discriminate.
  - split; [|discriminate]. intros p [= <-].
    destruct (active_proxies_Ok _ _ _ Hact) as [_ Hin].
    split; [apply Hin; by eapply list_elem_of_lookup_2|].
    exists st. repeat split; auto.
    assert (clock w' = clock w) as <-; [|exact Hstats].
    destruct (proxy_rotation cfg); destruct Hw as (_ & _ & ->); reflexivity.
Qed.

(** X2 on the pool of one fresh proxy: the proxy is drawn. *)
Lemma X2_get_proxy_draws_an_active_proxy_witness :
  "http://proxy1:8080" ∈ proxies (init Fixture.config_with_proxy).
Proof.
  exact (proj1 (proj1 (X2_get_proxy_draws_an_active_proxy
                         (Fixture.env None Fixture.site_ok)
                         Fixture.config_with_proxy
                         (init Fixture.config_with_proxy) Fixture.world0)
                  "http://proxy1:8080" eq_refl)).
Defined.

(** X3. With rotation on, [k] calls of [get_proxy] in a row on a pool
    whose active proxies are [act] (not empty) return the active proxies
    in turn, starting at position [current_proxy_index mod len(act)] and
    wrapping around: call number [j] returns
    [act[(current_proxy_index + j) mod len(act)]]. *)
Theorem X3_rotation_goes_round_the_active_proxies
    (E : Env) (cfg : ScrapingConfig) (act : list string) (k : nat)
    (Hrot : proxy_rotation cfg = true) (Hne : act <> []) :
  forall (pm : t) (w : World),
    active_proxies (proxy_stats pm) (proxies pm) = Ok act ->
    (draw_many E cfg k pm w).1.1
    = (fun j => Ok (act !! ((current_proxy_index pm + j) mod length act)%nat))
        <$> seq 0 k.
Proof.
  induction k as [|k IH]; intros pm w Hact; simpl; [reflexivity|].
  pose proof (get_proxy_cases E cfg pm w) as Hc.
  destruct (get_proxy E cfg pm w) as [[r pm1] w1].
  rewrite Hrot in Hc.
  destruct Hc as [(_ & _ & _ & Hnone)|[(p' & _ & _ & _ & Hraise)|
    (p & st & act' & i & -> & Hact' & Hi & Hst & Ha & Hps & Hstats
       & -> & Hidx & ->)]].
  - exfalso. destruct Hnone as [Hnil|Hnil].
    + rewrite Hnil in Hact. simpl in Hact. congruence.
    + congruence.
  - congruence.
  - assert (act' = act) as -> by congruence.
    assert (Hact1 : active_proxies (proxy_stats pm1) (proxies pm1) = Ok act).
    { rewrite Hps, Hstats.
      rewrite (active_proxies_insert_same_active _ p st); auto. }
    specialize (IH pm1 w Hact1).
    destruct (draw_many E cfg k pm1 w) as [[rs pm2] w2]. simpl in *.
    rewrite Nat.add_0_r, Hi. f_equal.
    rewrite IH, Hidx, <- fmap_S_seq, <- list_fmap_compose.
    apply list_fmap_ext. intros _ j _. simpl.
    by rewrite Nat.add_succ_r.
Qed.

(** X3 on three proxies: four draws give the first, second, third and
    the first again. *)
Lemma X3_rotation_goes_round_the_active_proxies_witness :
  (draw_many (Fixture.env None Fixture.site_ok) Fixture.config_three_proxies 4
     (init Fixture.config_three_proxies) Fixture.world0).1.1
  = [Ok (Some "http://p1"); Ok (Some "http://p2"); Ok (Some "http://p3");
     Ok (Some "http://p1")].
Proof.
  rewrite (X3_rotation_goes_round_the_active_proxies
             (Fixture.env None Fixture.site_ok) Fixture.config_three_proxies
             ["http://p1"; "http://p2"; "http://p3"] 4 eq_refl
             ltac:(discriminate)
             (init Fixture.config_three_proxies) Fixture.world0
             ltac:(vm_compute; reflexivity)).
  reflexivity.
Defined.

(** X4. A disabled entry stays disabled: [get_proxy] never returns its
    proxy, and neither [get_proxy] nor a failure or success report for
    any proxy makes it active again.  Only [reset_proxy_stats] does. *)
Theorem X4_disabled_proxy_stays_disabled
    (pm : t) (p : string) (st : ProxyStats)
    (Hp : proxy_stats pm !! p = Some st) (Hoff : active st = false) :
  (forall E cfg w,
      (get_proxy E cfg pm w).1.1 <> Ok (Some p) /\
      active <$> proxy_stats (get_proxy E cfg pm w).1.2 !! p = Some false) /\
  (forall q,
      active <$> proxy_stats (mark_proxy_failed pm q) !! p = Some false) /\
  (forall q rt,
      active <$> proxy_stats (mark_proxy_success pm q rt) !! p = Some false) /\
  active <$> proxy_stats (reset_proxy_stats pm) !! p = Some true.
Proof.
  split; [|split; [|split]].
  - intros E cfg w.
    pose proof (get_proxy_cases E cfg pm w) as Hc.
    destruct (get_proxy E cfg pm w) as [[r pm'] w']. simpl.
    destruct Hc as [(-> & -> & _)|[(p' & -> & -> & _)|
      (p' & st' & act & i & -> & _ & _ & Hst & Ha & _ & Hstats & _)]].
    + split; [discriminate|]. by rewrite Hp, <- Hoff.
    + split; [discriminate|]. by rewrite Hp, <- Hoff.
    + assert (p' <> p) by (intros ->; congruence).
      split; [congruence|].
      rewrite Hstats, lookup_insert_ne, Hp by done. by rewrite <- Hoff.
  - intros q. unfold mark_proxy_failed.
    destruct (proxy_stats pm !! q) as [sq|] eqn:Hq; simpl;
      [|by rewrite Hp, <- Hoff].
    destruct (decide (q = p)) as [->|Hne].
    + rewrite lookup_insert_eq. simpl. rewrite record_failure_active.
      assert (sq = st) as -> by congruence. by rewrite Hoff.
    + rewrite lookup_insert_ne, Hp by done. by rewrite <- Hoff.
  - intros q rt. unfold mark_proxy_success.
    destruct (proxy_stats pm !! q) as [sq|] eqn:Hq; simpl;
      [|by rewrite Hp, <- Hoff].
    destruct (decide (q = p)) as [->|Hne].
    + rewrite lookup_insert_eq. simpl.
      assert (sq = st) as -> by congruence. by rewrite Hoff.
    + rewrite lookup_insert_ne, Hp by done. by rewrite <- Hoff.
  - simpl. by rewrite lookup_fmap, Hp.
Qed.

(** X4 on the pool whose proxy was disabled by six failures out of ten
    requests. *)
Lemma X4_disabled_proxy_stays_disabled_witness :
  (get_proxy (Fixture.env None Fixture.site_ok) Fixture.config_with_proxy
     (report_failures 6 (pool_after_requests "p" 10) "p") Fixture.world0).1.1
  <> Ok (Some "p").
Proof.
  exact (proj1 (proj1 (X4_disabled_proxy_stays_disabled
                         (report_failures 6 (pool_after_requests "p" 10) "p")
                         "p"
                         {| requests := 10; failures := 6; last_used := 0;
                            response_time := 0; active := false |}
                         ltac:(vm_compute; reflexivity) eq_refl)
                  (Fixture.env None Fixture.site_ok)
                  Fixture.config_with_proxy Fixture.world0)).
Defined.

(** X5. Adding a proxy that the pool does not know and removing it again
    gives back the pool as it was; adding a proxy twice is the same as
    adding it once. *)
Theorem X5_add_then_remove_is_identity (pm : t) (p : string) :
  (p ∉ proxies pm -> proxy_stats pm !! p = None ->
   remove_proxy (add_proxy pm p) p = pm) /\
  add_proxy (add_proxy pm p) p = add_proxy pm p.
Proof.
  split.
  - intros Hp Hs. unfold add_proxy. rewrite decide_False by exact Hp.
    unfold remove_proxy. simpl. rewrite decide_True by set_solver.
    rewrite list_remove_fresh by exact Hp.
    rewrite delete_insert_eq, delete_id by exact Hs. by destruct pm.
  - unfold add_proxy. destruct (decide (p ∈ proxies pm)) as [Hin|Hnin].
    + by rewrite decide_True.
    + simpl. rewrite decide_True by set_solver. reflexivity.
Qed.

(** X5 on the empty pool. *)
Lemma X5_add_then_remove_is_identity_witness :
  remove_proxy (add_proxy (init DEFAULT_CONFIG) "http://p1") "http://p1"
  = init DEFAULT_CONFIG.
Proof.
  apply (proj1 (X5_add_then_remove_is_identity (init DEFAULT_CONFIG)
                  "http://p1")).
  - vm_compute. set_solver.
  - reflexivity.
Defined.

(** X6. [remove_proxy] drops one occurrence of the proxy from the list
    but all of its statistics.  If the proxy was listed more than once
    (a configured [proxy_list] may repeat an address), it is still listed
    afterwards, and the next [get_proxy] raises [KeyError] for it. *)
Theorem X6_removing_a_repeated_proxy_breaks_the_pool
    (E : Env) (cfg : ScrapingConfig) (pm : t) (p : string) (w : World)
    (Hall : forall q, q ∈ proxies pm -> is_Some (proxy_stats pm !! q))
    (Htwice : p ∈ list_remove p (proxies pm)) :
  (get_proxy E cfg (remove_proxy pm p) w).1.1 = Raise (KeyError p).
Proof.
  assert (Hin : p ∈ proxies pm) by (by eapply list_remove_subseteq).
  unfold remove_proxy. rewrite decide_True by exact Hin.
  unfold get_proxy. simpl.
  rewrite (active_proxies_missing _ p).
  - destruct (list_remove p (proxies pm)); [by apply elem_of_nil in Htwice|].
    reflexivity.
  - intros q Hq Hne. rewrite lookup_delete_ne by done.
    apply Hall. by eapply list_remove_subseteq.
  - apply lookup_delete_eq.
  - exact Htwice.
Qed.

(** X6 on a pool configured with the same address twice. *)
Lemma X6_removing_a_repeated_proxy_breaks_the_pool_witness :
  (get_proxy (Fixture.env None Fixture.site_ok) Fixture.config_repeated_proxy
     (remove_proxy (init Fixture.config_repeated_proxy) "http://p1")
     Fixture.world0).1.1
  = Raise (KeyError "http://p1").
Proof.
  apply X6_removing_a_repeated_proxy_breaks_the_pool.
  - intros q Hq. vm_compute in Hq.
    assert (q = "http://p1") as -> by set_solver.
    vm_compute. eauto.
  - vm_compute. set_solver.
Defined.

End ProxyPool.

(** ** The request function, further (core/base_scraper.py) *)

Section RequestAccounting.
Import BaseScraper.
Variable E : Env.

(** What a request, synchronous or not, does to the counters. *)
Lemma make_request_stats (is_async : bool) (s : t) (w : World) (url : string) :
  let out := if is_async then _make_request_async E s w url
             else _make_request_sync E s w url in
  stats_ok (stats s) ->
  stats_ok (stats out.1.2) /\
  (forall resp, out.1.1 = Ok (Some resp) ->
     successful_requests (stats out.1.2) = successful_requests (stats s) + 1 /\
     failed_requests (stats out.1.2) = failed_requests (stats s)) /\
  ((_can_fetch E s w url).1.1 = false -> stats out.1.2 = stats s).
Proof.
  cbv zeta. intros Hok.
  destruct (can_fetch_robots_only E s w url) as (_ & _ & _ & Hst & _).
  assert (Hsend : forall s' w' px,
            stats s' = stats s ->
            stats_ok (stats (send_request E s' w' url px).1.2) /\
            (forall resp, (send_request E s' w' url px).1.1 = Some resp ->
               successful_requests (stats (send_request E s' w' url px).1.2)
               = successful_requests (stats s) + 1 /\
               failed_requests (stats (send_request E s' w' url px).1.2)
               = failed_requests (stats s))).
  { intros s' w' px Hs'. rewrite <- Hs' in Hok |- *.
    destruct Hok as (H1 & H2 & H3). unfold send_request, stats_ok.
    destruct (session_request E w' url px) as [resp|msg];
      [destruct (status_code resp =? 200)|]; simpl;
      (split; [lia|]); intros r Hr; try discriminate; lia. }
  destruct is_async; unfold _make_request_async, _make_request_sync;
    destruct (_can_fetch E s w url) as [[allowed s1] w1]; simpl in Hst |- *;
    (destruct allowed; simpl;
     [|rewrite Hst; split; [exact Hok|]; split; [discriminate|reflexivity]]);
    destruct (_prepare_headers E _ None _) as [hd w2].
  - destruct (proxy_manager s1) as [pm|].
    + destruct (ProxyManager.get_proxy E (config s1) pm _) as [[got pm'] w3].
      destruct got as [proxy|e]; simpl.
      * match goal with
        | |- context [send_request E ?a ?b url ?d] =>
            pose proof (Hsend a b d Hst) as [Ha Hb];
            destruct (send_request E a b url d) as [[r s4] w4]
        end.
        simpl in *. split; [exact Ha|]. split; [|discriminate].
        intros resp [= ->]. exact (Hb resp eq_refl).
      * rewrite Hst. split; [exact Hok|]. split; discriminate.
    + match goal with
      | |- context [send_request E ?a ?b url ?d] =>
          pose proof (Hsend a b d Hst) as [Ha Hb];
          destruct (send_request E a b url d) as [[r s4] w4]
      end.
      simpl in *. split; [exact Ha|]. split; [|discriminate].
      intros resp [= ->]. exact (Hb resp eq_refl).
  - destruct (proxy_manager s1) as [pm|].
    + destruct (ProxyManager.get_proxy E (config s1) pm _) as [[got pm'] w3].
      destruct got as [proxy|e]; simpl.
      * match goal with
        | |- context [send_request E ?a ?b url ?d] =>
            pose proof (Hsend a b d Hst) as [Ha Hb];
            destruct (send_request E a b url d) as [[r s4] w4]
        end.
        simpl in *. split; [exact Ha|]. split; [|discriminate].
        intros resp [= ->]. exact (Hb resp eq_refl).
      * rewrite Hst. split; [exact Hok|]. split; discriminate.
    + match goal with
      | |- context [send_request E ?a ?b url ?d] =>
          pose proof (Hsend a b d Hst) as [Ha Hb];
          destruct (send_request E a b url d) as [[r s4] w4]
      end.
      simpl in *. split; [exact Ha|]. split; [|discriminate].
      intros resp [= ->]. exact (Hb resp eq_refl).
Qed.

Lemma run_requests_stats_ok (urls : list string) :
  forall (s : t) (w : World),
    stats_ok (stats s) -> stats_ok (stats (run_requests E s w urls).1).
Proof.
  induction urls as [|u urls IH]; intros s w Hok; simpl; [exact Hok|].
  pose proof (make_request_stats false s w u Hok) as [H _].
  simpl in H. destruct (_make_request_sync E s w u) as [[r s1] w1].
  by apply IH.
Qed.

(** X7. The request counters add up.  If, before a request, every request
    made has been counted as one success or one failure, the same holds
    after it, for the synchronous and the asynchronous request function
    and after any run of requests.  A returned response is counted as one
    success and no failure; a URL that robots.txt denies is not counted
    at all. *)
Theorem X7_request_counters_add_up
    (s : t) (w : World) (url : string) (Hok : stats_ok (stats s)) :
  stats_ok (stats (_make_request_sync E s w url).1.2) /\
  stats_ok (stats (_make_request_async E s w url).1.2) /\
  (forall resp,
      (_make_request_sync E s w url).1.1 = Ok (Some resp) ->
      successful_requests (stats (_make_request_sync E s w url).1.2)
      = successful_requests (stats s) + 1 /\
      failed_requests (stats (_make_request_sync E s w url).1.2)
      = failed_requests (stats s)) /\
  ((_can_fetch E s w url).1.1 = false ->
   stats (_make_request_sync E s w url).1.2 = stats s) /\
  (forall urls, stats_ok (stats (run_requests E s w urls).1)).
Proof.
  destruct (make_request_stats false s w url Hok) as (H1 & H2 & H3).
  destruct (make_request_stats true s w url Hok) as (H4 & _).
  simpl in *. split; [exact H1|]. split; [exact H4|].
  split; [exact H2|]. split; [exact H3|].
  intros urls. by apply run_requests_stats_ok.
Qed.

(** X8. [get_stats] never divides by zero, and for counters that add up
    the success rate it reports lies between 0 and 1; it is 0 when no
    request was made.  The request rate is 0 when no time has passed. *)
Theorem X8_get_stats_rates_are_bounded
    (s : t) (start_time : Q) (w : World) (Hok : stats_ok (stats s)) :
  (0 <= success_rate (get_stats s start_time w))%Q /\
  (success_rate (get_stats s start_time w) <= 1)%Q /\
  (requests_made (stats s) = 0 ->
   success_rate (get_stats s start_time w) = 0%Q) /\
  ((clock w <= start_time)%Q ->
   requests_per_second (get_stats s start_time w) = 0%Q) /\
  (0 <= requests_per_second (get_stats s start_time w))%Q.
Proof.
  destruct Hok as (H1 & H2 & H3). unfold get_stats. simpl.
  assert (Hinj : forall a b : Z, a <= b -> (inject_Z a <= inject_Z b)%Q).
  { intros a b Hab. unfold Qle. simpl. lia. }
  assert (Hpos : forall a : Z, 0 < a -> (0 < inject_Z a)%Q).
  { intros a Ha. unfold Qlt. simpl. lia. }
  repeat split.
  - destruct (0 <? requests_made (stats s)) eqn:Hr; [|lra].
    apply Z.ltb_lt in Hr. apply Qle_shift_div_l; [by apply Hpos|].
    rewrite Qmult_0_l. by apply (Hinj 0).
  - destruct (0 <? requests_made (stats s)) eqn:Hr; [|lra].
    apply Z.ltb_lt in Hr. apply Qle_shift_div_r; [by apply Hpos|].
    rewrite Qmult_1_l. apply Hinj. lia.
  - intros ->. reflexivity.
  - intros Hle. destruct (Qltb 0 (clock w - start_time)) eqn:Hq;
      [|reflexivity].
    apply Qltb_lt in Hq. lra.
  - destruct (Qltb 0 (clock w - start_time)) eqn:Hq; [|lra].
    apply Qltb_lt in Hq. apply Qle_shift_div_l; [exact Hq|].
    rewrite Qmult_0_l. apply (Hinj 0). lia.
Qed.

(** X9. robots.txt is read at most once per host.  After a first check of
    a URL with robots checking on, the cache holds an entry for the host
    of the URL; the entry survives any run of requests, and a later check
    of any URL of that host is answered from it (allowed when the entry
    is the empty one, else what the cached parser says), leaving the
    scraper and the world as they are: no second read. *)
Theorem X9_robots_read_once_per_host
    (s : t) (w : World) (url url' : string) (later : list string)
    (Hrespect : respect_robots_txt (config s) = true)
    (Hhost : url_domain E url' = url_domain E url) :
  let '(allowed, s1, w1) := _can_fetch E s w url in
  let '(s2, w2) := run_requests E s1 w1 later in
  exists entry,
    robots_cache s1 !! url_domain E url = Some entry /\
    robots_cache s2 !! url_domain E url = Some entry /\
    allowed = match entry with
              | Some rp => can_fetch rp "*" url
              | None => true
              end /\
    _can_fetch E s2 w2 url'
    = (match entry with
       | Some rp => can_fetch rp "*" url'
       | None => true
       end, s2, w2).
Proof.
  unfold _can_fetch at 1. unfold _get_robots_parser. rewrite Hrespect. simpl.
  assert (Hlater : forall s1 w1 entry,
            config s1 = config s ->
            robots_cache s1 !! url_domain E url = Some entry ->
            let '(s2, w2) := run_requests E s1 w1 later in
            robots_cache s2 !! url_domain E url = Some entry /\
            _can_fetch E s2 w2 url'
            = (match entry with
               | Some rp => can_fetch rp "*" url'
               | None => true
               end, s2, w2)).
  { intros s1 w1 entry Hcfg Hc.
    pose proof (run_requests_keeps_cached E later s1 w1 _ _ Hc) as [Hc2 Hcfg2].
    destruct (run_requests E s1 w1 later) as [s2 w2]. simpl in *.
    split; [exact Hc2|]. unfold _can_fetch, _get_robots_parser.
    rewrite Hcfg2, Hcfg, Hrespect, Hhost, Hc2. simpl. by destruct entry. }
  destruct (robots_cache s !! url_domain E url) as [cached|] eqn:Hc.
  - specialize (Hlater s w cached eq_refl Hc).
    destruct cached as [rp|];
      destruct (run_requests E s w later) as [s2 w2];
      destruct Hlater as [H1 H2]; eexists; eauto.
  - destruct (robots_read E w (urljoin E (url_domain E url) "/robots.txt"))
      as [rp|] eqn:Hread; simpl;
      match goal with
      | |- context [run_requests E ?a ?b later] =>
          specialize (Hlater a b
                        (robots_read E w
                           (urljoin E (url_domain E url) "/robots.txt"))
                        eq_refl);
          simpl in Hlater; rewrite Hread, lookup_insert_eq in Hlater;
          specialize (Hlater eq_refl);
          destruct (run_requests E a b later) as [s2 w2]
      end;
      destruct Hlater as [H1 H2]; eexists; rewrite lookup_insert_eq; eauto.
Qed.




End RequestAccounting.

(** X7 on a fresh scraper. *)
Lemma X7_request_counters_add_up_witness :
  stats_ok (BaseScraper.stats
              (BaseScraper._make_request_sync
                 (Fixture.env None Fixture.site_b_broken)
                 (BaseScraper.init DEFAULT_CONFIG) Fixture.world0
                 "https://example.com/b").1.2).
Proof.
  apply (X7_request_counters_add_up (Fixture.env None Fixture.site_b_broken)
           (BaseScraper.init DEFAULT_CONFIG) Fixture.world0
           "https://example.com/b").
  vm_compute. repeat split; discriminate.
Defined.

(** X8 after one successful and one failed request: a rate of one half. *)
Lemma X8_get_stats_rates_are_bounded_witness :
  let s := (run_requests (Fixture.env None Fixture.site_b_broken)
              (BaseScraper.init DEFAULT_CONFIG) Fixture.world0
              ["https://example.com/a"; "https://example.com/b"]).1 in
  (BaseScraper.success_rate (BaseScraper.get_stats s 0 Fixture.world0)
   == 1 # 2)%Q /\
  (BaseScraper.success_rate (BaseScraper.get_stats s 0 Fixture.world0) <= 1)%Q.
Proof.
  split; [vm_compute; reflexivity|].
  apply (X8_get_stats_rates_are_bounded
           (run_requests (Fixture.env None Fixture.site_b_broken)
              (BaseScraper.init DEFAULT_CONFIG) Fixture.world0
              ["https://example.com/a"; "https://example.com/b"]).1
           0 Fixture.world0).
  vm_compute. repeat split; discriminate.
Defined.

(** X9 on a host whose robots.txt disallows everything: the second check
    is answered from the cache. *)
Lemma X9_robots_read_once_per_host_witness :
  let E := Fixture.env (Some Fixture.robots_deny) Fixture.site_ok in
  let '(allowed, s1, w1) :=
    BaseScraper._can_fetch E (BaseScraper.init DEFAULT_CONFIG) Fixture.world0
      "https://example.com/a" in
  let '(s2, w2) := run_requests E s1 w1 ["https://example.com/b"] in
  exists entry,
    BaseScraper.robots_cache s1 !! url_domain E "https://example.com/a"
    = Some entry /\
    BaseScraper.robots_cache s2 !! url_domain E "https://example.com/a"
    = Some entry /\
    allowed = match entry with
              | Some rp => can_fetch rp "*" "https://example.com/a"
              | None => true
              end /\
    BaseScraper._can_fetch E s2 w2 "https://example.com/c"
    = (match entry with
       | Some rp => can_fetch rp "*" "https://example.com/c"
       | None => true
       end, s2, w2).
Proof.
  exact (X9_robots_read_once_per_host
           (Fixture.env (Some Fixture.robots_deny) Fixture.site_ok)
           (BaseScraper.init DEFAULT_CONFIG) Fixture.world0
           "https://example.com/a" "https://example.com/c"
           ["https://example.com/b"] eq_refl eq_refl).
Defined.

(** ** Duplicate statistics and URL cleaning (utils/data_processor.py) *)

Section Deduplication.
Import DataProcessor.
Variable E : Env.

Lemma is_duplicate_effect (dp : t) (data : json) :
  seen_hashes (is_duplicate E dp data).2
  = seen_hashes dp ∪ {[ calculate_hash E data ]} /\
  Z.of_nat (size (seen_hashes (is_duplicate E dp data).2))
  + duplicate_count (is_duplicate E dp data).2
  = Z.of_nat (size (seen_hashes dp)) + duplicate_count dp + 1 /\
  duplicate_count dp <= duplicate_count (is_duplicate E dp data).2.
Proof.
  unfold is_duplicate. case_decide as Hin; simpl.
  - split; [set_solver|]. split; lia.
  - split; [reflexivity|]. split; [|lia].
    rewrite size_union by set_solver. rewrite size_singleton. lia.
Qed.

Lemma admit_all_effect (l : list json) :
  forall dp : t,
    seen_hashes (admit_all E dp l)
    = seen_hashes dp ∪ list_to_set (calculate_hash E <$> l) /\
    Z.of_nat (size (seen_hashes (admit_all E dp l)))
    + duplicate_count (admit_all E dp l)
    = Z.of_nat (size (seen_hashes dp)) + duplicate_count dp
      + Z.of_nat (length l) /\
    duplicate_count dp <= duplicate_count (admit_all E dp l).
Proof.
  induction l as [|x l IH]; intros dp.
  - simpl. split; [set_solver|]. split; lia.
  - destruct (is_duplicate_effect dp x) as (H1 & H2 & H3).
    destruct (IH (is_duplicate E dp x).2) as (H4 & H5 & H6).
    change (admit_all E dp (x :: l))
      with (admit_all E (is_duplicate E dp x).2 l).
    split; [|split].
    + rewrite H4, H1. set_solver.
    + rewrite H5. simpl length. lia.
    + lia.
Qed.

(** X11. Starting from a fresh processor, after the items of a list have
    been admitted the set of seen fingerprints is the set of the
    fingerprints of the items, and [get_duplicate_stats] reports the
    number of admissions as [total_processed], the number of distinct
    fingerprints as [unique_items], the rest as [duplicates_found], and a
    duplicate rate between 0 and 1 (0 for no admission, without a
    division by zero). *)
Theorem X11_duplicate_stats_count_admissions (l : list json) :
  let dp := admit_all E init l in
  let hashes : gset string := list_to_set (calculate_hash E <$> l) in
  seen_hashes dp = hashes /\
  total_processed (get_duplicate_stats dp) = Z.of_nat (length l) /\
  unique_items (get_duplicate_stats dp) = Z.of_nat (size hashes) /\
  duplicates_found (get_duplicate_stats dp)
  = Z.of_nat (length l) - Z.of_nat (size hashes) /\
  (0 <= duplicate_rate (get_duplicate_stats dp))%Q /\
  (duplicate_rate (get_duplicate_stats dp) <= 1)%Q /\
  (l = [] -> duplicate_rate (get_duplicate_stats dp) = 0%Q).
Proof.
  cbv zeta. destruct (admit_all_effect l init) as (H1 & H2 & H3).
  assert (H0 : size (seen_hashes init) = 0%nat) by apply size_empty.
  rewrite H0 in H2. change (duplicate_count init) with 0 in H2, H3.
  change (seen_hashes init) with (∅ : gset string) in H1.
  assert (Hseen : seen_hashes (admit_all E init l)
                  = list_to_set (calculate_hash E <$> l)).
  { rewrite H1. set_solver. }
  assert (Hinj : forall a b : Z, a <= b -> (inject_Z a <= inject_Z b)%Q).
  { intros a b Hab. unfold Qle. simpl. lia. }
  assert (Hpos : forall a : Z, 0 < a -> (0 < inject_Z a)%Q).
  { intros a Ha. unfold Qlt. simpl. lia. }
  unfold get_duplicate_stats. simpl. rewrite <- Hseen.
  split; [reflexivity|]. split; [lia|]. split; [reflexivity|].
  split; [lia|].
  split; [|split].
  - destruct (0 <? _) eqn:Hr; [|lra].
    apply Z.ltb_lt in Hr. apply Qle_shift_div_l; [by apply Hpos|].
    rewrite Qmult_0_l. by apply (Hinj 0).
  - destruct (0 <? _) eqn:Hr; [|lra].
    apply Z.ltb_lt in Hr. apply Qle_shift_div_r; [by apply Hpos|].
    rewrite Qmult_1_l. apply Hinj. lia.
  - intros ->. reflexivity.
Qed.

(** X12. After any run of admissions, an item is reported as a duplicate
    exactly when its fingerprint was already seen before the run or is
    the fingerprint of an item of the run; the order and the number of
    the earlier admissions do not matter. *)
Theorem X12_duplicate_iff_fingerprint_seen
    (dp : t) (l : list json) (data : json) :
  (is_duplicate E (admit_all E dp l) data).1 = true <->
  calculate_hash E data ∈ seen_hashes dp \/
  calculate_hash E data ∈ calculate_hash E <$> l.
Proof.
  rewrite is_duplicate_result, bool_decide_eq_true.
  destruct (admit_all_effect l dp) as (-> & _). set_solver.
Qed.

End Deduplication.

Section CleanUrl.
Import DataProcessor.

Lemma prefix_nil (s : string) : String.prefix "" s = true.
Proof. by destruct s. Qed.

Lemma prefix_cons (a b : ascii) (s1 s2 : string) :
  String.prefix (String a s1) (String b s2)
  = if ascii_dec a b then String.prefix s1 s2 else false.
Proof. reflexivity. Qed.

Lemma prefix_app_iff (p s : string) :
  String.prefix p s = true <-> exists r, s = p +:+ r.
Proof.
  revert s. induction p as [|a p IH]; intros s.
  - rewrite prefix_nil. split; [intros _; by exists s|done].
  - destruct s as [|b s].
    + split; [discriminate|]. intros [r Hr]. discriminate.
    + rewrite prefix_cons. destruct (ascii_dec a b) as [->|Hne].
      * rewrite IH. split; intros [r Hr]; exists r.
        -- by rewrite Hr.
        -- by injection Hr.
      * split; [discriminate|]. intros [r Hr]. injection Hr. congruence.
Qed.

Lemma before_hash_idem (s : string) : before_hash (before_hash s) = before_hash s.
Proof.
  induction s as [|c s IH]; simpl; [reflexivity|].
  destruct (Ascii.eqb c "#") eqn:Hc; simpl; [reflexivity|].
  by rewrite Hc, IH.
Qed.

Lemma before_hash_https (s : string) :
  before_hash ("https://" +:+ s) = "https://" +:+ before_hash s /\
  before_hash ("https:" +:+ s) = "https:" +:+ before_hash s.
Proof. split; reflexivity. Qed.

Lemma has_scheme_head (r : string) :
  String.prefix "http://" r || String.prefix "https://" r = true ->
  exists r', r = String "h" r'.
Proof.
  intros [H|H]%orb_true_iff; apply prefix_app_iff in H as [x ->]; eauto.
Qed.

(** A URL with a scheme and without fragment is left as it is. *)
Lemma clean_url_fixed (r : string) :
  before_hash r = r ->
  String.prefix "http://" r || String.prefix "https://" r = true ->
  clean_url r = r.
Proof.
  intros Hh Hp. destruct (has_scheme_head r Hp) as [r' ->].
  unfold clean_url. rewrite Hh, Hp. cbn [str_truthy negb].
  rewrite prefix_cons.
  destruct (ascii_dec "/" "h"); [discriminate|reflexivity].
Qed.

(** X13. [clean_url] gives the empty string for the empty string.  For any
    other input the result starts with [http://] or [https://] and has no
    fragment (no ['#']), and cleaning a cleaned URL changes nothing. *)
Theorem X13_clean_url_normal_form (url : string) :
  clean_url "" = "" /\
  (url <> "" ->
   String.prefix "http://" (clean_url url)
   || String.prefix "https://" (clean_url url) = true) /\
  before_hash (clean_url url) = clean_url url /\
  clean_url (clean_url url) = clean_url url.
Proof.
  split; [reflexivity|].
  assert (Hshape : url <> "" ->
            (String.prefix "http://" (clean_url url)
             || String.prefix "https://" (clean_url url) = true) /\
            before_hash (clean_url url) = clean_url url).
  { intros Hne. unfold clean_url.
    destruct url as [|c0 u0]; [done|]. cbn [str_truthy negb].
    pose proof (before_hash_idem (String c0 u0)) as Hidem.
    set (u1 := before_hash (String c0 u0)) in *.
    destruct (String.prefix "//" u1) eqn:H1.
    - destruct (before_hash_https u1) as [_ ->]. rewrite Hidem.
      split; [|reflexivity].
      apply prefix_app_iff in H1 as [x ->].
      apply orb_true_iff. right. apply prefix_app_iff. by exists x.
    - destruct (String.prefix "http://" u1 || String.prefix "https://" u1)
        eqn:H2; cbn [negb].
      + split; [exact H2|exact Hidem].
      + destruct (before_hash_https u1) as [-> _]. rewrite Hidem.
        split; [|reflexivity].
        apply orb_true_iff. right. apply prefix_app_iff. by exists u1. }
  destruct (decide (url = "")) as [->|Hne].
  - split; [done|]. split; reflexivity.
  - destruct (Hshape Hne) as [Hp Hh]. split; [done|]. split; [exact Hh|].
    by apply clean_url_fixed.
Qed.

(** X13 on a protocol-relative URL with a fragment. *)
Lemma X13_clean_url_normal_form_witness :
  clean_url "//example.com/a#top" = "https://example.com/a" /\
  clean_url (clean_url "//example.com/a#top") = clean_url "//example.com/a#top".
Proof.
  split; [reflexivity|].
  exact (proj2 (proj2 (proj2 (X13_clean_url_normal_form
                                "//example.com/a#top")))).
Defined.

End CleanUrl.

(** ** Finding the next page (utils/pagination_handler.py) *)

Section NextPage.
Import PaginationHandler.
Variable E : Env.

Lemma first_next_cons (soup : Soup) (current_url selector : string)
    (rest : list string) :
  first_next E soup current_url (selector :: rest)
  = match first_href soup selector with
    | Some href => Some (urljoin E current_url href)
    | None => first_next E soup current_url rest
    end.
Proof.
  unfold first_href. simpl.
  destruct (soup selector) as [|[href|] els]; try reflexivity.
  by destruct (str_truthy href).
Qed.

Lemma first_next_spec (soup : Soup) (current_url : string)
    (selectors : list string) (u : string) :
  first_next E soup current_url selectors = Some u <->
  exists before selector after href,
    selectors = before ++ selector :: after /\
    Forall (fun sel => first_href soup sel = None) before /\
    first_href soup selector = Some href /\
    u = urljoin E current_url href.
Proof.
  induction selectors as [|sel sels IH].
  - split; [discriminate|]. intros (before & ? & ? & ? & Heq & _).
    by destruct before.
  - rewrite first_next_cons. destruct (first_href soup sel) as [href|] eqn:Hf.
    + split.
      * intros [= <-]. exists [], sel, sels, href. repeat split; auto.
      * intros (before & selector & after & href' & Heq & Hall & Hh & ->).
        destruct before as [|b before]; simpl in Heq.
        -- injection Heq as -> ->. congruence.
        -- injection Heq as -> ->. apply Forall_cons_1 in Hall as [Hb _].
           congruence.
    + rewrite IH. split.
      * intros (before & selector & after & href' & -> & Hall & Hh & ->).
        exists (sel :: before), selector, after, href'.
        repeat split; auto.
      * intros (before & selector & after & href' & Heq & Hall & Hh & ->).
        destruct before as [|b before]; simpl in Heq.
        -- injection Heq as -> ->. congruence.
        -- injection Heq as -> ->. apply Forall_cons_1 in Hall as [_ Hall].
           exists before, selector, after, href'. repeat split; auto.
Qed.

Lemma first_next_None (soup : Soup) (current_url : string)
    (selectors : list string) :
  first_next E soup current_url selectors = None <->
  Forall (fun sel => first_href soup sel = None) selectors.
Proof.
  induction selectors as [|sel sels IH]; [done|].
  rewrite first_next_cons, Forall_cons.
  destruct (first_href soup sel); [|rewrite IH]; naive_solver.
Qed.

(** X14. [get_next_page_url] tries the next-link selectors in their order
    of priority and looks only at the first element each one matches: it
    returns the [href] of that element, joined to the current URL, for the
    first selector whose first match has a non-empty [href]; a selector
    whose first match has none is passed over.  It returns [None] exactly
    when no selector offers a link.  The [rel] selector comes first, so
    its link wins over all others. *)
Theorem X14_next_link_by_priority (soup : Soup) (current_url : string) :
  (forall u,
      get_next_page_url E soup current_url = Some u <->
      exists before selector after href,
        next_link = before ++ selector :: after /\
        Forall (fun sel => first_href soup sel = None) before /\
        first_href soup selector = Some href /\
        u = urljoin E current_url href) /\
  (get_next_page_url E soup current_url = None <->
   Forall (fun sel => first_href soup sel = None) next_link) /\
  (forall href,
      first_href soup ("a[rel=" +:+ dq +:+ "next" +:+ dq +:+ "]") = Some href ->
      get_next_page_url E soup current_url
      = Some (urljoin E current_url href)).
Proof.
  split; [|split].
  - intros u. apply first_next_spec.
  - apply first_next_None.
  - intros href Hh. unfold get_next_page_url, next_link.
    by rewrite first_next_cons, Hh.
Qed.

(** X15. The two functions agree on what a next link is: whenever
    [get_next_page_url] finds a next page, [detect_pagination_type] says
    [next_link]. *)
Theorem X15_found_next_link_is_detected
    (soup : Soup) (current_url u : string)
    (Hnext : get_next_page_url E soup current_url = Some u) :
  detect_pagination_type soup = "next_link".
Proof.
  apply first_next_spec in Hnext
    as (before & selector & after & href & Heq & _ & Hh & _).
  unfold detect_pagination_type.
  assert (existsb (fun selector => has_elements (soup selector)) next_link
          = true) as ->; [|reflexivity].
  apply existsb_exists. exists selector. split.
  - rewrite Heq. apply in_or_app. right. by left.
  - unfold first_href in Hh. by destruct (soup selector).
Qed.

Lemma collect_page_urls_spec (current_url : string)
    (elements : list (option string)) :
  forall page_urls,
    NoDup page_urls ->
    NoDup (collect_page_urls E current_url elements page_urls) /\
    (forall u,
        u ∈ collect_page_urls E current_url elements page_urls <->
        u ∈ page_urls \/
        exists href, Some href ∈ elements /\ str_truthy href = true /\
                     u = urljoin E current_url href).
Proof.
  induction elements as [|[href|] els IH]; intros acc Hnd; simpl.
  - split; [exact Hnd|]. intros u. split; [by left|].
    intros [Hu|(href & Hin & _)]; [exact Hu|by apply elem_of_nil in Hin].
  - destruct (str_truthy href) eqn:Ht.
    + case_decide as Hin.
      * destruct (IH acc Hnd) as [H1 H2]. split; [exact H1|].
        intros u. rewrite H2. split.
        -- intros [Hu|(h & Hh & Hth & ->)]; [by left|].
           right. exists h. split; [by right|done].
        -- intros [Hu|(h & Hh & Hth & ->)]; [by left|].
           apply elem_of_cons in Hh as [[= ->]|Hh]; [by left|].
           right. eauto.
      * assert (Hnd' : NoDup (acc ++ [urljoin E current_url href])).
        { apply NoDup_app. split; [exact Hnd|].
          split; [|apply NoDup_singleton].
          intros x Hx Hx'%list_elem_of_singleton. by subst. }
        destruct (IH _ Hnd') as [H1 H2]. split; [exact H1|].
        intros u. rewrite H2, elem_of_app, list_elem_of_singleton. split.
        -- intros [[Hu| ->]|(h & Hh & Hth & ->)]; [by left| |].
           ++ right. exists href. split; [by left|done].
           ++ right. exists h. split; [by right|done].
        -- intros [Hu|(h & Hh & Hth & ->)]; [left; by left|].
           apply elem_of_cons in Hh as [[= ->]|Hh]; [left; by right|].
           right. eauto.
    + destruct (IH acc Hnd) as [H1 H2]. split; [exact H1|].
      intros u. rewrite H2. split.
      * intros [Hu|(h & Hh & Hth & ->)]; [by left|].
        right. exists h. split; [by right|done].
      * intros [Hu|(h & Hh & Hth & ->)]; [by left|].
        apply elem_of_cons in Hh as [[= ->]|Hh]; [congruence|].
        right. eauto.
  - destruct (IH acc Hnd) as [H1 H2]. split; [exact H1|].
    intros u. rewrite H2. split.
    + intros [Hu|(h & Hh & Hth & ->)]; [by left|].
      right. exists h. split; [by right|done].
    + intros [Hu|(h & Hh & Hth & ->)]; [by left|].
      apply elem_of_cons in Hh as [[=]|Hh]. right. eauto.
Qed.

Lemma limit_pages_spec (max_pages : option Z) (l : list string) :
  limit_pages max_pages l `sublist_of` l /\
  (forall n, max_pages = Some n -> 0 < n ->
             Z.of_nat (length (limit_pages max_pages l)) <= n) /\
  (max_pages_truthy max_pages = false -> limit_pages max_pages l = l).
Proof.
  unfold limit_pages, py_take, max_pages_truthy.
  destruct max_pages as [n|]; [|repeat split; [done|discriminate]].
  destruct (negb (n =? 0) && (n <=? Z.of_nat (length l))) eqn:Hc.
  - apply andb_true_iff in Hc as [Hn Hle]. apply Z.leb_le in Hle.
    split; [destruct (0 <=? n); apply sublist_take|].
    split; [|intros Hf; by rewrite Hf in Hn].
    intros ? [= <-] Hpos.
    replace (0 <=? n) with true by (symmetry; apply Z.leb_le; lia).
    rewrite length_take. lia.
  - split; [done|]. split; [|done].
    intros ? [= <-] Hpos. apply andb_false_iff in Hc as [Hc|Hc].
    + apply negb_false_iff, Z.eqb_eq in Hc. lia.
    + apply Z.leb_gt in Hc. lia.
Qed.

Lemma all_page_urls_loop_spec (soup : Soup) (current_url : string)
    (max_pages : option Z) (selectors : list string) :
  NoDup (all_page_urls_loop E soup current_url max_pages selectors) /\
  (forall u,
      u ∈ all_page_urls_loop E soup current_url max_pages selectors ->
      exists selector href,
        selector ∈ selectors /\ Some href ∈ soup selector /\
        str_truthy href = true /\ u = urljoin E current_url href) /\
  (forall n, max_pages = Some n -> 0 < n ->
     Z.of_nat (length (all_page_urls_loop E soup current_url max_pages
                         selectors)) <= n) /\
  (max_pages_truthy max_pages = false ->
   forall before selector after href,
     selectors = before ++ selector :: after ->
     Forall (fun sel => soup sel = []) before ->
     Some href ∈ soup selector -> str_truthy href = true ->
     urljoin E current_url href
     ∈ all_page_urls_loop E soup current_url max_pages selectors).
Proof.
  induction selectors as [|sel sels IH]; simpl.
  - split; [constructor|]. split; [intros u Hu; by apply elem_of_nil in Hu|].
    split; [intros; simpl; lia|].
    intros _ before ? ? ? Heq. by destruct before.
  - destruct (collect_page_urls_spec current_url (soup sel) [])
      as [Hnd Hin]; [constructor|].
    destruct (limit_pages_spec max_pages
                (collect_page_urls E current_url (soup sel) []))
      as (Hsub & Hlen & Hall).
    destruct (has_elements (soup sel)) eqn:He.
    + split; [by eapply sublist_NoDup|].
      split; [|split; [exact Hlen|]].
      * intros u Hu. eapply sublist_subseteq in Hu; [|exact Hsub].
        apply Hin in Hu as [Hu|(href & Hh & Ht & ->)];
          [by apply elem_of_nil in Hu|].
        exists sel, href. repeat split; auto. by left.
      * intros Hf before selector after href Heq Hempty Hh Ht.
        rewrite (Hall Hf). apply Hin. right.
        destruct before as [|b before]; simpl in Heq.
        -- injection Heq as -> ->. eauto.
        -- injection Heq as -> ->. apply Forall_cons_1 in Hempty as [Hb _].
           by rewrite Hb in He.
    + destruct IH as (IH1 & IH2 & IH3 & IH4).
      split; [exact IH1|]. split; [|split; [exact IH3|]].
      * intros u Hu. destruct (IH2 u Hu) as (selector & href & Hs & Hrest).
        exists selector, href. split; [by right|exact Hrest].
      * intros Hf before selector after href Heq Hempty Hh Ht.
        destruct before as [|b before]; simpl in Heq.
        -- injection Heq as Hs _. rewrite <- Hs in Hh.
           destruct (soup sel); [|discriminate].
           by apply elem_of_nil in Hh.
        -- injection Heq as -> ->. apply Forall_cons_1 in Hempty as [_ Hempty].
           by eapply IH4.
Qed.

(** X16. [get_all_page_urls] returns page URLs without repetition, each
    the [href] of an element matched by a page-number selector, joined to
    the current URL.  With a positive [max_pages] it returns at most
    [max_pages] URLs.  Without a limit it returns the URL of every element
    with an [href] that the first matching selector matches. *)
Theorem X16_page_urls_distinct_and_limited
    (soup : Soup) (current_url : string) (max_pages : option Z) :
  NoDup (get_all_page_urls E soup current_url max_pages) /\
  (forall u,
      u ∈ get_all_page_urls E soup current_url max_pages ->
      exists selector href,
        selector ∈ page_numbers /\ Some href ∈ soup selector /\
        str_truthy href = true /\ u = urljoin E current_url href) /\
  (forall n, max_pages = Some n -> 0 < n ->
     Z.of_nat (length (get_all_page_urls E soup current_url max_pages)) <= n) /\
  (max_pages_truthy max_pages = false ->
   forall before selector after href,
     page_numbers = before ++ selector :: after ->
     Forall (fun sel => soup sel = []) before ->
     Some href ∈ soup selector -> str_truthy href = true ->
     urljoin E current_url href
     ∈ get_all_page_urls E soup current_url max_pages).
Proof. apply all_page_urls_loop_spec. Qed.

End NextPage.

(** X15 on a page whose [a.next] link points to page 2. *)
Lemma X15_found_next_link_is_detected_witness :
  PaginationHandler.detect_pagination_type
    (Fixture.soup_of "https://example.com/page2")
  = "next_link".
Proof.
  exact (X15_found_next_link_is_detected (Fixture.env None Fixture.site_ok)
           (Fixture.soup_of "https://example.com/page2")
           "https://example.com/page1" "https://example.com/page2" eq_refl).
Defined.

(** X16 on numbered links with a repetition, limited to two pages. *)
Lemma X16_page_urls_distinct_and_limited_witness :
  PaginationHandler.get_all_page_urls (Fixture.env None Fixture.site_ok)
    Fixture.soup_numbered "https://example.com/" (Some 2)
  = ["https://example.com/p1"; "https://example.com/p2"] /\
  Z.of_nat (length (PaginationHandler.get_all_page_urls
                      (Fixture.env None Fixture.site_ok)
                      Fixture.soup_numbered "https://example.com/" (Some 2)))
  <= 2.
Proof.
  split; [vm_compute; reflexivity|].
  apply (proj1 (proj2 (proj2 (X16_page_urls_distinct_and_limited
                                (Fixture.env None Fixture.site_ok)
                                Fixture.soup_numbered "https://example.com/"
                                (Some 2)))) 2 eq_refl).
  lia.
Defined.

(** ** Results and accounting of the web scraper (scrapers/web_scraper.py) *)

Section Results.
Import WebScraper.
Variable E : Env.

Lemma record_outcome_results (s : t) (w : World) (url : string)
    (got : Res (option record)) :
  results_distinct E s ->
  results_distinct E (record_outcome E s w url got).1.2.
Proof.
  intros [Hnd Hseen]. unfold record_outcome, results_distinct.
  destruct got as [[result|]|e].
  - destruct (dict_truthy result); [|by split].
    unfold DataProcessor.is_duplicate. case_decide as Hin; simpl;
      [by split|].
    split.
    + unfold fingerprints. rewrite fmap_app. apply NoDup_app.
      split; [exact Hnd|]. split; [|apply NoDup_singleton].
      intros h Hh Hh'%list_elem_of_singleton. subst h.
      by apply Hseen in Hh.
    + intros h. unfold fingerprints. rewrite fmap_app, elem_of_app.
      intros [Hh|Hh%list_elem_of_singleton]; [|set_solver].
      apply Hseen in Hh. set_solver.
  - by split.
  - destruct (is_Exception e); by split.
Qed.

Lemma record_outcome_accounted (s : t) (w : World) (url : string)
    (got : Res (option record)) :
  accounted (record_outcome E s w url got).1.2
  = accounted s + accounted_for (record_outcome E s w url got).1.1.
Proof.
  unfold record_outcome, accounted.
  destruct got as [[result|]|e].
  - destruct (dict_truthy result).
    + unfold DataProcessor.is_duplicate. case_decide as Hin; simpl;
        [lia|]. rewrite length_app. simpl. lia.
    + simpl. rewrite length_app. simpl. lia.
  - simpl. rewrite length_app. simpl. lia.
  - destruct (is_Exception e); simpl; [|lia].
    rewrite length_app. simpl. lia.
Qed.

Lemma run_scraper_results (s : t) (w : World) (url : string)
    (selectors : option (list (string * string)))
    (use_browser is_async : bool) :
  (results_distinct E s ->
   results_distinct E
     (run_scraper E s w url selectors use_browser is_async).1.2) /\
  accounted (run_scraper E s w url selectors use_browser is_async).1.2
  = accounted s.
Proof.
  pose proof (run_scraper_frame E s w url selectors use_browser is_async) as H.
  destruct (run_scraper E s w url selectors use_browser is_async)
    as [[got s1] w1].
  destruct H as (_ & He & Hr & Hd). simpl.
  unfold results_distinct, accounted. rewrite He, Hr, Hd. auto.
Qed.

Lemma scrape_single_results (is_async : bool) (s : t) (w : World)
    (url : string) (selectors : option (list (string * string)))
    (use_browser : bool) :
  let out := if is_async
             then scrape_single_url_async E s w url selectors use_browser
             else scrape_single_url E s w url selectors use_browser in
  (results_distinct E s -> results_distinct E out.1.2) /\
  accounted out.1.2 = accounted s + accounted_for out.1.1.
Proof.
  cbv zeta.
  destruct is_async; unfold scrape_single_url_async, scrape_single_url.
  - pose proof (run_scraper_results s (log (EvLogScraping url) w) url
                  selectors use_browser true) as [H1 H2].
    destruct (run_scraper E s _ url selectors use_browser true)
      as [[got s1] w1].
    simpl in H1, H2.
    pose proof (record_outcome_results s1 w1 url got) as H3.
    pose proof (record_outcome_accounted s1 w1 url got) as H4.
    destruct (record_outcome E s1 w1 url got) as [[r s2] w2].
    simpl in *. split; [auto|lia].
  - pose proof (run_scraper_results s (log (EvLogScraping url) w) url
                  selectors use_browser false) as [H1 H2].
    destruct (run_scraper E s _ url selectors use_browser false)
      as [[got s1] w1].
    simpl in H1, H2.
    pose proof (record_outcome_results s1 w1 url got) as H3.
    pose proof (record_outcome_accounted s1 w1 url got) as H4.
    destruct (record_outcome E s1 w1 url got) as [[r s2] w2].
    simpl in *. split; [auto|lia].
Qed.

Lemma gather_results (urls : list string)
    (selectors : option (list (string * string))) (use_browser : bool) :
  forall (s : t) (w : World),
    let '(gathered, s1, w1) := gather E s w urls selectors use_browser in
    (results_distinct E s -> results_distinct E s1) /\
    accounted s1 + Z.of_nat (count_raised gathered)
    = accounted s + Z.of_nat (length urls).
Proof.
  induction urls as [|url urls IH]; intros s w; simpl.
  - split; [auto|lia].
  - pose proof (scrape_single_results true s w url selectors use_browser)
      as [H1 H2].
    simpl in H1, H2.
    destruct (scrape_single_url_async E s w url selectors use_browser)
      as [[r s1] w1].
    simpl in H1, H2. specialize (IH s1 w1).
    destruct (gather E s1 w1 urls selectors use_browser) as [[rs s2] w2].
    destruct IH as [H3 H4]. split; [auto|].
    destruct r as [o|e]; simpl in *; lia.
Qed.

Lemma page_soup_results (s : t) (w : World) (current_url : string)
    (result : record) (use_browser : bool) :
  results_distinct E s ->
  results_distinct E (page_soup E s w current_url result use_browser).1.2.
Proof.
  intros Hinv. unfold page_soup.
  destruct (dict_has "page_source" result).
  - destruct (dict_get "page_source" result) as [[| | |src| |]|]; auto.
  - destruct use_browser.
    + destruct (browser_page_source E w) as [src|]; auto.
      destruct (str_truthy src); auto.
    + destruct (BaseScraper._make_request_sync E (html_scraper s) w
                  current_url) as [[got h] w1].
      destruct got as [[response|]|e]; exact Hinv.
Qed.

Lemma pagination_loop_results
    (selectors : option (list (string * string))) (max_pages : option Z)
    (use_browser : bool) (fuel : nat) :
  forall (s : t) (w : World) (current_url : string) (page_count : Z)
         (all_results : list record) out,
    results_distinct E s ->
    pagination_loop E selectors max_pages use_browser fuel s w
      current_url page_count all_results = Some out ->
    results_distinct E out.1.2.
Proof.
  induction fuel as [|fuel IH]; intros s w cur pc acc out Hinv Hrun;
    simpl in Hrun; [discriminate|].
  destruct (keep_walking cur max_pages pc); [|by injection Hrun as <-].
  pose proof (proj1 (scrape_single_results false s w cur selectors
                       use_browser) Hinv) as H1.
  simpl in H1.
  destruct (scrape_single_url E s w cur selectors use_browser)
    as [[got s1] w1].
  simpl in H1.
  destruct got as [[result|]|e]; try (by injection Hrun as <-).
  destruct (dict_truthy result); [|by injection Hrun as <-].
  pose proof (page_soup_results s1 w1 cur result use_browser H1) as H2.
  destruct (page_soup E s1 w1 cur result use_browser) as [[step s2] w2].
  simpl in H2.
  destruct step as [soup| |e]; try (by injection Hrun as <-).
  destruct (PaginationHandler.get_next_page_url E soup cur) as [next|];
    [|by injection Hrun as <-].
  destruct (str_truthy next && negb (bool_decide (next = cur)));
    [|by injection Hrun as <-].
  destruct (Qltb (base_delay (config s2)) 0); [by injection Hrun as <-|].
  by eapply IH.
Qed.

(** X17. The stored results never hold two records with the same
    fingerprint, and every stored fingerprint is known to the duplicate
    detector.  This holds for a new web scraper and is kept by a single
    scrape (synchronous or not), by the batch call and by the pagination
    walk, whenever they return. *)
Theorem X17_stored_results_are_distinct :
  (forall cfg, results_distinct E (init cfg)) /\
  (forall s w url selectors use_browser,
      results_distinct E s ->
      results_distinct E
        (scrape_single_url E s w url selectors use_browser).1.2 /\
      results_distinct E
        (scrape_single_url_async E s w url selectors use_browser).1.2) /\
  (forall s w urls selectors use_browser max_concurrent out,
      results_distinct E s ->
      scrape_multiple_urls_async E s w urls selectors use_browser
        max_concurrent = Some out ->
      results_distinct E out.1.2) /\
  (forall s w start_url selectors max_pages use_browser fuel out,
      results_distinct E s ->
      scrape_with_pagination E s w start_url selectors max_pages
        use_browser fuel = Some out ->
      results_distinct E out.1.2).
Proof.
  split; [|split; [|split]].
  - intros cfg. split; [constructor|]. intros h Hh.
    by apply elem_of_nil in Hh.
  - intros s w url selectors use_browser Hinv. split.
    + exact (proj1 (scrape_single_results false s w url selectors
                      use_browser) Hinv).
    + exact (proj1 (scrape_single_results true s w url selectors
                      use_browser) Hinv).
  - intros s w urls selectors use_browser mc out Hinv.
    unfold scrape_multiple_urls_async.
    destruct (_ <? 0); [by intros [= <-]|].
    destruct (_ && _); [discriminate|].
    pose proof (gather_results urls selectors use_browser s w) as H.
    destruct (gather E s w urls selectors use_browser) as [[gathered s1] w1].
    intros [= <-]. simpl. by apply H.
  - intros s w start_url selectors max_pages use_browser fuel out Hinv Hrun.
    by eapply pagination_loop_results.
Qed.

(** X18. No URL is lost.  A scrape of one URL ends in exactly one of:
    a stored result, a counted duplicate, an entry of [errors], or an
    exception that is passed on.  So the number of stored results plus
    the duplicate count plus the number of errors grows by one with every
    scrape that returns, and after a batch it has grown by the number of
    URLs, less the exceptions that were gathered. *)
Theorem X18_every_url_is_accounted_for
    (s : t) (w : World) (selectors : option (list (string * string)))
    (use_browser : bool) :
  (forall url,
      let '(r, s1, _) := scrape_single_url E s w url selectors use_browser in
      accounted s1 = accounted s + accounted_for r) /\
  (forall url,
      let '(r, s1, _) :=
        scrape_single_url_async E s w url selectors use_browser in
      accounted s1 = accounted s + accounted_for r) /\
  (forall urls,
      let '(gathered, s1, _) := gather E s w urls selectors use_browser in
      accounted s1 + Z.of_nat (count_raised gathered)
      = accounted s + Z.of_nat (length urls)).
Proof.
  split; [|split].
  - intros url.
    pose proof (proj2 (scrape_single_results false s w url selectors
                         use_browser)) as H.
    simpl in H.
    by destruct (scrape_single_url E s w url selectors use_browser)
      as [[r s1] w1].
  - intros url.
    pose proof (proj2 (scrape_single_results true s w url selectors
                         use_browser)) as H.
    simpl in H.
    by destruct (scrape_single_url_async E s w url selectors use_browser)
      as [[r s1] w1].
  - intros urls.
    pose proof (gather_results urls selectors use_browser s w) as H.
    destruct (gather E s w urls selectors use_browser) as [[gathered s1] w1].
    apply H.
Qed.

End Results.

(** ** Records and requests in HTML mode
       (core/html_scraper.py, scrapers/web_scraper.py) *)

Section HtmlMode.
Variable E : Env.

(** What one call of the request function sends, by outcome. *)
Lemma make_request_sync_summary (s : BaseScraper.t) (w : World) (url : string) :
  let '(r, s', w') := BaseScraper._make_request_sync E s w url in
  BaseScraper.config s' = BaseScraper.config s /\
  BaseScraper.robots_cache s'
  = BaseScraper.robots_cache (BaseScraper._can_fetch E s w url).1.2 /\
  match r with
  | Ok (Some resp) =>
      (BaseScraper._can_fetch E s w url).1.1 = true /\
      status_code resp = 200 /\
      count_events is_request (trace w')
      = S (count_events is_request (trace w))
  | Ok None =>
      count_events is_request (trace w')
      = ((if (BaseScraper._can_fetch E s w url).1.1 then 1 else 0)
         + count_events is_request (trace w))%nat
  | Raise e =>
      (BaseScraper._can_fetch E s w url).1.1 = true /\
      (exists key, e = KeyError key) /\
      count_events is_request (trace w')
      = count_events is_request (trace w)
  end.
Proof.
  unfold BaseScraper._make_request_sync.
  destruct (can_fetch_robots_only E s w url) as (Hcfg & _ & _ & _ & Htr & _).
  assert (H1 : count_events is_request
                 (trace (BaseScraper._can_fetch E s w url).2)
               = count_events is_request (trace w)).
  { destruct Htr as [-> | [u ->]]; [reflexivity|].
    rewrite count_events_app. simpl. lia. }
  clear Htr.
  destruct (BaseScraper._can_fetch E s w url) as [[allowed s1] w1].
  simpl in H1, Hcfg. cbn [fst snd].
  pose proof (wait_sync_requests (BaseScraper.config s1)
                (BaseScraper.rate_limiter s1) w1) as H2.
  destruct (RateLimiter.wait_sync (BaseScraper.config s1)
              (BaseScraper.rate_limiter s1) w1) as [rl w2'].
  simpl in H2. rewrite H1 in H2.
  destruct allowed; simpl; [|auto].
  pose proof (prepare_headers_count E is_request
                (BaseScraper.set_rate_limiter rl s1) None w2' eq_refl)
    as Hhd.
  destruct (BaseScraper._prepare_headers E
              (BaseScraper.set_rate_limiter rl s1) None w2') as [hd w2].
  simpl in Hhd. rewrite H2 in Hhd. clear H2. rename Hhd into H2.
  destruct (BaseScraper.proxy_manager s1) as [pm|]; simpl.
  - pose proof (get_proxy_requests E (BaseScraper.config s1) pm w2) as H3.
    pose proof (get_proxy_cases E (BaseScraper.config s1) pm w2) as Hc.
    destruct (ProxyManager.get_proxy E (BaseScraper.config s1) pm w2)
      as [[got pm'] w3].
    simpl in H3. rewrite H2 in H3.
    destruct got as [proxy|e]; simpl.
    + match goal with
      | |- context [BaseScraper.send_request E ?a ?b ?c ?d] =>
          pose proof (send_request_frame E a b c d) as H';
          pose proof (send_request_ok E a b c d) as Hok;
          destruct (BaseScraper.send_request E a b c d) as [[r s4] w4]
      end.
      simpl in Hok. destruct H' as (Hc4 & _ & _ & Hrc & _ & Htr4).
      split; [by rewrite Hc4|]. split; [by rewrite Hrc|].
      assert (Hn : count_events is_request (trace w4)
                   = S (count_events is_request (trace w))).
      { rewrite Htr4, count_events_app, H3. simpl. lia. }
      destruct r as [resp|]; [|exact Hn].
      split; [reflexivity|]. split; [by apply Hok|exact Hn].
    + split; [exact Hcfg|]. split; [reflexivity|].
      split; [reflexivity|]. split; [|exact H3].
      destruct Hc as [(Hr & _)|[(p & Hr & _)|(p & st & act & i & Hr & _)]];
        try discriminate.
      injection Hr as ->. by exists p.
  - match goal with
    | |- context [BaseScraper.send_request E ?a ?b ?c ?d] =>
        pose proof (send_request_frame E a b c d) as H';
        pose proof (send_request_ok E a b c d) as Hok;
        destruct (BaseScraper.send_request E a b c d) as [[r s4] w4]
    end.
    simpl in Hok. destruct H' as (Hc4 & _ & _ & Hrc & _ & Htr4).
    split; [by rewrite Hc4|]. split; [by rewrite Hrc|].
    assert (Hn : count_events is_request (trace w4)
                 = S (count_events is_request (trace w))).
    { rewrite Htr4, count_events_app, H2. simpl. lia. }
    destruct r as [resp|]; [|exact Hn].
    split; [reflexivity|]. split; [by apply Hok|exact Hn].
Qed.

(** After the robots check, a request adds only sleeps, random draws and
    requests to the trace. *)
Lemma make_request_sync_after_check (f : Event -> bool)
    (s : BaseScraper.t) (w : World) (url : string) :
  (forall d, f (EvSleep d) = false) -> f EvRandom = false ->
  (forall u px, f (EvRequest u px) = false) ->
  count_events f (trace (BaseScraper._make_request_sync E s w url).2)
  = count_events f (trace (BaseScraper._can_fetch E s w url).2).
Proof.
  intros Hsleep Hrandom Hreq. unfold BaseScraper._make_request_sync.
  destruct (BaseScraper._can_fetch E s w url) as [[allowed s1] w1].
  cbn [fst snd].
  assert (H2 : count_events f
                 (trace (RateLimiter.wait_sync (BaseScraper.config s1)
                           (BaseScraper.rate_limiter s1) w1).2)
               = count_events f (trace w1)).
  { unfold RateLimiter.wait_sync. simpl.
    destruct (RateLimiter.sleep_time _ _ _); [|reflexivity].
    simpl. rewrite count_events_app. simpl. rewrite Hsleep. lia. }
  destruct (RateLimiter.wait_sync (BaseScraper.config s1)
              (BaseScraper.rate_limiter s1) w1) as [rl w2'].
  simpl in H2.
  destruct allowed; simpl; [|reflexivity].
  pose proof (prepare_headers_count E f
                (BaseScraper.set_rate_limiter rl s1) None w2' Hrandom)
    as Hhd.
  destruct (BaseScraper._prepare_headers E
              (BaseScraper.set_rate_limiter rl s1) None w2') as [hd w2].
  simpl in Hhd. rewrite H2 in Hhd. clear H2. rename Hhd into H2.
  destruct (BaseScraper.proxy_manager s1) as [pm|]; simpl.
  - pose proof (get_proxy_cases E (BaseScraper.config s1) pm w2) as Hc.
    destruct (ProxyManager.get_proxy E (BaseScraper.config s1) pm w2)
      as [[got pm'] w3].
    assert (H3 : count_events f (trace w3) = count_events f (trace w1)).
    { destruct Hc as [(_ & _ & -> & _)|[(p & _ & _ & -> & _)|
        (p & st & act & i & _ & _ & _ & _ & _ & _ & _ & Hw)]];
        try exact H2.
      destruct (proxy_rotation (BaseScraper.config s1));
        destruct Hw as (_ & _ & ->); [exact H2|].
      simpl. rewrite count_events_app, H2. simpl. rewrite Hrandom. lia. }
    destruct got as [proxy|e]; simpl; [|exact H3].
    match goal with
    | |- context [BaseScraper.send_request E ?a ?b ?c ?d] =>
        pose proof (send_request_frame E a b c d) as H';
        destruct (BaseScraper.send_request E a b c d) as [[r s4] w4]
    end.
    simpl. destruct H' as (_ & _ & _ & _ & _ & ->).
    rewrite count_events_app, H3. simpl. rewrite Hreq. lia.
  - match goal with
    | |- context [BaseScraper.send_request E ?a ?b ?c ?d] =>
        pose proof (send_request_frame E a b c d) as H';
        destruct (BaseScraper.send_request E a b c d) as [[r s4] w4]
    end.
    simpl. destruct H' as (_ & _ & _ & _ & _ & ->).
    rewrite count_events_app, H2. simpl. rewrite Hreq. lia.
Qed.

(** A URL that the robots check has allowed is allowed again, without
    another lookup, by any scraper that has the same configuration and
    the cache that the check left. *)
Lemma can_fetch_cached (s s' : BaseScraper.t) (w w' : World) (url : string) :
  (BaseScraper._can_fetch E s w url).1.1 = true ->
  BaseScraper.config s' = BaseScraper.config s ->
  BaseScraper.robots_cache s'
  = BaseScraper.robots_cache (BaseScraper._can_fetch E s w url).1.2 ->
  BaseScraper._can_fetch E s' w' url = (true, s', w').
Proof.
  unfold BaseScraper._can_fetch, BaseScraper._get_robots_parser.
  intros Hallowed Hcfg Hcache. rewrite Hcfg.
  destruct (respect_robots_txt (BaseScraper.config s)); simpl in *;
    [|reflexivity].
  destruct (BaseScraper.robots_cache s !! url_domain E url) as [cached|]
    eqn:Hc; simpl in *.
  - destruct cached as [rp|]; simpl in *; rewrite Hcache, Hc; simpl;
      [|reflexivity].
    by rewrite Hallowed.
  - destruct (robots_read E w _) as [rp|]; simpl in *;
      rewrite Hcache, lookup_insert_eq; simpl; [|reflexivity].
    by rewrite Hallowed.
Qed.

Lemma build_result_shape (h h' : BaseScraper.t) (w : World)
    (url markup : string) (status : Z)
    (selectors : option (list (string * string)))
    (flags : HTMLScraper.Flags) (result : record) :
  HTMLScraper.build_result E h w url status markup selectors flags
  = (Some result, h') ->
  result.*1 = html_record_keys selectors flags /\
  dict_get "url" result = Some (JStr url) /\
  dict_get "status_code" result = Some (JInt status) /\
  (dict_get "title" result = Some JNull \/
   exists title, dict_get "title" result = Some (JStr title)) /\
  BaseScraper.config h' = BaseScraper.config h /\
  BaseScraper.robots_cache h' = BaseScraper.robots_cache h.
Proof.
  unfold HTMLScraper.build_result, html_record_keys.
  destruct (parse_html E markup) as [soup|]; [|discriminate].
  assert (Htitle : forall t : json,
            t = match soup_title E soup with
                | Some title => JStr title
                | None => JNull
                end ->
            Some t = Some JNull \/ exists title, Some t = Some (JStr title)).
  { intros t ->. destruct (soup_title E soup); eauto. }
  destruct flags as [[] [] []];
    (destruct selectors as [sel|]; simpl;
     [destruct (dict_truthy sel)|]);
    intros [= <- <-];
    (split; [reflexivity|]); (split; [reflexivity|]);
    (split; [reflexivity|]);
    (split; [by apply Htitle|]); split; reflexivity.
Qed.

Lemma html_record_keys_no_page_source
    (selectors : option (list (string * string)))
    (flags : HTMLScraper.Flags) (result : record) :
  result.*1 = html_record_keys selectors flags ->
  dict_has "page_source" result = false.
Proof.
  intros Hk. unfold dict_has. rewrite Hk. unfold html_record_keys.
  destruct flags as [[] [] []];
    destruct (HTMLScraper.selectors_truthy selectors);
    vm_compute; reflexivity.
Qed.

(** X19. A record that [scrape_sync] returns has the keys [url],
    [status_code], [title] and [timestamp], in this order, followed by
    [data] exactly when selectors were given and are not empty, and by
    [links], [images] and [forms], in this order, each exactly when its
    flag is set; so it never has a key [page_source].  Its [url] is the
    URL asked for, its [status_code] is 200 and its [title] is a string or
    [None]; the robots check had allowed the URL and exactly one request
    was sent. *)
Theorem X19_scrape_sync_record_shape
    (h h' : BaseScraper.t) (w w' : World) (url : string)
    (selectors : option (list (string * string)))
    (flags : HTMLScraper.Flags) (result : record)
    (Hscrape : HTMLScraper.scrape_sync E h w url selectors flags
               = (Ok (Some result), h', w')) :
  result.*1 = html_record_keys selectors flags /\
  dict_has "page_source" result = false /\
  dict_get "url" result = Some (JStr url) /\
  dict_get "status_code" result = Some (JInt 200) /\
  (dict_get "title" result = Some JNull \/
   exists title, dict_get "title" result = Some (JStr title)) /\
  (BaseScraper._can_fetch E h w url).1.1 = true /\
  count_events is_request (trace w') = S (count_events is_request (trace w)).
Proof.
  revert Hscrape. unfold HTMLScraper.scrape_sync.
  pose proof (make_request_sync_summary h w url) as Hsum.
  destruct (BaseScraper._make_request_sync E h w url) as [[got h1] w1].
  destruct got as [[response|]|e]; try discriminate.
  destruct Hsum as (_ & _ & Hallowed & Hstatus & Hn).
  destruct (HTMLScraper.build_result E h1 w1 url (status_code response)
              (text response) selectors flags) as [built h2] eqn:Hb.
  intros [= -> -> ->].
  destruct (build_result_shape _ _ _ _ _ _ _ _ _ Hb)
    as (Hk & Hu & Hs & Ht & _).
  rewrite Hstatus in Hs.
  split; [exact Hk|].
  split; [by eapply html_record_keys_no_page_source|]. auto.
Qed.

(** X20. In HTML mode the walk asks for every page twice.  When
    [scrape_single_url] has returned a record for a URL, one request for
    it has been sent; the record has no [page_source], so the step that
    looks for the next link calls the request function again for the same
    URL.  The robots check allows it from the cache, without another
    read of robots.txt, and a second request is sent, unless drawing the
    proxy raises. *)
Theorem X20_html_walk_requests_each_page_twice
    (s s1 : WebScraper.t) (w w1 : World) (url : string)
    (selectors : option (list (string * string))) (result : record)
    (Hscrape : WebScraper.scrape_single_url E s w url selectors false
               = (Ok (Some result), s1, w1)) :
  count_events is_request (trace w1) = S (count_events is_request (trace w)) /\
  let '(step, s2, w2) := WebScraper.page_soup E s1 w1 url result false in
  count_events is_robots_read (trace w2)
  = count_events is_robots_read (trace w1) /\
  ((exists key, step = WebScraper.Raised (KeyError key)) \/
   count_events is_request (trace w2)
   = S (S (count_events is_request (trace w)))).
Proof.
  revert Hscrape.
  unfold WebScraper.scrape_single_url, WebScraper.run_scraper.
  destruct (HTMLScraper.scrape_sync E (WebScraper.html_scraper s)
              (log (EvLogScraping url) w) url selectors
              HTMLScraper.no_flags)
    as [[got h1] w0] eqn:Hsync.
  unfold WebScraper.record_outcome.
  destruct got as [[res|]|e]; try discriminate.
  2:{ destruct (WebScraper.is_Exception e); discriminate. }
  destruct (dict_truthy res); [|discriminate].
  destruct (DataProcessor.is_duplicate E _ _) as [dup dp].
  intros [= -> <- ->].
  assert (Hlog : count_events is_request (trace (log (EvLogScraping url) w))
                 = count_events is_request (trace w)).
  { simpl. rewrite count_events_app. simpl. lia. }
  (* the first request *)
  revert Hsync. unfold HTMLScraper.scrape_sync.
  pose proof (make_request_sync_summary (WebScraper.html_scraper s)
                (log (EvLogScraping url) w) url) as Hsum.
  destruct (BaseScraper._make_request_sync E (WebScraper.html_scraper s)
              (log (EvLogScraping url) w) url) as [[got h0] w0'].
  destruct got as [[response|]|e]; try discriminate.
  destruct Hsum as (Hcfg & Hcache & Hallowed & _ & Hn).
  destruct (HTMLScraper.build_result E h0 w0' url (status_code response)
              (text response) selectors HTMLScraper.no_flags)
    as [built h2] eqn:Hb.
  intros [= -> -> ->].
  destruct (build_result_shape _ _ _ _ _ _ _ _ _ Hb)
    as (Hk & _ & _ & _ & Hcfg2 & Hcache2).
  rewrite Hlog in Hn. split; [exact Hn|].
  (* the record has no page source *)
  assert (Hps : dict_has "page_source" result = false)
    by (by eapply html_record_keys_no_page_source).
  unfold WebScraper.page_soup. rewrite Hps. simpl.
  (* the second request *)
  assert (Hagain : forall w', BaseScraper._can_fetch E h1 w' url = (true, h1, w')).
  { intros w'. eapply can_fetch_cached; [exact Hallowed| |]; congruence. }
  pose proof (make_request_sync_summary h1 w1 url) as Hsum2.
  assert (Hrr : count_events is_robots_read
                  (trace (BaseScraper._make_request_sync E h1 w1 url).2)
                = count_events is_robots_read (trace w1)).
  { rewrite (make_request_sync_after_check is_robots_read h1 w1 url)
      by (intros; reflexivity).
    by rewrite Hagain. }
  rewrite (Hagain w1) in Hsum2.
  destruct (BaseScraper._make_request_sync E h1 w1 url) as [[got h3] w3].
  simpl in Hrr, Hsum2.
  destruct got as [[resp2|]|e]; simpl.
  - split; [exact Hrr|]. right. destruct Hsum2 as (_ & _ & _ & _ & ->).
    by rewrite Hn.
  - split; [exact Hrr|]. right. destruct Hsum2 as (_ & _ & ->).
    by rewrite Hn.
  - split; [exact Hrr|]. left. destruct Hsum2 as (_ & _ & _ & [k ->] & _).
    by exists k.
Qed.

End HtmlMode.

(** X19 on a page that answers 200, without selectors, links asked for. *)
Lemma X19_scrape_sync_record_shape_witness :
  exists result h' w',
    HTMLScraper.scrape_sync (Fixture.env None Fixture.site_ok)
      (BaseScraper.init DEFAULT_CONFIG) Fixture.world0
      "https://example.com/a" None
      {| HTMLScraper.links := true; HTMLScraper.images := false;
         HTMLScraper.forms := false |}
    = (Ok (Some result), h', w') /\
    result.*1 = ["url"; "status_code"; "title"; "timestamp"; "links"] /\
    dict_has "page_source" result = false.
Proof.
  set (out := HTMLScraper.scrape_sync (Fixture.env None Fixture.site_ok)
                (BaseScraper.init DEFAULT_CONFIG) Fixture.world0
                "https://example.com/a" None
                {| HTMLScraper.links := true; HTMLScraper.images := false;
                   HTMLScraper.forms := false |}).
  exists (match out.1.1 with Ok (Some r) => r | _ => [] end), out.1.2, out.2.
  assert (H : out = (Ok (Some (match out.1.1 with
                               | Ok (Some r) => r | _ => [] end)),
                     out.1.2, out.2))
    by (vm_compute; reflexivity).
  split; [exact H|].
  destruct (X19_scrape_sync_record_shape _ _ _ _ _ _ _ _ _ H)
    as (Hk & Hps & _).
  split; [exact Hk|exact Hps].
Defined.

(** X20 on a page that answers 200: two requests for it. *)
Lemma X20_html_walk_requests_each_page_twice_witness :
  exists result s1 w1,
    WebScraper.scrape_single_url (Fixture.env None Fixture.site_ok)
      (WebScraper.init DEFAULT_CONFIG) Fixture.world0
      "https://example.com/a" None false
    = (Ok (Some result), s1, w1) /\
    count_events is_request
      (trace (WebScraper.page_soup (Fixture.env None Fixture.site_ok)
                s1 w1 "https://example.com/a" result false).2)
    = 2%nat.
Proof.
  set (out := WebScraper.scrape_single_url (Fixture.env None Fixture.site_ok)
                (WebScraper.init DEFAULT_CONFIG) Fixture.world0
                "https://example.com/a" None false).
  exists (match out.1.1 with Ok (Some r) => r | _ => [] end), out.1.2, out.2.
  assert (H : out = (Ok (Some (match out.1.1 with
                               | Ok (Some r) => r | _ => [] end)),
                     out.1.2, out.2))
    by (vm_compute; reflexivity).
  split; [exact H|].
  pose proof (proj2 (X20_html_walk_requests_each_page_twice _ _ _ _ _ _ _ _ H))
    as H2.
  revert H2. vm_compute. intros [_ [[key Hkey]|Hn]]; [discriminate|].
  exact Hn.
Defined.

(** ** The length of a wait (utils/rate_limiter.py) *)

Section WaitLength.
Import RateLimiter.


End WaitLength.


(** ** The guard of the walk (utils/pagination_handler.py,
       scrapers/web_scraper.py) *)

Section WalkGuard.

(** X22. The condition of the loop of [scrape_with_pagination] is
    [should_continue_pagination] with "has a next page" read as "the
    current URL is not empty".  With a positive ceiling it holds exactly
    for the page counts below the ceiling, so once it fails it fails for
    every larger count; without a ceiling ([None] or 0) it holds for
    every count. *)
Theorem X22_walk_guard_is_should_continue
    (current_url : string) (max_pages : option Z) (page_count : Z) :
  WebScraper.keep_walking current_url max_pages page_count
  = PaginationHandler.should_continue_pagination page_count max_pages
      (str_truthy current_url) /\
  (forall n, max_pages = Some n -> 0 < n ->
     (PaginationHandler.should_continue_pagination page_count max_pages true
      = true <-> page_count < n)) /\
  ((max_pages = None \/ max_pages = Some 0) ->
   PaginationHandler.should_continue_pagination page_count max_pages true
   = true).
Proof.
  unfold WebScraper.keep_walking, PaginationHandler.should_continue_pagination,
    PaginationHandler.max_pages_truthy.
  split; [|split].
  - destruct (str_truthy current_url); simpl; [|reflexivity].
    destruct max_pages as [n|]; [|reflexivity].
    destruct (n =? 0) eqn:H0; simpl; [reflexivity|].
    destruct (page_count <? n) eqn:H1, (n <=? page_count) eqn:H2;
      try reflexivity; lia.
  - intros n -> Hn. simpl.
    destruct (n =? 0) eqn:H0; [lia|]. simpl.
    destruct (n <=? page_count) eqn:H2; split; intros; try lia;
      try reflexivity; discriminate.
  - intros [-> | ->]; reflexivity.
Qed.

End WalkGuard.

(** ** What the batch returns and what it stores (scrapers/web_scraper.py) *)

Section ReturnedAndStored.
Import WebScraper.
Variable E : Env.





End ReturnedAndStored.

